(** * MassEstimate: polygon detections to mass estimates

    A shallow embedding of [MassEstimate.py]: the prediction extractor
    [iter_prediction_objects], the shoelace area [shoelace_area_px2], the
    row builder [prediction_to_row] and the totals of
    [json_predictions_to_csv]; and of the loop of [pred.py], which
    writes the document they read.

    Python values are modelled as they are after [json.loads]: [None],
    booleans, unbounded integers, IEEE 754 binary64 floats, strings, lists
    and insertion-ordered dictionaries.  Floats are the [spec_float] of the
    standard library at precision 53 and maximal exponent 1024, so every
    rounding of the program is the rounding of the model. *)

From Stdlib Require Import ZArith QArith Qpower List String Bool Lia.
From Stdlib Require Import Floats.SpecFloat.
Import ListNotations.

Set Warnings "-register-all".

Local Open Scope Z_scope.
Local Open Scope string_scope.

(** ** Binary64 arithmetic *)

Definition float := spec_float.

Definition prec : Z := 53.
Definition emax : Z := 1024.

Definition fadd : float -> float -> float := SFadd prec emax.
Definition fsub : float -> float -> float := SFsub prec emax.
Definition fmul : float -> float -> float := SFmul prec emax.
Definition fdiv : float -> float -> float := SFdiv prec emax.
Definition fabs : float -> float := SFabs.
Definition fltb : float -> float -> bool := SFltb.
Definition fleb : float -> float -> bool := SFleb.

(** The float nearest to an integer (ties to even); an infinity when the
    integer is beyond the binary64 range. *)
Definition Z2F (z : Z) : float := binary_normalize prec emax z 0 false.

(** A decimal literal [m]e-[k], correctly rounded, as Python reads it. *)
Definition decimal (m : Z) (k : Z) : float := fdiv (Z2F m) (Z2F (10 ^ k)).

Definition is_nan (f : float) : bool :=
  match f with S754_nan => true | _ => false end.

Definition is_zero (f : float) : bool :=
  match f with S754_zero _ => true | _ => false end.

Definition is_finite (f : float) : bool :=
  match f with S754_zero _ | S754_finite _ _ _ => true | _ => false end.

(** ** Exceptions and results *)

Inductive exn : Type :=
| TypeError | KeyError | IndexError | OverflowError
| AttributeError | ZeroDivisionError.

Inductive result (A : Type) : Type :=
| Ok (a : A)
| Raise (e : exn).

Arguments Ok {A} a.
Arguments Raise {A} e.

Definition bind {A B : Type} (r : result A) (k : A -> result B) : result B :=
  match r with
  | Ok a => k a
  | Raise e => Raise e
  end.

Notation "x <- r ;; k" := (bind r (fun x => k))
  (at level 61, r at next level, right associativity).

(** ** Python values *)

Inductive value : Type :=
| VNone
| VBool (b : bool)
| VInt (z : Z)
| VFloat (f : float)
| VStr (s : string)
| VList (l : list value)
| VDict (d : list (string * value)).

(** [k in d] and [d[k]] / [d.get(k)] on a dictionary held in insertion
    order. *)
Fixpoint lookup (k : string) (d : list (string * value)) : option value :=
  match d with
  | [] => None
  | (k', v) :: d' => if String.eqb k k' then Some v else lookup k d'
  end.

(** [d.get(k)]: the value, or [None] when the key is missing. *)
Definition dict_get (d : list (string * value)) (k : string) : value :=
  match lookup k d with
  | Some v => v
  | None => VNone
  end.

(** [v.get(k)] on any value: only dictionaries have the method. *)
Definition py_get (v : value) (k : string) : result value :=
  match v with
  | VDict d => Ok (dict_get d k)
  | _ => Raise AttributeError
  end.

(** [v.get(k, dflt)]. *)
Definition py_get_default (v : value) (k : string) (dflt : value) : result value :=
  match v with
  | VDict d => Ok (match lookup k d with Some x => x | None => dflt end)
  | _ => Raise AttributeError
  end.

(** [v[k]] with a string key [k]. *)
Definition subscript (v : value) (k : string) : result value :=
  match v with
  | VDict d =>
      match lookup k d with
      | Some x => Ok x
      | None => Raise KeyError
      end
  | _ => Raise TypeError
  end.

(** [l[i]] on a list, for an index that is not negative. *)
Definition getitem (l : list value) (i : nat) : result value :=
  match nth_error l i with
  | Some x => Ok x
  | None => Raise IndexError
  end.

(** ** Arithmetic of Python numbers *)

(** [float(z)] for an integer operand of a float operation. *)
Definition float_of_int (z : Z) : result float :=
  match Z2F z with
  | S754_infinity _ => Raise OverflowError
  | f => Ok f
  end.

Inductive number : Type :=
| NInt (z : Z)
| NFloat (f : float).

(** Booleans are integers. *)
Definition as_number (v : value) : option number :=
  match v with
  | VBool b => Some (NInt (Z.b2z b))
  | VInt z => Some (NInt z)
  | VFloat f => Some (NFloat f)
  | _ => None
  end.

Definition as_int (v : value) : option Z :=
  match v with
  | VBool b => Some (Z.b2z b)
  | VInt z => Some z
  | _ => None
  end.

(** A binary operation on the numeric tower: integers stay exact, a float
    operand turns the other one into a float first. *)
Definition arith (zop : Z -> Z -> Z) (fop : float -> float -> float)
  (a b : number) : result value :=
  match a, b with
  | NInt x, NInt y => Ok (VInt (zop x y))
  | NInt x, NFloat g => f <- float_of_int x ;; Ok (VFloat (fop f g))
  | NFloat f, NInt y => g <- float_of_int y ;; Ok (VFloat (fop f g))
  | NFloat f, NFloat g => Ok (VFloat (fop f g))
  end.

Fixpoint str_repeat (s : string) (n : nat) : string :=
  match n with
  | O => EmptyString
  | S n' => s ++ str_repeat s n'
  end.

Fixpoint list_repeat {A : Type} (l : list A) (n : nat) : list A :=
  match n with
  | O => []
  | S n' => (l ++ list_repeat l n')%list
  end.

(** [a * b].  A sequence times an integer is repeated (the repeated
    sequence is assumed to fit in memory: Python raises [MemoryError], or
    [OverflowError] for a count beyond the range of an index, where it
    does not; what is stated about the exceptions of [*] leaves sequences
    out). *)
Definition py_mul (a b : value) : result value :=
  match as_number a, as_number b with
  | Some x, Some y => arith Z.mul fmul x y
  | _, _ =>
      match a, as_int b, as_int a, b with
      | VStr s, Some n, _, _ => Ok (VStr (str_repeat s (Z.to_nat n)))
      | VList l, Some n, _, _ => Ok (VList (list_repeat l (Z.to_nat n)))
      | _, _, Some n, VStr s => Ok (VStr (str_repeat s (Z.to_nat n)))
      | _, _, Some n, VList l => Ok (VList (list_repeat l (Z.to_nat n)))
      | _, _, _, _ => Raise TypeError
      end
  end.

(** [a - b]: numbers only. *)
Definition py_sub (a b : value) : result value :=
  match as_number a, as_number b with
  | Some x, Some y => arith Z.sub fsub x y
  | _, _ => Raise TypeError
  end.

(** [a + b]: numbers, or two strings, or two lists. *)
Definition py_add (a b : value) : result value :=
  match as_number a, as_number b with
  | Some x, Some y => arith Z.add fadd x y
  | _, _ =>
      match a, b with
      | VStr s, VStr t => Ok (VStr (s ++ t))
      | VList l, VList m => Ok (VList (l ++ m)%list)
      | _, _ => Raise TypeError
      end
  end.

(** [abs(a)]. *)
Definition py_abs (a : value) : result value :=
  match as_number a with
  | Some (NInt z) => Ok (VInt (Z.abs z))
  | Some (NFloat f) => Ok (VFloat (fabs f))
  | None => Raise TypeError
  end.

(** [a / d] for a float divisor [d]. *)
Definition py_div_float (a : value) (d : float) : result value :=
  match as_number a with
  | Some (NInt z) =>
      f <- float_of_int z ;;
      if is_zero d then Raise ZeroDivisionError else Ok (VFloat (fdiv f d))
  | Some (NFloat f) =>
      if is_zero d then Raise ZeroDivisionError else Ok (VFloat (fdiv f d))
  | None => Raise TypeError
  end.

(** ** Constants *)

Definition F0 : float := S754_zero false.
(** [2.0] *)
Definition F2 : float := S754_finite false 0x10000000000000 (-51).

(** [PX2_TO_KG = 0.00012], that is [0x1.f75104d551d69p-14]. *)
Definition PX2_TO_KG : float := S754_finite false 0x1f75104d551d69 (-66).
(** [LOW_MULT = 1.0] *)
Definition LOW_MULT : float := S754_finite false 0x10000000000000 (-52).
(** [MOD_MULT = 1.5] *)
Definition MOD_MULT : float := S754_finite false 0x18000000000000 (-52).
(** [HIGH_MULT = 2.0] *)
Definition HIGH_MULT : float := S754_finite false 0x10000000000000 (-51).

(** ** The shoelace area *)

(** One turn of the loop of [shoelace_area_px2]: [s += x1 * y2 - y1 * x2]
    for the vertices [i] and [(i + 1) % n]. *)
Definition shoelace_step (points : list value) (n : nat) (s : value) (i : nat)
  : result value :=
  p <- getitem points i ;;
  x1 <- subscript p "x" ;;
  p <- getitem points i ;;
  y1 <- subscript p "y" ;;
  q <- getitem points ((i + 1) mod n) ;;
  x2 <- subscript q "x" ;;
  q <- getitem points ((i + 1) mod n) ;;
  y2 <- subscript q "y" ;;
  a <- py_mul x1 y2 ;;
  b <- py_mul y1 x2 ;;
  t <- py_sub a b ;;
  py_add s t.

(** [for i in range(n)] threading [s], stopping at the first exception. *)
Fixpoint shoelace_loop (points : list value) (n : nat) (s : value)
  (range : list nat) : result value :=
  match range with
  | [] => Ok s
  | i :: range' =>
      s' <- shoelace_step points n s i ;;
      shoelace_loop points n s' range'
  end.

Definition shoelace_area_px2 (points : list value) : result value :=
  let n := List.length points in
  if (n <? 3)%nat then Ok (VFloat F0)
  else
    s <- shoelace_loop points n (VFloat F0) (seq 0 n) ;;
    a <- py_abs s ;;
    py_div_float a F2.

(** ** The prediction extractor *)

(** What a generator has produced when it stops: the values it yielded,
    and the exception that ended it, if one did. *)
Definition yields : Type := (list value * option exn)%type.

Definition gen_seq (a b : yields) : yields :=
  match snd a with
  | Some _ => a
  | None => ((fst a ++ fst b)%list, snd b)
  end.

Definition gen_done : yields := ([], None).

(** The characters of a string.  A string is a sequence of bytes here, so
    a character is a byte: the model follows Python on ASCII strings. *)
Fixpoint chars (s : string) : list value :=
  match s with
  | EmptyString => []
  | String c s' => VStr (String c EmptyString) :: chars s'
  end.

(** [yield from v]: a list gives its elements, a string its characters, a
    dictionary its keys; nothing else can be iterated. *)
Definition yield_from (v : value) : yields :=
  match v with
  | VList l => (l, None)
  | VStr s => (chars s, None)
  | VDict d => (map (fun kv => VStr (fst kv)) d, None)
  | _ => ([], Some TypeError)
  end.

(** The body of [for out in obj["outputs"]]. *)
Definition outputs_item (out : value) : yields :=
  match out with
  | VDict od =>
      match lookup "predictions" od with
      | Some p => yield_from p
      | None => gen_done
      end
  | _ => gen_done
  end.

Fixpoint gen_concat (gs : list yields) : yields :=
  match gs with
  | [] => gen_done
  | g :: gs' => gen_seq g (gen_concat gs')
  end.

(** The generator, by structural recursion: one frame for each nested
    container.  Python bounds the frames by its recursion limit and raises
    [RecursionError] beyond it; the model follows the generator on
    documents nested less deeply. *)
Fixpoint iter_prediction_objects (obj : value) : yields :=
  match obj with
  | VDict d =>
      match lookup "predictions" d with
      | Some (VList l) => (l, None)
      | _ =>
          match lookup "outputs" d with
          | Some (VList outs) => gen_concat (map outputs_item outs)
          | _ =>
              (fix values (d : list (string * value)) : yields :=
                 match d with
                 | [] => gen_done
                 | (_, v) :: d' =>
                     match v with
                     | VDict _ | VList _ =>
                         gen_seq (iter_prediction_objects v) (values d')
                     | _ => values d'
                     end
                 end) d
          end
      end
  | VList l =>
      (fix items (l : list value) : yields :=
         match l with
         | [] => gen_done
         | item :: l' => gen_seq (iter_prediction_objects item) (items l')
         end) l
  | _ => gen_done
  end.

(** ** Rows *)

Definition prediction_to_row (pred : value) : result value :=
  pts <- py_get_default pred "points" (VList []) ;;
  area_px2 <- match pts with
              | VList l => shoelace_area_px2 l
              | _ => Ok (VFloat F0)
              end ;;
  surface_kg <- py_mul area_px2 (VFloat PX2_TO_KG) ;;
  detection_id <- py_get pred "detection_id" ;;
  class <- py_get pred "class" ;;
  class_id <- py_get pred "class_id" ;;
  confidence <- py_get pred "confidence" ;;
  bbox_x <- py_get pred "x" ;;
  bbox_y <- py_get pred "y" ;;
  bbox_width <- py_get pred "width" ;;
  bbox_height <- py_get pred "height" ;;
  let num_points := match pts with
                    | VList l => VInt (Z.of_nat (List.length l))
                    | _ => VInt 0
                    end in
  mass_low_kg <- py_mul surface_kg (VFloat LOW_MULT) ;;
  mass_mod_kg <- py_mul surface_kg (VFloat MOD_MULT) ;;
  mass_high_kg <- py_mul surface_kg (VFloat HIGH_MULT) ;;
  Ok (VDict [ ("detection_id", detection_id);
              ("class", class);
              ("class_id", class_id);
              ("confidence", confidence);
              ("bbox_x", bbox_x);
              ("bbox_y", bbox_y);
              ("bbox_width", bbox_width);
              ("bbox_height", bbox_height);
              ("num_points", num_points);
              ("area_px2", area_px2);
              ("mass_low_kg", mass_low_kg);
              ("mass_mod_kg", mass_mod_kg);
              ("mass_high_kg", mass_high_kg) ]).

(** ** The report: rows, then totals *)

Fixpoint rows_of (preds : list value) : result (list value) :=
  match preds with
  | [] => Ok []
  | p :: preds' =>
      r <- prediction_to_row p ;;
      rs <- rows_of preds' ;;
      Ok (r :: rs)
  end.

(** [rows = [prediction_to_row(p) for p in iter_prediction_objects(data)]]:
    the rows of what the generator yields, then the generator's own
    exception if it ended with one. *)
Definition build_rows (data : value) : result (list value) :=
  let g := iter_prediction_objects data in
  rows <- rows_of (fst g) ;;
  match snd g with
  | Some e => Raise e
  | None => Ok rows
  end.

(** The blank cell of the totals row, the empty string. *)
Definition blank : value := VStr EmptyString.

(** [sum(r[k] for r in rows)], from the integer [0], left to right: the
    accumulation of CPython up to 3.11 (later versions compensate the
    rounding of a sum of floats). *)
Fixpoint sum_from (acc : value) (rows : list value) (k : string) : result value :=
  match rows with
  | [] => Ok acc
  | r :: rows' =>
      v <- subscript r k ;;
      acc' <- py_add acc v ;;
      sum_from acc' rows' k
  end.

Definition sum_field (rows : list value) (k : string) : result value :=
  sum_from (VInt 0) rows k.

Definition totals_row (rows : list value) : result value :=
  total_low <- sum_field rows "mass_low_kg" ;;
  total_mod <- sum_field rows "mass_mod_kg" ;;
  total_high <- sum_field rows "mass_high_kg" ;;
  total_area <- sum_field rows "area_px2" ;;
  Ok (VDict [ ("detection_id", VStr "TOTAL");
              ("class", blank);
              ("class_id", blank);
              ("confidence", blank);
              ("bbox_x", blank);
              ("bbox_y", blank);
              ("bbox_width", blank);
              ("bbox_height", blank);
              ("num_points", blank);
              ("area_px2", total_area);
              ("mass_low_kg", total_low);
              ("mass_mod_kg", total_mod);
              ("mass_high_kg", total_high) ]).

(** The records [json_predictions_to_csv] writes after the header, for the
    parsed document [data]. *)
Definition json_predictions_to_csv (data : value) (write_totals_row : bool)
  : result (list value) :=
  rows <- build_rows data ;;
  if write_totals_row then
    t <- totals_row rows ;;
    Ok (rows ++ [t])%list
  else Ok rows.

(** A vertex [{"x": x, "y": y}]. *)
Definition point (x y : value) : value := VDict [("x", x); ("y", y)].

(** The detection of the end-to-end example. *)
Definition example_fields : list (string * value) :=
  [ ("detection_id", VStr "a");
    ("class", VStr "bottle");
    ("class_id", VInt 1);
    ("confidence", VFloat (decimal 9 1));
    ("x", VInt 10);
    ("y", VInt 10);
    ("width", VInt 20);
    ("height", VInt 20);
    ("points", VList [ point (VInt 0) (VInt 0);
                       point (VInt 10) (VInt 0);
                       point (VInt 10) (VInt 10);
                       point (VInt 0) (VInt 10) ]) ].

Definition example_detection : value := VDict example_fields.

Definition example_document : value :=
  VDict [("predictions", VList [example_detection])].

(** The pass-through columns: the key of the row and the key of the
    detection it is read from. *)
Definition passthrough : list (string * string) :=
  [ ("detection_id", "detection_id");
    ("class", "class");
    ("class_id", "class_id");
    ("confidence", "confidence");
    ("bbox_x", "x");
    ("bbox_y", "y");
    ("bbox_width", "width");
    ("bbox_height", "height") ].


(** ** The specification's view of the shoelace formula *)

(** The vertex of integer coordinates [p]. *)
Definition vertex (p : Z * Z) : value := point (VInt (fst p)) (VInt (snd p)).

(** [p] is a mapping whose "x" and "y" entries are the integers [c]. *)
Definition int_vertex (p : value) (c : Z * Z) : Prop :=
  exists d, p = VDict d
            /\ lookup "x" d = Some (VInt (fst c))
            /\ lookup "y" d = Some (VInt (snd c)).

Definition cross (p q : Z * Z) : Z := fst p * snd q - snd p * fst q.

(** The term [x_i * y_(i+1) - y_i * x_(i+1)], indices modulo [n]. *)
Definition cross_term (pts : list (Z * Z)) (i : nat) : Z :=
  cross (nth i pts (0, 0)) (nth ((i + 1) mod List.length pts) pts (0, 0)).

Definition cross_terms (pts : list (Z * Z)) : list Z :=
  map (cross_term pts) (seq 0 (List.length pts)).

Definition zsum (l : list Z) : Z := fold_right Z.add 0 l.

(** The sum of the formula, and the sum of the magnitudes of its terms. *)
Definition shoelace_sum (pts : list (Z * Z)) : Z := zsum (cross_terms pts).

Definition cross_mass (pts : list (Z * Z)) : Z :=
  zsum (map Z.abs (cross_terms pts)).

(** [p] is a mapping whose "x" and "y" entries are the floats [c]. *)
Definition float_vertex (p : value) (c : float * float) : Prop :=
  exists d, p = VDict d
            /\ lookup "x" d = Some (VFloat (fst c))
            /\ lookup "y" d = Some (VFloat (snd c)).

(** The same term and sum in binary64: every product, difference and
    addition rounded, the sum taken from [0.0] in the order of the
    indices. *)
Definition fcross (p q : float * float) : float :=
  fsub (fmul (fst p) (snd q)) (fmul (snd p) (fst q)).

Definition fcross_term (pts : list (float * float)) (i : nat) : float :=
  fcross (nth i pts (F0, F0)) (nth ((i + 1) mod List.length pts) pts (F0, F0)).

Definition float_shoelace_sum (pts : list (float * float)) : float :=
  fold_left fadd (map (fcross_term pts) (seq 0 (List.length pts))) F0.

(** The same sums over the closed path, by structure. *)
Fixpoint path (g : Z * Z -> Z * Z -> Z) (l : list (Z * Z)) : Z :=
  match l with
  | p :: (q :: _) as l' => g p q + path g l'
  | _ => 0
  end.

Definition total (g : Z * Z -> Z * Z -> Z) (l : list (Z * Z)) : Z :=
  match l with
  | [] => 0
  | p :: _ => path g l + g (last l p) p
  end.

(** The rational a finite float stands for. *)
Definition F2Q (f : float) : Q :=
  match f with
  | S754_finite s m e =>
      ((if s then -1 else 1) * inject_Z (Zpos m) * Qpower 2 e)%Q
  | _ => 0%Q
  end.

(** ** Shapes of detections *)

(** A number that is a float, or an integer (or boolean) below [B] in
    magnitude. *)
Definition num_below (B : Z) (v : value) : Prop :=
  match as_number v with
  | Some (NFloat _) => True
  | Some (NInt z) => Z.abs z < B
  | None => False
  end.

(** A coordinate the arithmetic accepts: a float, or an integer below
    [2^511] in magnitude. *)
Definition coord_ok (v : value) : Prop := num_below (2 ^ 511) v.

Definition vertex_ok (p : value) : Prop :=
  exists d vx vy,
    p = VDict d /\ lookup "x" d = Some vx /\ lookup "y" d = Some vy
    /\ coord_ok vx /\ coord_ok vy.

(** The "points" of a detection the estimator accepts: missing, not a
    list, a list of fewer than three entries of any kind, or a list of
    numeric vertices. *)
Definition points_ok (d : list (string * value)) : Prop :=
  match lookup "points" d with
  | Some (VList l) => (List.length l < 3)%nat \/ Forall vertex_ok l
  | _ => True
  end.

(** [row[k]] of a row. *)
Definition field (row : value) (k : string) : option value :=
  match row with
  | VDict r => lookup k r
  | _ => None
  end.

(** The floats of the column [k]. *)
Definition float_column (k : string) (rows : list value) : list float :=
  map (fun r => match field r k with
                | Some (VFloat f) => f
                | _ => S754_nan
                end) rows.

(** The area [prediction_to_row] computes for the detection [d]. *)
Definition detection_area (d : list (string * value)) : result value :=
  match lookup "points" d with
  | Some (VList l) => shoelace_area_px2 l
  | Some _ => Ok (VFloat F0)
  | None => shoelace_area_px2 []
  end.

Definition detection_num_points (d : list (string * value)) : Z :=
  match lookup "points" d with
  | Some (VList l) => Z.of_nat (List.length l)
  | Some _ => 0
  | None => 0
  end.

(** The row of the detection [d] once its area is [a]. *)
Definition row_for (d : list (string * value)) (a : float) : value :=
  VDict [ ("detection_id", dict_get d "detection_id");
          ("class", dict_get d "class");
          ("class_id", dict_get d "class_id");
          ("confidence", dict_get d "confidence");
          ("bbox_x", dict_get d "x");
          ("bbox_y", dict_get d "y");
          ("bbox_width", dict_get d "width");
          ("bbox_height", dict_get d "height");
          ("num_points", VInt (detection_num_points d));
          ("area_px2", VFloat a);
          ("mass_low_kg", VFloat (fmul (fmul a PX2_TO_KG) LOW_MULT));
          ("mass_mod_kg", VFloat (fmul (fmul a PX2_TO_KG) MOD_MULT));
          ("mass_high_kg", VFloat (fmul (fmul a PX2_TO_KG) HIGH_MULT)) ].

(** The totals row whose four accumulations are given. *)
Definition totals_of (area low moderate high : value) : value :=
  VDict [ ("detection_id", VStr "TOTAL");
          ("class", blank);
          ("class_id", blank);
          ("confidence", blank);
          ("bbox_x", blank);
          ("bbox_y", blank);
          ("bbox_width", blank);
          ("bbox_height", blank);
          ("num_points", blank);
          ("area_px2", area);
          ("mass_low_kg", low);
          ("mass_mod_kg", moderate);
          ("mass_high_kg", high) ].

(** [v < 0] and [v >= 0] on a number. *)
Definition lt_zero (v : value) : bool :=
  match v with
  | VInt z => (z <? 0)%Z
  | VFloat f => fltb f F0
  | _ => false
  end.

Definition ge_zero (v : value) : bool :=
  match v with
  | VInt z => (0 <=? z)%Z
  | VFloat f => fleb F0 f
  | _ => false
  end.

Definition value_is_nan (v : value) : bool :=
  match v with
  | VFloat f => is_nan f
  | _ => false
  end.

(** A number is never negative: [v < 0] is false, and [v >= 0] holds
    unless [v] is a NaN. *)
Definition never_negative (v : value) : Prop :=
  lt_zero v = false /\ (value_is_nan v = false -> ge_zero v = true).

(** [0.018000000000000002], that is [0x1.26e978d4fdf3cp-6]: the float
    next above [0.018]. *)
Definition moderate_example : float := S754_finite false 0x126e978d4fdf3c (-58).

(** The polygon of the end-to-end example. *)
Definition example_polygon : list (Z * Z) := [(0, 0); (10, 0); (10, 10); (0, 10)].

(** The unit square, from each starting vertex, in both directions. *)
Definition unit_square_listings : list (list (Z * Z)) :=
  [ [(0, 0); (1, 0); (1, 1); (0, 1)];
    [(1, 0); (1, 1); (0, 1); (0, 0)];
    [(1, 1); (0, 1); (0, 0); (1, 0)];
    [(0, 1); (0, 0); (1, 0); (1, 1)];
    [(0, 1); (1, 1); (1, 0); (0, 0)];
    [(1, 1); (1, 0); (0, 0); (0, 1)];
    [(1, 0); (0, 0); (0, 1); (1, 1)];
    [(0, 0); (0, 1); (1, 1); (1, 0)] ].

(** The four derived columns. *)
Definition derived : list string :=
  ["area_px2"; "mass_low_kg"; "mass_mod_kg"; "mass_high_kg"].

(** [sum] of a column of floats: the integer [0] when there is no row. *)
Definition float_total (fs : list float) : value :=
  match fs with
  | [] => VInt 0
  | f :: fs' => VFloat (fold_left fadd fs' (fadd F0 f))
  end.

(** [2.0 ** 600], that is [4.149515568880993e+180]. *)
Definition huge : float := S754_finite false 0x10000000000000 548.

(** A document whose only detection is a triangle of vertices
    [(huge, huge)]. *)
Definition overflow_document : value :=
  VDict [("predictions",
          VList [VDict [("points",
                         VList [ point (VFloat huge) (VFloat huge);
                                 point (VFloat huge) (VFloat huge);
                                 point (VFloat huge) (VFloat huge) ])]])].

(** The least positive float, [5e-324]. *)
Definition least_subnormal : float := S754_finite false 1 (-1074).

(** ** Rounding, as [binary_round_aux] performs it *)

Definition fexp64 (x : Z) : Z := Z.max (x - 53) (-1074).

(** The second half of [binary_round_aux]: renormalise after rounding. *)
Definition finish (s : bool) (r E : Z) : float :=
  let '(mrs, e'') := shr_fexp prec emax r E loc_Exact in
  match shr_m mrs with
  | Z0 => S754_zero s
  | Zpos m =>
      if (e'' <=? emax - prec)%Z then S754_finite s m e'' else S754_infinity s
  | Zneg _ => S754_nan
  end.

Definition canonical (m : positive) (e : Z) : Prop :=
  fexp64 (Zpos (digits2_pos m) + e) = e.

(** [rounds s r E f]: [f] is what rounding returns for the rounded
    mantissa [r] at exponent [E], with sign [s]. *)
Inductive rounds (s : bool) (r E : Z) : float -> Prop :=
| rounds_zero : r = 0 -> rounds s r E (S754_zero s)
| rounds_finite (m : positive) (e : Z) :
    canonical m e -> E <= e -> e <= 971 -> Zpos m * 2 ^ (e - E) = r ->
    rounds s r E (S754_finite s m e)
| rounds_inf (m : positive) (e : Z) :
    canonical m e -> E <= e -> 971 < e -> Zpos m * 2 ^ (e - E) = r ->
    rounds s r E (S754_infinity s).

(** The value of a canonical float, in units of the least subnormal
    [2^-1074]. *)
Definition val (m : positive) (e : Z) : Z := Zpos m * 2 ^ (e + 1074).

Definition rval (r E : Z) : Z := r * 2 ^ (E + 1074).

(** [exact_rep s v f]: [f] is the float of sign [s] whose magnitude is
    exactly [v] units of [2^-1074] (or the infinity that stands for it). *)
Definition exact_rep (s : bool) (v : Z) (f : float) : Prop :=
  exists r E, -1074 <= E /\ rounds s r E f /\ rval r E = v.

Definition zsign (z : Z) : bool := (z <? 0)%Z.

Definition sval (s : bool) (m : positive) (e : Z) : Z := cond_Zopp s (val m e).

(** The sign bit is clear, or the float is a NaN. *)
Definition nonneg (f : float) : Prop :=
  match f with
  | S754_nan => True
  | S754_zero s | S754_infinity s | S754_finite s _ _ => s = false
  end.

Ltac pow_numerals :=
  change (2 ^ 51) with 2251799813685248 in *;
  change (2 ^ 52) with 4503599627370496 in *;
  change (2 ^ 53) with 9007199254740992 in *.

(** ** The rest of the program *)

(** The fallback of [iter_prediction_objects] on one entry of a
    dictionary: only a dictionary or a list is searched. *)
Definition fallback_item (kv : string * value) : yields :=
  match snd kv with
  | VDict _ | VList _ => iter_prediction_objects (snd kv)
  | _ => gen_done
  end.

(** No dictionary of [v], at any depth, has a key "outputs". *)
Fixpoint no_outputs (v : value) : bool :=
  match v with
  | VDict d =>
      match lookup "outputs" d with
      | Some _ => false
      | None => forallb (fun kv => no_outputs (snd kv)) d
      end
  | VList l => forallb no_outputs l
  | _ => true
  end.

(** The nesting depth of the containers of a value: the frames the
    recursion of the generator stacks on it. *)
Fixpoint depth (v : value) : nat :=
  match v with
  | VDict d => S (fold_right (fun kv n => Nat.max (depth (snd kv)) n) O d)
  | VList l => S (fold_right (fun x n => Nat.max (depth x) n) O l)
  | _ => O
  end.

(** A nesting depth the generator descends within the interpreter's
    default recursion limit of 1000 frames; beyond that limit Python raises
    [RecursionError], which the structural recursion of
    [iter_prediction_objects] does not have. *)
Definition safe_depth : nat := 500.

(** The detections an element of "outputs" contributes when its
    "predictions" is a list. *)
Definition output_predictions (out : value) : list value :=
  match out with
  | VDict od =>
      match lookup "predictions" od with
      | Some (VList l) => l
      | _ => []
      end
  | _ => []
  end.

(** [obj] is a dictionary or a list. *)
Definition is_container (obj : value) : bool :=
  match obj with
  | VDict _ | VList _ => true
  | _ => false
  end.

(** A vertex the loop of [shoelace_area_px2] cannot read: not a mapping,
    or a mapping without "x" or without "y". *)
Definition unreadable (p : value) : Prop :=
  match p with
  | VDict d => lookup "x" d = None \/ lookup "y" d = None
  | _ => True
  end.

(** A string or a list: a sequence, which [*] repeats when the other
    operand is an integer. *)
Definition is_sequence (v : value) : bool :=
  match v with
  | VStr _ | VList _ => true
  | _ => false
  end.

(** No vertex of [points] holds a sequence under "x" or "y".  (A sequence
    times a large integer exhausts the memory in Python, where [py_mul]
    has no such limit.) *)
Definition scalar_coordinates (points : list value) : Prop :=
  Forall (fun p => forall d k v,
              p = VDict d -> k = "x" \/ k = "y" -> lookup k d = Some v ->
              is_sequence v = false) points.

(** The exceptions of the arithmetic on vertices. *)
Definition vertex_exn (e : exn) : Prop :=
  e = TypeError \/ e = KeyError \/ e = OverflowError.

(** The rectangle of corner [(x, y)], width [w] and height [h]. *)
Definition rectangle (x y w h : Z) : list (Z * Z) :=
  [(x, y); (x + w, y); (x + w, y + h); (x, y + h)].

(** The vertex [p] moved by [t]. *)
Definition shift (t p : Z * Z) : Z * Z := (fst p + fst t, snd p + snd t).

(** The polygon of the detection [d] is missing, not a list, or a list of
    fewer than three entries. *)
Definition degenerate (d : list (string * value)) : Prop :=
  match lookup "points" d with
  | Some (VList l) => (List.length l < 3)%nat
  | _ => True
  end.

(** [fieldnames], the header of the CSV file. *)
Definition fieldnames : list string :=
  [ "detection_id";
    "class";
    "class_id";
    "confidence";
    "bbox_x";
    "bbox_y";
    "bbox_width";
    "bbox_height";
    "num_points";
    "area_px2";
    "mass_low_kg";
    "mass_mod_kg";
    "mass_high_kg" ].

(** The keys of a record, in order. *)
Definition keys (row : value) : list string :=
  match row with
  | VDict r => map fst r
  | _ => []
  end.

(** The keys of a detection that [prediction_to_row] reads. *)
Definition read_keys : list string :=
  [ "points"; "detection_id"; "class"; "class_id"; "confidence";
    "x"; "y"; "width"; "height" ].

(** ** pred.py: inference on the test images *)

Definition TEST_IMAGES_DIR : string := "images/Test".

(** [s.endswith(suffix)]. *)
Definition endswith (s suffix : string) : bool :=
  let n := String.length s in
  let m := String.length suffix in
  (m <=? n)%nat && String.eqb (substring (n - m) m s) suffix.

(** [f.endswith(('.jpg', '.jpeg', '.png'))]. *)
Definition is_image (f : string) : bool :=
  endswith f ".jpg" || endswith f ".jpeg" || endswith f ".png".

(** [os.path.join(TEST_IMAGES_DIR, fname)] on a POSIX system. *)
Definition img_path (fname : string) : string :=
  if String.prefix "/" fname then fname
  else TEST_IMAGES_DIR ++ "/" ++ fname.

(** [len(v)]; the length of a string is its number of bytes, which is
    Python's on ASCII strings. *)
Definition py_len (v : value) : result nat :=
  match v with
  | VList l => Ok (List.length l)
  | VStr s => Ok (String.length s)
  | VDict d => Ok (List.length d)
  | _ => Raise TypeError
  end.

(** [enumerate(l)]. *)
Definition enumerate {A : Type} (l : list A) : list (nat * A) :=
  combine (seq 0 (List.length l)) l.

(** The entry appended to [all_predictions]. *)
Definition entry (fname : string) (p : value) : value :=
  VDict [("image", VStr fname); ("predictions", p)].

Section Inference.

(** The exceptions of the inference client, and
    [model.predict(path, confidence=40).json()]: the parsed answer of the
    service, or the exception the call ended with. *)
Variable failure : Type.
Variable predict : string -> value + failure.

(** The lines the script prints: the announcement, one line per image (the
    count of its detections, or the exception caught), the closing line. *)
Inductive line : Type :=
| Running (total : nat)
| Detections (i total : nat) (fname : string) (count : nat)
| Failed (i total : nat) (fname : string) (e : failure + exn)
| Saved.

(** The body of the loop on [all_predictions] and the printed lines: the
    entry is appended before the line is printed, and [except Exception]
    catches whatever the [try] block raises. *)
Definition infer_one (total : nat) (st : list value * list line)
  (ifname : nat * string) : list value * list line :=
  let i := fst ifname in
  let fname := snd ifname in
  match predict (img_path fname) with
  | inr e => (fst st, snd st ++ [Failed (i + 1) total fname (inl e)])%list
  | inl result =>
      match subscript result "predictions" with
      | Raise e => (fst st, snd st ++ [Failed (i + 1) total fname (inr e)])%list
      | Ok p =>
          let all_predictions := (fst st ++ [entry fname p])%list in
          match py_len p with
          | Ok n =>
              (all_predictions,
               snd st ++ [Detections (i + 1) total fname n])%list
          | Raise e =>
              (all_predictions,
               snd st ++ [Failed (i + 1) total fname (inr e)])%list
          end
      end
  end.

(** The script on the listing of the directory: [all_predictions] as it is
    dumped, and the lines printed. *)
Definition run_inference (listing : list string) : list value * list line :=
  let images := filter is_image listing in
  let st := fold_left (infer_one (List.length images)) (enumerate images)
              ([], [Running (List.length images)]) in
  (fst st, snd st ++ [Saved])%list.

(** What one image contributes to [all_predictions]. *)
Definition recorded (fname : string) : list value :=
  match predict (img_path fname) with
  | inl result =>
      match subscript result "predictions" with
      | Ok p => [entry fname p]
      | Raise _ => []
      end
  | inr _ => []
  end.

(** The detections of one image, when the service answered with a list. *)
Definition detections (fname : string) : list value :=
  match predict (img_path fname) with
  | inl result =>
      match subscript result "predictions" with
      | Ok (VList l) => l
      | _ => []
      end
  | inr _ => []
  end.

(** The line printed for the image of index [i]. *)
Definition report (total : nat) (ifname : nat * string) : line :=
  let i := fst ifname in
  let fname := snd ifname in
  match predict (img_path fname) with
  | inr e => Failed (i + 1) total fname (inl e)
  | inl result =>
      match subscript result "predictions" with
      | Raise e => Failed (i + 1) total fname (inr e)
      | Ok p =>
          match py_len p with
          | Ok n => Detections (i + 1) total fname n
          | Raise e => Failed (i + 1) total fname (inr e)
          end
      end
  end.

End Inference.

Arguments Running {failure} total.
Arguments Detections {failure} i total fname count.
Arguments Failed {failure} i total fname e.
Arguments Saved {failure}.
Arguments infer_one {failure} predict total st ifname.
Arguments run_inference {failure} predict listing.
Arguments recorded {failure} predict fname.
Arguments detections {failure} predict fname.
Arguments report {failure} predict total ifname.

(** The image a printed line is about: its number, the total and its
    name. *)
Definition line_image {failure : Type} (l : line failure)
  : option (nat * nat * string) :=
  match l with
  | Detections i total fname _ | Failed i total fname _ => Some (i, total, fname)
  | Running _ | Saved => None
  end.

(** An inference service for three files: a list of one detection for
    [a.jpg], a number where the list should be for [b.png], and a failure
    for any other path. *)
Definition example_service (path : string) : value + unit :=
  if String.eqb path "images/Test/a.jpg" then inl example_document
  else if String.eqb path "images/Test/b.png"
       then inl (VDict [("predictions", VInt 0)])
       else inr tt.

(** Three detections, each the one of the end-to-end example. *)
Definition three_examples : value :=
  VDict [("predictions",
          VList [example_detection; example_detection; example_detection])].

(** [0.012], that is [0x1.89374bc6a7efap-7]: the low mass of the example. *)
Definition low_example : float := S754_finite false 0x189374bc6a7efa (-59).

(** [0.036000000000000004], that is [0x1.26e978d4fdf3cp-5]. *)
Definition low_total_of_three : float := S754_finite false 0x126e978d4fdf3c (-57).

(** Half the integer [n], as [abs(s) / 2.0] returns it. *)
Definition half (n : Z) : float := fdiv (Z2F n) F2.

(** A detection whose polygon overflows: its area is a NaN. *)
Definition overflow_fields : list (string * value) :=
  [("points", VList [ point (VFloat huge) (VFloat huge);
                      point (VFloat huge) (VFloat huge);
                      point (VFloat huge) (VFloat huge) ])].

(** * The constants are the literals of the source *)

Local Close Scope string_scope.

Example PX2_TO_KG_literal : PX2_TO_KG = decimal 12 5.
Proof. vm_compute. reflexivity. Qed.

Example multipliers_literal :
  LOW_MULT = Z2F 1 /\ MOD_MULT = decimal 15 1 /\ HIGH_MULT = Z2F 2.
Proof. vm_compute. repeat split. Qed.

(** * Binary64 rounding *)

Lemma iter_pos_nat {A : Type} (f : A -> A) (p : positive) (x : A) :
  iter_pos f p x = Nat.iter (Pos.to_nat p) f x.
Proof.
  revert x. induction p as [p IH | p IH |]; intro x; cbn [iter_pos].
  - rewrite !IH, Pos2Nat.inj_xI.
    replace (S (2 * Pos.to_nat p)) with (Pos.to_nat p + (Pos.to_nat p + 1))%nat by lia.
    rewrite !Nat.iter_add. reflexivity.
  - rewrite !IH, Pos2Nat.inj_xO.
    replace (2 * Pos.to_nat p)%nat with (Pos.to_nat p + Pos.to_nat p)%nat by lia.
    rewrite Nat.iter_add. reflexivity.
  - reflexivity.
Qed.

Lemma shr_1_nonneg (m : Z) (r s : bool) :
  0 <= m ->
  shr_1 (Build_shr_record m r s) = Build_shr_record (m / 2) (Z.odd m) (r || s).
Proof.
  intro Hm. rewrite <- Z.div2_div.
  destruct m as [| [p | p |] | p]; try reflexivity; lia.
Qed.

Lemma shr_m_iter (k : nat) (R : shr_record) :
  0 <= shr_m R ->
  shr_m (Nat.iter k shr_1 R) = shr_m R / 2 ^ Z.of_nat k.
Proof.
  intro Hm. induction k as [| k IH].
  - simpl. now rewrite Z.div_1_r.
  - change (Nat.iter (S k) shr_1 R) with (shr_1 (Nat.iter k shr_1 R)).
    destruct (Nat.iter k shr_1 R) as [m r s] eqn:E. cbn [shr_m] in IH.
    assert (0 <= m) by (rewrite IH; apply Z.div_pos; lia).
    rewrite shr_1_nonneg by assumption. cbn [shr_m].
    rewrite IH, Nat2Z.inj_succ, Z.pow_succ_r by lia.
    rewrite Z.div_div by lia. f_equal. lia.
Qed.

Lemma iter_shr_exact (k : nat) (m : Z) :
  0 <= m -> m mod 2 ^ Z.of_nat k = 0 ->
  Nat.iter k shr_1 (Build_shr_record m false false)
  = Build_shr_record (m / 2 ^ Z.of_nat k) false false.
Proof.
  intro Hm. induction k as [| k IH]; intro Hd.
  - simpl. now rewrite Z.div_1_r.
  - rewrite Nat2Z.inj_succ, Z.pow_succ_r in Hd by lia.
    assert (Hk : 0 < 2 ^ Z.of_nat k) by (apply Z.pow_pos_nonneg; lia).
    assert (Hd' : m mod 2 ^ Z.of_nat k = 0).
    { apply Z.mod_divide in Hd; [| lia]. apply Z.mod_divide; [lia |].
      destruct Hd as [c Hc]. exists (c * 2). lia. }
    change (Nat.iter (S k) shr_1 ?x) with (shr_1 (Nat.iter k shr_1 x)).
    rewrite (IH Hd').
    rewrite shr_1_nonneg by (apply Z.div_pos; lia).
    rewrite Nat2Z.inj_succ, Z.pow_succ_r by lia.
    rewrite Z.div_div by lia.
    replace (2 ^ Z.of_nat k * 2) with (2 * 2 ^ Z.of_nat k) by lia.
    f_equal.
    apply Z.mod_divide in Hd; [| lia]. destruct Hd as [c Hc].
    subst m. replace (c * (2 * 2 ^ Z.of_nat k)) with ((c * 2) * 2 ^ Z.of_nat k) by lia.
    rewrite Z.div_mul by lia. rewrite Z.mul_comm. apply Z.odd_even.
Qed.

Lemma rne_cases (q : Z) (l : location) :
  round_nearest_even q l = q \/ round_nearest_even q l = q + 1.
Proof.
  destruct l as [| [ | | ]]; simpl; auto. destruct (Z.even q); auto.
Qed.

Lemma digits2_bounds (p : positive) :
  2 ^ (Zpos (digits2_pos p) - 1) <= Zpos p < 2 ^ Zpos (digits2_pos p).
Proof.
  induction p as [p IH | p IH |]; cbn [digits2_pos].
  - rewrite Pos2Z.inj_succ.
    replace (Z.succ (Zpos (digits2_pos p)) - 1) with (Z.succ (Zpos (digits2_pos p) - 1)) by lia.
    rewrite !Z.pow_succ_r by lia. lia.
  - rewrite Pos2Z.inj_succ.
    replace (Z.succ (Zpos (digits2_pos p)) - 1) with (Z.succ (Zpos (digits2_pos p) - 1)) by lia.
    rewrite !Z.pow_succ_r by lia. lia.
  - simpl. lia.
Qed.

Lemma digits2_unique (p : positive) (k : Z) :
  2 ^ (k - 1) <= Zpos p < 2 ^ k -> Zpos (digits2_pos p) = k.
Proof.
  intros [Hlo Hhi]. pose proof (digits2_bounds p) as [Blo Bhi].
  set (d := Zpos (digits2_pos p)) in *.
  assert (0 < d) by (subst d; lia).
  assert (0 < k).
  { destruct (Z.le_gt_cases k 0) as [Hk |]; [| assumption].
    destruct (Z.eq_dec k 0) as [-> | ]; [simpl in Hhi; lia |].
    rewrite Z.pow_neg_r in Hhi by lia. lia. }
  destruct (Z.lt_trichotomy d k) as [Hlt | [Heq | Hgt]]; [| assumption |].
  - assert (2 ^ d <= 2 ^ (k - 1)) by (apply Z.pow_le_mono_r; lia). lia.
  - assert (2 ^ k <= 2 ^ (d - 1)) by (apply Z.pow_le_mono_r; lia). lia.
Qed.

Lemma Zdigits2_pos_val (m : Z) : 0 < m -> 2 ^ (Zdigits2 m - 1) <= m < 2 ^ Zdigits2 m.
Proof. destruct m; try lia. intros _. apply digits2_bounds. Qed.

Lemma Zdigits2_unique (m k : Z) : 2 ^ (k - 1) <= m < 2 ^ k -> 0 < m -> Zdigits2 m = k.
Proof. destruct m; try lia. intros H _. now apply digits2_unique. Qed.

Lemma Zdigits2_mul_pow (m k : Z) : 0 < m -> 0 <= k -> Zdigits2 (m * 2 ^ k) = Zdigits2 m + k.
Proof.
  intros Hm Hk. pose proof (Zdigits2_pos_val m Hm) as [Lo Hi].
  assert (0 < 2 ^ k) by (apply Z.pow_pos_nonneg; lia).
  assert (0 < Zdigits2 m) by (destruct m; simpl; lia).
  apply Zdigits2_unique; [| nia].
  replace (Zdigits2 m + k - 1) with ((Zdigits2 m - 1) + k) by lia.
  rewrite !Z.pow_add_r by lia. nia.
Qed.

Lemma Zdigits2_div_pow (m k : Z) :
  0 < m -> 0 <= k -> 2 ^ k <= m -> Zdigits2 (m / 2 ^ k) = Zdigits2 m - k.
Proof.
  intros Hm Hk Hle. pose proof (Zdigits2_pos_val m Hm) as [Lo Hi].
  assert (P : 0 < 2 ^ k) by (apply Z.pow_pos_nonneg; lia).
  assert (D : 0 < Zdigits2 m) by (destruct m; simpl; lia).
  assert (K : k < Zdigits2 m).
  { destruct (Z.lt_ge_cases k (Zdigits2 m)); [assumption |].
    assert (2 ^ Zdigits2 m <= 2 ^ k) by (apply Z.pow_le_mono_r; lia). lia. }
  assert (Q : 0 < m / 2 ^ k) by (apply Z.div_str_pos; lia).
  apply Zdigits2_unique; [| assumption]. split.
  - apply Z.div_le_lower_bound; [lia |].
    rewrite <- Z.pow_add_r by lia. now replace (k + (Zdigits2 m - k - 1)) with (Zdigits2 m - 1) by lia.
  - apply Z.div_lt_upper_bound; [lia |].
    rewrite <- Z.pow_add_r by lia. now replace (k + (Zdigits2 m - k)) with (Zdigits2 m) by lia.
Qed.


Lemma fexp_64 (x : Z) : fexp prec emax x = fexp64 x.
Proof. reflexivity. Qed.

Lemma shr_pos (R : shr_record) (e n : Z) :
  0 < n -> shr R e n = (Nat.iter (Z.to_nat n) shr_1 R, e + n).
Proof.
  destruct n as [| p | p]; try lia. intros _. unfold shr.
  now rewrite iter_pos_nat, Z2Nat.inj_pos.
Qed.

Lemma shr_nonpos (R : shr_record) (e n : Z) : n <= 0 -> shr R e n = (R, e).
Proof. destruct n; try lia; reflexivity. Qed.

Lemma shr_m_shr (R : shr_record) (e n : Z) :
  0 <= shr_m R -> 0 <= shr_m (fst (shr R e n)).
Proof.
  intro H. destruct (Z.lt_ge_cases 0 n).
  - rewrite shr_pos by assumption. cbn [fst]. rewrite shr_m_iter by assumption.
    apply Z.div_pos; [assumption |]. apply Z.pow_pos_nonneg; lia.
  - now rewrite shr_nonpos by lia.
Qed.

Lemma bra_unfold (s : bool) (m e : Z) (l : location) :
  binary_round_aux prec emax s m e l
  = finish s (round_nearest_even (shr_m (fst (shr_fexp prec emax m e l)))
                (loc_of_shr_record (fst (shr_fexp prec emax m e l))))
      (snd (shr_fexp prec emax m e l)).
Proof.
  unfold binary_round_aux, finish.
  destruct (shr_fexp prec emax m e l) as [mrs' e']. reflexivity.
Qed.

Lemma shr_record_of_loc_m (m : Z) (l : location) : shr_m (shr_record_of_loc m l) = m.
Proof. destruct l as [| [ | | ]]; reflexivity. Qed.

Lemma rne_nonneg (q : Z) (l : location) : 0 <= q -> 0 <= round_nearest_even q l.
Proof. intro H. destruct (rne_cases q l) as [-> | ->]; lia. Qed.

(** [binary_round_aux] on a mantissa that is not negative keeps the sign
    it is given and never makes a NaN. *)
Lemma finish_sign (s : bool) (r E : Z) :
  0 <= r ->
  match finish s r E with
  | S754_nan => False
  | S754_zero s' | S754_infinity s' | S754_finite s' _ _ => s' = s
  end.
Proof.
  intro Hr. unfold finish, shr_fexp.
  pose proof (shr_m_shr (shr_record_of_loc r loc_Exact) E
                (fexp prec emax (Zdigits2 r + E) - E)) as H.
  cbn [shr_record_of_loc shr_m] in H. specialize (H Hr).
  destruct (shr _ E _) as [mrs e'']. cbn [fst] in H.
  destruct (shr_m mrs); try lia; try reflexivity.
  destruct (e'' <=? emax - prec); reflexivity.
Qed.

Lemma bra_sign (s : bool) (m e : Z) (l : location) :
  0 <= m ->
  match binary_round_aux prec emax s m e l with
  | S754_nan => False
  | S754_zero s' | S754_infinity s' | S754_finite s' _ _ => s' = s
  end.
Proof.
  intro Hm. rewrite bra_unfold. apply finish_sign. apply rne_nonneg.
  unfold shr_fexp. apply shr_m_shr. now rewrite shr_record_of_loc_m.
Qed.


Lemma finish_keep (s : bool) (r E : Z) :
  0 < r -> fexp64 (Zdigits2 r + E) <= E ->
  finish s r E
  = if E <=? 971 then S754_finite s (Z.to_pos r) E else S754_infinity s.
Proof.
  intros Hr Hf. unfold finish, shr_fexp. rewrite fexp_64.
  rewrite shr_nonpos by lia. cbn [shr_record_of_loc shr_m].
  destruct r; try lia. reflexivity.
Qed.

Lemma finish_carry (s : bool) (k E : Z) :
  1 <= k -> fexp64 (k + 1 + E) = E + 1 ->
  finish s (2 ^ k) E
  = if E + 1 <=? 971 then S754_finite s (Z.to_pos (2 ^ (k - 1))) (E + 1)
    else S754_infinity s.
Proof.
  intros Hk Hf. unfold finish, shr_fexp. rewrite fexp_64.
  assert (P : 0 < 2 ^ k) by (apply Z.pow_pos_nonneg; lia).
  assert (D : Zdigits2 (2 ^ k) = k + 1).
  { apply Zdigits2_unique; [| assumption].
    replace (k + 1 - 1) with k by lia. split; [lia |].
    apply Z.pow_lt_mono_r; lia. }
  rewrite D, Hf. replace (E + 1 - E) with 1 by lia.
  rewrite shr_pos by lia. cbn [shr_record_of_loc].
  change (Z.to_nat 1) with 1%nat.
  change (Nat.iter 1 shr_1 ?x) with (shr_1 x).
  rewrite shr_1_nonneg by lia. cbn [shr_m].
  replace (2 ^ k / 2) with (2 ^ (k - 1)).
  2:{ replace k with (Z.succ (k - 1)) at 2 by lia. rewrite Z.pow_succ_r by lia.
      rewrite Z.mul_comm, Z.div_mul; lia. }
  assert (0 < 2 ^ (k - 1)) by (apply Z.pow_pos_nonneg; lia).
  destruct (2 ^ (k - 1)); try lia. reflexivity.
Qed.

Lemma Zdigits2_to_pos (r : Z) : 0 < r -> Zpos (digits2_pos (Z.to_pos r)) = Zdigits2 r.
Proof. destruct r; try lia. reflexivity. Qed.

Lemma finish_zero (s : bool) (E : Z) : finish s 0 E = S754_zero s.
Proof.
  unfold finish, shr_fexp. cbn [shr_record_of_loc].
  set (n := fexp prec emax (Zdigits2 0 + E) - E).
  destruct (Z.lt_ge_cases 0 n).
  - rewrite shr_pos by assumption.
    pose proof (shr_m_iter (Z.to_nat n) (Build_shr_record 0 false false)) as H0.
    cbn [shr_m] in H0. rewrite Z.div_0_l in H0.
    + rewrite H0 by lia. reflexivity.
    + apply Z.pow_nonzero; lia.
  - rewrite shr_nonpos by lia. reflexivity.
Qed.

Lemma finish_rounds (s : bool) (r E : Z) :
  r = 0
  \/ (0 < r /\ fexp64 (Zdigits2 r + E) = E)
  \/ (exists k, 1 <= k /\ r = 2 ^ k /\ fexp64 (k + 1 + E) = E + 1) ->
  rounds s r E (finish s r E).
Proof.
  intros [-> | [[Hr Hf] | [k [Hk [-> Hf]]]]].
  - rewrite finish_zero. now constructor.
  - rewrite finish_keep by lia.
    destruct (Z.leb_spec E 971).
    + apply rounds_finite; try lia.
      * unfold canonical. now rewrite Zdigits2_to_pos.
      * rewrite Z.sub_diag, Z2Pos.id; lia.
    + apply (rounds_inf s r E (Z.to_pos r) E); try lia.
      * unfold canonical. now rewrite Zdigits2_to_pos.
      * rewrite Z.sub_diag, Z2Pos.id; lia.
  - rewrite finish_carry by assumption.
    assert (P : 0 < 2 ^ (k - 1)) by (apply Z.pow_pos_nonneg; lia).
    assert (D : Zdigits2 (2 ^ (k - 1)) = k).
    { apply Zdigits2_unique; [| assumption]. split; [lia |].
      apply Z.pow_lt_mono_r; lia. }
    assert (C : canonical (Z.to_pos (2 ^ (k - 1))) (E + 1)).
    { unfold canonical. rewrite Zdigits2_to_pos, D by assumption.
      now replace (k + (E + 1)) with (k + 1 + E) by lia. }
    assert (V : Zpos (Z.to_pos (2 ^ (k - 1))) * 2 ^ (E + 1 - E) = 2 ^ k).
    { rewrite Z2Pos.id by assumption. replace (E + 1 - E) with 1 by lia.
      replace k with (Z.succ (k - 1)) at 2 by lia. rewrite Z.pow_succ_r; lia. }
    destruct (Z.leb_spec (E + 1) 971).
    + apply rounds_finite; try lia; assumption.
    + apply (rounds_inf s _ E (Z.to_pos (2 ^ (k - 1))) (E + 1)); try lia; assumption.
Qed.

(** Rounding a positive mantissa [m] at exponent [e], when [m] has at
    least the digits its exponent asks for. *)
Theorem bra_rounds (s : bool) (m e : Z) :
  0 < m ->
  let E := fexp64 (Zdigits2 m + e) in
  e <= E ->
  exists r,
    (r = m / 2 ^ (E - e) \/ r = m / 2 ^ (E - e) + 1)
    /\ (m mod 2 ^ (E - e) = 0 -> r = m / 2 ^ (E - e))
    /\ rounds s r E (binary_round_aux prec emax s m e loc_Exact).
Proof.
  intros Hm E HE. rewrite bra_unfold. unfold shr_fexp. rewrite fexp_64.
  fold E. cbn [shr_record_of_loc].
  destruct (Z.eq_dec E e) as [Heq | Hne].
  - (* no shift *)
    rewrite Heq, Z.sub_diag. rewrite shr_nonpos by lia.
    cbn [fst snd shr_m loc_of_shr_record round_nearest_even].
    change (2 ^ 0) with 1. rewrite Z.div_1_r.
    exists m. repeat split; auto.
    apply finish_rounds. right; left. split; [assumption | exact Heq].
  - assert (Hn : 0 < E - e) by lia.
    rewrite shr_pos by assumption. cbn [fst snd].
    replace (e + (E - e)) with E by lia.
    set (n := E - e) in *.
    set (R := Nat.iter (Z.to_nat n) shr_1 (Build_shr_record m false false)).
    assert (HR : shr_m R = m / 2 ^ n).
    { subst R. rewrite shr_m_iter by (cbn; lia). cbn [shr_m].
      now rewrite Z2Nat.id by lia. }
    assert (P : 0 < 2 ^ n) by (apply Z.pow_pos_nonneg; lia).
    set (q := m / 2 ^ n) in *.
    assert (Hq : 0 <= q) by (apply Z.div_pos; lia).
    exists (round_nearest_even (shr_m R) (loc_of_shr_record R)).
    assert (Hex : m mod 2 ^ n = 0 ->
                  round_nearest_even (shr_m R) (loc_of_shr_record R) = q).
    { intro Hmod. subst R. rewrite iter_shr_exact.
      - cbn. now rewrite Z2Nat.id by lia.
      - lia.
      - now rewrite Z2Nat.id by lia. }
    rewrite HR in *.
    split; [apply rne_cases |]. split; [exact Hex |].
    apply finish_rounds.
    pose proof (Zdigits2_pos_val m Hm) as [Dlo Dhi].
    set (d := Zdigits2 m) in *.
    assert (Hd : 0 < d) by (subst d; destruct m; simpl; lia).
    destruct (Z.lt_ge_cases m (2 ^ n)) as [Hsmall | Hbig].
    + (* everything is shifted out *)
      assert (q = 0) by (subst q; apply Z.div_small; lia).
      assert (d <= n).
      { destruct (Z.le_gt_cases d n); [assumption |].
        assert (2 ^ n <= 2 ^ (d - 1)) by (apply Z.pow_le_mono_r; lia). lia. }
      assert (E = -1074) by (subst E; unfold fexp64 in *; lia).
      destruct (rne_cases q (loc_of_shr_record R)) as [-> | ->].
      * left. assumption.
      * right; left. replace (q + 1) with 1 by lia. split; [lia |].
        unfold fexp64. simpl Zdigits2. lia.
    + assert (Dq : Zdigits2 q = d - n) by (subst q d; apply Zdigits2_div_pow; lia).
      assert (Q : 0 < q) by (subst q; apply Z.div_str_pos; lia).
      assert (X : fexp64 (d - n + E) = E).
      { replace (d - n + E) with (d + e) by lia. reflexivity. }
      destruct (rne_cases q (loc_of_shr_record R)) as [-> | ->].
      * right; left. split; [assumption |]. now rewrite Dq.
      * pose proof (Zdigits2_pos_val q Q) as [Qlo Qhi]. rewrite Dq in Qlo, Qhi.
        destruct (Z.eq_dec (q + 1) (2 ^ (d - n))) as [Hc | Hnc].
        -- assert (1 <= d - n).
           { destruct (Z.le_gt_cases 1 (d - n)); [assumption |].
             assert (2 ^ (d - n) <= 2 ^ 0) by (destruct (Z.lt_ge_cases (d - n) 0);
               [rewrite Z.pow_neg_r by assumption; simpl; lia
               | apply Z.pow_le_mono_r; lia]).
             simpl in *. lia. }
           destruct (Z.eq_dec (fexp64 (d - n + 1 + E)) E) as [Hs | Hs].
           ++ right; left. split; [lia |].
              replace (Zdigits2 (q + 1)) with (d - n + 1); [assumption |].
              symmetry. apply Zdigits2_unique; [| lia].
              replace (d - n + 1 - 1) with (d - n) by lia. rewrite Hc.
              split; [lia |]. apply Z.pow_lt_mono_r; lia.
           ++ right; right. exists (d - n). repeat split; try assumption.
              unfold fexp64 in *. lia.
        -- right; left. split; [lia |].
           replace (Zdigits2 (q + 1)) with (d - n); [assumption |].
           symmetry. apply Zdigits2_unique; lia.
Qed.

Lemma canonical_inv (m : positive) (e : Z) :
  canonical m e ->
  -1074 <= e /\ Zpos m < 2 ^ 53 /\ (-1074 < e -> 2 ^ 52 <= Zpos m).
Proof.
  unfold canonical, fexp64. intro C.
  pose proof (digits2_bounds m) as [Lo Hi].
  set (d := Zpos (digits2_pos m)) in *.
  split; [lia |]. split.
  - assert (2 ^ d <= 2 ^ 53) by (apply Z.pow_le_mono_r; lia). lia.
  - intro H. assert (d = 53) by lia. replace (d - 1) with 52 in Lo by lia. exact Lo.
Qed.

Lemma val_canonical_lt (m1 m2 : positive) (e1 e2 : Z) :
  canonical m1 e1 -> canonical m2 e2 -> e1 < e2 -> val m1 e1 < val m2 e2.
Proof.
  intros C1 C2 H. apply canonical_inv in C1, C2.
  destruct C1 as [L1 [U1 _]], C2 as [L2 [_ N2]]. specialize (N2 ltac:(lia)).
  unfold val.
  assert (P1 : 0 < 2 ^ (e1 + 1074)) by (apply Z.pow_pos_nonneg; lia).
  assert (P2 : 0 < 2 ^ (e2 + 1074)) by (apply Z.pow_pos_nonneg; lia).
  assert (S : 2 * 2 ^ (e1 + 1074) <= 2 ^ (e2 + 1074)).
  { rewrite <- Z.pow_succ_r by lia. apply Z.pow_le_mono_r; lia. }
  change (2 ^ 53) with (2 * 2 ^ 52) in U1.
  assert (0 < 2 ^ 52) by reflexivity.
  nia.
Qed.

Lemma val_canonical_inj (m1 m2 : positive) (e1 e2 : Z) :
  canonical m1 e1 -> canonical m2 e2 -> val m1 e1 = val m2 e2 ->
  m1 = m2 /\ e1 = e2.
Proof.
  intros C1 C2 V.
  destruct (Z.lt_trichotomy e1 e2) as [H | [H | H]].
  - pose proof (val_canonical_lt _ _ _ _ C1 C2 H). lia.
  - subst e2. split; [| reflexivity]. unfold val in V.
    apply canonical_inv in C1.
    assert (0 < 2 ^ (e1 + 1074)) by (apply Z.pow_pos_nonneg; lia).
    apply Z.mul_cancel_r in V; [| lia]. now injection V.
  - pose proof (val_canonical_lt _ _ _ _ C2 C1 H). lia.
Qed.

Lemma compare_canonical (m1 m2 : positive) (e1 e2 : Z) :
  canonical m1 e1 -> canonical m2 e2 ->
  SFcompare (S754_finite false m1 e1) (S754_finite false m2 e2)
  = Some (val m1 e1 ?= val m2 e2).
Proof.
  intros C1 C2. cbn [SFcompare]. f_equal.
  destruct (Z.compare_spec e1 e2) as [H | H | H].
  - subst e2. unfold val. apply canonical_inv in C1.
    rewrite <- Zmult_compare_compat_r
      by (apply Z.lt_gt, Z.pow_pos_nonneg; lia).
    reflexivity.
  - symmetry. apply Z.compare_lt_iff. now apply val_canonical_lt.
  - symmetry. apply Z.compare_gt_iff. now apply val_canonical_lt.
Qed.

Lemma rounds_value (s : bool) (r E : Z) (m : positive) (e : Z) :
  -1074 <= E -> E <= e -> Zpos m * 2 ^ (e - E) = r -> val m e = rval r E.
Proof.
  intros HE He <-. unfold val, rval.
  rewrite <- Z.mul_assoc, <- Z.pow_add_r by lia.
  do 2 f_equal. lia.
Qed.

Lemma rounds_inj (s : bool) (r1 E1 r2 E2 : Z) (f1 f2 : float) :
  -1074 <= E1 -> -1074 <= E2 ->
  rounds s r1 E1 f1 -> rounds s r2 E2 f2 ->
  rval r1 E1 = rval r2 E2 -> f1 = f2.
Proof.
  intros H1 H2 R1 R2 V.
  assert (P1 : 0 < 2 ^ (E1 + 1074)) by (apply Z.pow_pos_nonneg; lia).
  assert (P2 : 0 < 2 ^ (E2 + 1074)) by (apply Z.pow_pos_nonneg; lia).
  destruct R1 as [Z1 | m1 e1 C1 L1 B1 V1 | m1 e1 C1 L1 B1 V1];
    destruct R2 as [Z2 | m2 e2 C2 L2 B2 V2 | m2 e2 C2 L2 B2 V2];
    try reflexivity;
    try (exfalso;
         try (pose proof (rounds_value s _ _ _ _ H1 L1 V1) as W1);
         try (pose proof (rounds_value s _ _ _ _ H2 L2 V2) as W2);
         unfold val, rval in *; subst; nia).
  - pose proof (rounds_value s _ _ _ _ H1 L1 V1) as W1.
    pose proof (rounds_value s _ _ _ _ H2 L2 V2) as W2.
    destruct (val_canonical_inj m1 m2 e1 e2 C1 C2) as [-> ->]; [congruence | reflexivity].
  - exfalso.
    pose proof (rounds_value s _ _ _ _ H1 L1 V1) as W1.
    pose proof (rounds_value s _ _ _ _ H2 L2 V2) as W2.
    destruct (val_canonical_inj m1 m2 e1 e2 C1 C2) as [-> ->]; [congruence | lia].
  - exfalso.
    pose proof (rounds_value s _ _ _ _ H1 L1 V1) as W1.
    pose proof (rounds_value s _ _ _ _ H2 L2 V2) as W2.
    destruct (val_canonical_inj m1 m2 e1 e2 C1 C2) as [-> ->]; [congruence | lia].
Qed.

Lemma rounds_self (s : bool) (m : positive) (e : Z) :
  canonical m e -> e <= 971 -> rounds s (Zpos m) e (S754_finite s m e).
Proof.
  intros C B. apply rounds_finite; try assumption; try lia.
  rewrite Z.sub_diag. change (2 ^ 0) with 1. lia.
Qed.

Lemma rounds_le (r1 E1 r2 E2 : Z) (f1 f2 : float) :
  -1074 <= E1 -> -1074 <= E2 ->
  rounds false r1 E1 f1 -> rounds false r2 E2 f2 ->
  rval r1 E1 <= rval r2 E2 -> SFleb f1 f2 = true.
Proof.
  intros H1 H2 R1 R2 V.
  assert (P1 : 0 < 2 ^ (E1 + 1074)) by (apply Z.pow_pos_nonneg; lia).
  assert (P2 : 0 < 2 ^ (E2 + 1074)) by (apply Z.pow_pos_nonneg; lia).
  destruct R1 as [Z1 | m1 e1 C1 L1 B1 V1 | m1 e1 C1 L1 B1 V1];
    destruct R2 as [Z2 | m2 e2 C2 L2 B2 V2 | m2 e2 C2 L2 B2 V2];
    try reflexivity;
    try (pose proof (rounds_value false _ _ _ _ H1 L1 V1) as W1);
    try (pose proof (rounds_value false _ _ _ _ H2 L2 V2) as W2).
  - exfalso. subst r2. unfold val, rval in *. nia.
  - unfold SFleb. rewrite compare_canonical by assumption.
    destruct (Z.compare_spec (val m1 e1) (val m2 e2)); try reflexivity. lia.
  - exfalso. subst r2. unfold val, rval in *. nia.
  - exfalso. pose proof (val_canonical_lt m2 m1 e2 e1 C2 C1 ltac:(lia)). lia.
Qed.

Lemma rounds_lt (r1 E1 r2 E2 : Z) (f1 f2 : float) :
  -1074 <= E1 -> -1074 <= E2 ->
  rounds false r1 E1 f1 -> rounds false r2 E2 f2 ->
  rval r1 E1 < rval r2 E2 -> f2 <> S754_infinity false -> SFltb f1 f2 = true.
Proof.
  intros H1 H2 R1 R2 V NI.
  assert (P1 : 0 < 2 ^ (E1 + 1074)) by (apply Z.pow_pos_nonneg; lia).
  assert (P2 : 0 < 2 ^ (E2 + 1074)) by (apply Z.pow_pos_nonneg; lia).
  destruct R1 as [Z1 | m1 e1 C1 L1 B1 V1 | m1 e1 C1 L1 B1 V1];
    destruct R2 as [Z2 | m2 e2 C2 L2 B2 V2 | m2 e2 C2 L2 B2 V2];
    try reflexivity; try congruence;
    try (pose proof (rounds_value false _ _ _ _ H1 L1 V1) as W1);
    try (pose proof (rounds_value false _ _ _ _ H2 L2 V2) as W2).
  - exfalso. subst. unfold rval in *. lia.
  - exfalso. subst r2. unfold val, rval in *. nia.
  - unfold SFltb. rewrite compare_canonical by assumption.
    destruct (Z.compare_spec (val m1 e1) (val m2 e2)); try reflexivity; lia.
  - exfalso. subst r2. unfold val, rval in *. nia.
  - exfalso. pose proof (val_canonical_lt m2 m1 e2 e1 C2 C1 ltac:(lia)). lia.
Qed.

(** ** Products with a constant in [[1, 4)] *)

Lemma Zdigits2_mul_range (a b : Z) :
  0 < a -> 2 ^ 52 <= b < 2 ^ 53 ->
  Zdigits2 (a * b) = Zdigits2 a + 52 \/ Zdigits2 (a * b) = Zdigits2 a + 53.
Proof.
  intros Ha [Lo Hi]. pose proof (Zdigits2_pos_val a Ha) as [La Ua].
  set (d := Zdigits2 a) in *.
  assert (D : 0 < d) by (subst d; destruct a; simpl; lia).
  assert (L : 2 ^ (d + 51) <= a * b).
  { replace (d + 51) with ((d - 1) + 52) by lia. rewrite Z.pow_add_r by lia.
    assert (0 < 2 ^ (d - 1)) by (apply Z.pow_pos_nonneg; lia).
    assert (0 < 2 ^ 52) by reflexivity. nia. }
  assert (U : a * b < 2 ^ (d + 53)).
  { rewrite Z.pow_add_r by lia.
    assert (0 < 2 ^ d) by (apply Z.pow_pos_nonneg; lia). nia. }
  destruct (Z.lt_ge_cases (a * b) (2 ^ (d + 52))).
  - left. apply Zdigits2_unique; [| nia].
    replace (d + 52 - 1) with (d + 51) by lia. lia.
  - right. apply Zdigits2_unique; [| nia].
    replace (d + 53 - 1) with (d + 52) by lia. lia.
Qed.

Lemma fmul_rounds (b mc : positive) (e ec : Z) :
  2 ^ 52 <= Zpos mc < 2 ^ 53 ->
  let E := fexp64 (Zdigits2 (Zpos b * Zpos mc) + (e + ec)) in
  let q := (Zpos b * Zpos mc) / 2 ^ (E - (e + ec)) in
  e + ec <= E /\
  exists r,
    (r = q \/ r = q + 1)
    /\ ((Zpos b * Zpos mc) mod 2 ^ (E - (e + ec)) = 0 -> r = q)
    /\ rounds false r E
         (SFmul prec emax (S754_finite false b e) (S754_finite false mc ec)).
Proof.
  intros Hc E q.
  assert (HE : e + ec <= E).
  { destruct (Zdigits2_mul_range (Zpos b) (Zpos mc) ltac:(lia) Hc) as [D | D];
      subst E; rewrite D; unfold fexp64;
      assert (0 < Zdigits2 (Zpos b)) by (simpl; lia); lia. }
  split; [exact HE |].
  cbn [SFmul xorb]. rewrite <- Pos2Z.inj_mul in *.
  apply (bra_rounds false (Zpos (b * mc)) (e + ec)); [lia | exact HE].
Qed.

Section Multipliers.
Variables (b : positive) (e : Z).
Hypothesis Hcan : canonical b e.

Lemma canonical_exp : -1074 <= e.
Proof. apply canonical_inv in Hcan. lia. Qed.

Lemma low_rounds :
  exists r E, -1074 <= E /\ rounds false r E (fmul (S754_finite false b e) LOW_MULT)
              /\ rval r E = rval (Zpos b) e.
Proof.
  destruct (fmul_rounds b 0x10000000000000 e (-52) ltac:(split; [reflexivity | reflexivity]))
    as [HE [r [_ [Hex R]]]].
  change (S754_finite false _ (-52)) with LOW_MULT in R.
  fold fmul in R.
  change (Zpos 0x10000000000000) with (2 ^ 52) in *.
  rewrite Zdigits2_mul_pow in * by lia.
  unfold canonical in Hcan. change (Zdigits2 (Zpos b)) with (Zpos (digits2_pos b)) in *.
  set (d := Zpos (digits2_pos b)) in *.
  assert (E0 : fexp64 (d + 52 + (e + -52)) = e).
  { replace (d + 52 + (e + -52)) with (d + e) by lia. exact Hcan. }
  rewrite E0 in *. replace (e - (e + -52)) with 52 in * by lia.
  rewrite Z.mod_mul, Z.div_mul in Hex by (pow_numerals; lia).
  exists r, e. split; [unfold fexp64 in Hcan; lia |]. split; [exact R |].
  now rewrite Hex.
Qed.

Lemma high_rounds :
  exists r E, -1074 <= E /\ rounds false r E (fmul (S754_finite false b e) HIGH_MULT)
              /\ rval r E = 2 * rval (Zpos b) e.
Proof.
  destruct (fmul_rounds b 0x10000000000000 e (-51) ltac:(split; [reflexivity | reflexivity]))
    as [HE [r [_ [Hex R]]]].
  change (S754_finite false _ (-51)) with HIGH_MULT in R.
  fold fmul in R.
  change (Zpos 0x10000000000000) with (2 ^ 52) in *.
  rewrite Zdigits2_mul_pow in * by lia.
  pose proof canonical_exp as Hexp.
  unfold canonical in Hcan. change (Zdigits2 (Zpos b)) with (Zpos (digits2_pos b)) in *.
  set (d := Zpos (digits2_pos b)) in *.
  set (E := fexp64 (d + 52 + (e + -51))) in *.
  assert (P : 0 < 2 ^ (e + 1074)) by (apply Z.pow_pos_nonneg; lia).
  exists r, E. split; [subst E; unfold fexp64; lia |]. split; [exact R |].
  assert (EE : E = e \/ E = e + 1) by (subst E; unfold fexp64 in *; lia).
  unfold rval. destruct EE as [EE | EE]; rewrite EE in *.
  - replace (e - (e + -51)) with 51 in Hex by lia.
    change (2 ^ 52) with (2 * 2 ^ 51) in Hex.
    rewrite Z.mul_assoc, Z.mod_mul, Z.div_mul in Hex by (pow_numerals; lia).
    rewrite Hex by reflexivity. lia.
  - replace (e + 1 - (e + -51)) with 52 in Hex by lia.
    rewrite Z.mod_mul, Z.div_mul in Hex by (pow_numerals; lia).
    rewrite Hex by reflexivity.
    replace (e + 1 + 1074) with (Z.succ (e + 1074)) by lia.
    rewrite Z.pow_succ_r by lia. lia.
Qed.

Lemma mod_rounds :
  exists r E, -1074 <= E
              /\ rounds false r E (fmul (S754_finite false b e) MOD_MULT)
              /\ rval (Zpos b) e <= rval r E <= 2 * rval (Zpos b) e
              /\ (Zpos b <> 1 ->
                  rval (Zpos b) e < rval r E < 2 * rval (Zpos b) e).
Proof.
  destruct (fmul_rounds b 0x18000000000000 e (-52) ltac:(split; [discriminate | reflexivity]))
    as [HE [r [Hr [Hex R]]]].
  change (S754_finite false _ (-52)) with MOD_MULT in R.
  fold fmul in R.
  pose proof canonical_exp as Hexp.
  assert (P : 0 < 2 ^ (e + 1074)) by (apply Z.pow_pos_nonneg; lia).
  pose proof (canonical_inv b e Hcan) as [_ [Ub Nb]].
  destruct (Zdigits2_mul_range (Zpos b) (Zpos 0x18000000000000) ltac:(lia)
              ltac:(split; [discriminate | reflexivity])) as [D | D];
    rewrite D in *; clear D;
    change (Zdigits2 (Zpos b)) with (Zpos (digits2_pos b)) in *;
    set (d := Zpos (digits2_pos b)) in *;
    match type of R with rounds _ _ ?EE _ => set (E := EE) in * end;
    unfold canonical in Hcan; fold d in Hcan;
    (assert (EE : E = e \/ (E = e + 1 /\ -1074 < e + 1 /\ d = 53))
      by (subst E; unfold fexp64 in *; lia));
    (exists r, E; split; [subst E; unfold fexp64; lia |]; split; [exact R |]);
    unfold rval;
    destruct EE as [EE | [EE [EN ED]]]; rewrite EE in *.
  all: try (replace (e - (e + -52)) with 52 in * by lia).
  all: try (replace (e + 1 - (e + -52)) with 53 in * by lia).
  all: try (replace (e + 1 + 1074) with (Z.succ (e + 1074)) by lia;
            rewrite Z.pow_succ_r by lia).
  all: try (specialize (Nb ltac:(lia))).
  all: pow_numerals.
  all: set (B := Zpos b) in *; assert (0 < B) by (subst B; lia);
       set (T := 2 ^ (e + 1074)) in *.
  all: assert (Par : B mod 2 = 0 \/ B mod 2 = 1)
         by (pose proof (Z.mod_pos_bound B 2 eq_refl); clearbody B; clear -H0; lia).
  all: split; [| intro Hb1].
  all: assert (PT : 0 < T) by exact P.
  all: try (exfalso; subst E; unfold fexp64 in *; lia).
  all: try (change (Zpos b) with B in Hb1).
  all: assert (Db : d = 53 -> 4503599627370496 <= B)
         by (intro Hd; pose proof (digits2_bounds b) as [Lb _];
             fold d in Lb; rewrite Hd in Lb; exact Lb).
  all: clearbody T B; clear R P HE.
  all: match goal with
       | |- _ <= ?u * (2 * _) <= _ =>
           assert (B <= 2 * u <= 2 * B) by (Z.div_mod_to_equations; lia)
       | |- _ < ?u * (2 * _) < _ =>
           assert (B < 2 * u < 2 * B) by (Z.div_mod_to_equations; lia)
       | |- _ <= ?u * _ <= _ =>
           assert (B <= u <= 2 * B) by (Z.div_mod_to_equations; lia)
       | |- _ < ?u * _ < _ =>
           assert (B < u < 2 * B) by (Z.div_mod_to_equations; lia)
       end.
  all: nia.
Qed.
End Multipliers.

Theorem multipliers_order (b : positive) (e : Z) :
  canonical b e -> e <= 971 ->
  let x := S754_finite false b e in
  fmul x LOW_MULT = x
  /\ SFleb x (fmul x MOD_MULT) = true
  /\ SFleb (fmul x MOD_MULT) (fmul x HIGH_MULT) = true
  /\ (Zpos b <> 1 -> fmul x HIGH_MULT <> S754_infinity false ->
      SFltb x (fmul x MOD_MULT) = true
      /\ SFltb (fmul x MOD_MULT) (fmul x HIGH_MULT) = true).
Proof.
  intros C B x.
  pose proof (canonical_exp b e C) as He.
  pose proof (rounds_self false b e C B) as Rx.
  destruct (low_rounds b e C) as [rl [El [HEl [Rl Vl]]]].
  destruct (mod_rounds b e C) as [rm [Em [HEm [Rm [Vm Vm']]]]].
  destruct (high_rounds b e C) as [rh [Eh [HEh [Rh Vh]]]].
  fold x in Rx, Rl, Rm, Rh |- *.
  assert (PV : 0 < rval (Zpos b) e).
  { unfold rval. apply Z.mul_pos_pos; [lia |]. apply Z.pow_pos_nonneg; lia. }
  assert (Lm : SFleb x (fmul x MOD_MULT) = true)
    by (apply (rounds_le _ _ _ _ _ _ He HEm Rx Rm); lia).
  assert (Mh : SFleb (fmul x MOD_MULT) (fmul x HIGH_MULT) = true)
    by (apply (rounds_le _ _ _ _ _ _ HEm HEh Rm Rh); lia).
  split; [| split; [exact Lm | split; [exact Mh |]]].
  - apply (rounds_inj false rl El (Zpos b) e); assumption.
  - intros Hb Hfin. specialize (Vm' Hb).
    assert (Hmod : fmul x MOD_MULT <> S754_infinity false).
    { intro Hi. rewrite Hi in Mh. destruct Rh; try discriminate. congruence. }
    split.
    + apply (rounds_lt _ _ _ _ _ _ He HEm Rx Rm); [lia | exact Hmod].
    + apply (rounds_lt _ _ _ _ _ _ HEm HEh Rm Rh); [lia | exact Hfin].
Qed.

(** ** [binary_round]: normalising a mantissa and an exponent *)

Lemma iter_xO_pow (m d : positive) : Zpos (Pos.iter xO m d) = Zpos m * 2 ^ Zpos d.
Proof.
  induction d as [| d IH] using Pos.peano_ind.
  - cbn [Pos.iter]. lia.
  - rewrite Pos.iter_succ, Pos2Z.inj_xO, IH, Pos2Z.inj_succ, Z.pow_succ_r; lia.
Qed.

Lemma shl_align_le (m : positive) (e e' : Z) :
  e' <= e -> shl_align m e e' = (Z.to_pos (Zpos m * 2 ^ (e - e')), e').
Proof.
  intro H. unfold shl_align. destruct (e' - e) as [| p | p] eqn:D; try lia.
  - assert (e' = e) by lia. subst e'. rewrite Z.sub_diag.
    change (2 ^ 0) with 1. rewrite Z.mul_1_r. reflexivity.
  - replace (e - e') with (Zpos p) by lia.
    rewrite <- iter_xO_pow. reflexivity.
Qed.

Lemma shl_align_gt (m : positive) (e e' : Z) : e < e' -> shl_align m e e' = (m, e).
Proof.
  intro H. unfold shl_align. destruct (e' - e) eqn:D; try lia; reflexivity.
Qed.

Lemma binary_round_rounds (s : bool) (p : positive) (e : Z) :
  let E := fexp64 (Zpos (digits2_pos p) + e) in
  exists r,
    rounds s r E (binary_round prec emax s p e)
    /\ (E <= e -> r = Zpos p * 2 ^ (e - E))
    /\ (e < E -> (r = Zpos p / 2 ^ (E - e) \/ r = Zpos p / 2 ^ (E - e) + 1)
                 /\ (Zpos p mod 2 ^ (E - e) = 0 -> r = Zpos p / 2 ^ (E - e))).
Proof.
  intro E. unfold binary_round. rewrite fexp_64. fold E.
  destruct (Z.le_gt_cases E e) as [H | H].
  - rewrite shl_align_le by assumption.
    assert (P : 0 < 2 ^ (e - E)) by (apply Z.pow_pos_nonneg; lia).
    set (m := Zpos p * 2 ^ (e - E)).
    assert (Hm : 0 < m) by (subst m; lia).
    rewrite Z2Pos.id by assumption.
    assert (D : Zdigits2 m + E = Zpos (digits2_pos p) + e).
    { subst m. rewrite Zdigits2_mul_pow by lia. simpl Zdigits2. lia. }
    destruct (bra_rounds s m E Hm) as [r [_ [Hex R]]].
    + rewrite D. fold E. lia.
    + rewrite D in *. fold E in Hex, R. rewrite Z.sub_diag in Hex.
      change (2 ^ 0) with 1 in Hex. rewrite Z.mod_1_r, Z.div_1_r in Hex.
      exists r. split; [exact R |]. split; [intros _; now apply Hex | lia].
  - rewrite shl_align_gt by assumption.
    destruct (bra_rounds s (Zpos p) e ltac:(lia)) as [r [Hr [Hex R]]].
    + simpl Zdigits2. fold E. lia.
    + simpl Zdigits2 in *. fold E in Hr, Hex, R.
      exists r. split; [exact R |]. split; [lia | auto].
Qed.

Lemma exact_rep_unique (s : bool) (v : Z) (f1 f2 : float) :
  exact_rep s v f1 -> exact_rep s v f2 -> f1 = f2.
Proof.
  intros [r1 [E1 [H1 [R1 V1]]]] [r2 [E2 [H2 [R2 V2]]]].
  apply (rounds_inj s r1 E1 r2 E2); congruence.
Qed.

Lemma fexp64_ge (x : Z) : -1074 <= fexp64 x.
Proof. unfold fexp64. lia. Qed.

(** A value that is a multiple of the unit in the last place of its
    binade is rounded to itself. *)
Lemma binary_round_exact (s : bool) (p : positive) (e : Z) :
  -1074 <= e ->
  let E := fexp64 (Zpos (digits2_pos p) + e) in
  (Zpos p * 2 ^ (e + 1074)) mod 2 ^ (E + 1074) = 0 ->
  exact_rep s (Zpos p * 2 ^ (e + 1074)) (binary_round prec emax s p e).
Proof.
  intros He E Hmod.
  destruct (binary_round_rounds s p e) as [r [R [Hle Hgt]]]. fold E in R, Hle, Hgt.
  pose proof (fexp64_ge (Zpos (digits2_pos p) + e)) as HE. fold E in HE.
  exists r, E. split; [exact HE |]. split; [exact R |]. unfold rval.
  destruct (Z.le_gt_cases E e) as [H | H].
  - rewrite (Hle H).
    replace (e + 1074) with ((e - E) + (E + 1074)) by lia.
    rewrite (Z.pow_add_r 2 (e - E) (E + 1074)) by lia. ring.
  - destruct (Hgt H) as [_ Hex].
    assert (P : 0 < 2 ^ (E - e)) by (apply Z.pow_pos_nonneg; lia).
    assert (Q : 0 < 2 ^ (e + 1074)) by (apply Z.pow_pos_nonneg; lia).
    assert (Dv : Zpos p mod 2 ^ (E - e) = 0).
    { replace (E + 1074) with ((E - e) + (e + 1074)) in Hmod by lia.
      rewrite (Z.pow_add_r 2 (E - e) (e + 1074)) in Hmod by lia.
      rewrite Z.mul_mod_distr_r in Hmod by lia. nia. }
    rewrite (Hex Dv).
    replace (E + 1074) with ((E - e) + (e + 1074)) by lia.
    rewrite (Z.pow_add_r 2 (E - e) (e + 1074)), Z.mul_assoc by lia. f_equal.
    pose proof (Z.div_mod (Zpos p) (2 ^ (E - e)) ltac:(lia)) as DM.
    rewrite Dv in DM. lia.
Qed.


Lemma pow2_pos (k : Z) : 0 <= k -> 0 < 2 ^ k.
Proof. intro H. apply Z.pow_pos_nonneg; lia. Qed.

Lemma rounds_not_inf (s : bool) (r E : Z) (f : float) :
  -1074 <= E -> rounds s r E f -> rval r E < 2 ^ 2098 ->
  forall s', f <> S754_infinity s'.
Proof.
  intros HE R V s'. destruct R as [Z0 | m e C L B W | m e C L B W]; try discriminate.
  exfalso. pose proof (rounds_value s _ _ _ _ HE L W) as Hv.
  apply canonical_inv in C. destruct C as [_ [_ N]]. specialize (N ltac:(lia)).
  assert (2 ^ 2046 <= 2 ^ (e + 1074)) by (apply Z.pow_le_mono_r; lia).
  assert (0 < 2 ^ 2046) by (apply pow2_pos; lia).
  replace 2098 with (52 + 2046) in V by lia. rewrite Z.pow_add_r in V by lia.
  unfold val in Hv. assert (0 < 2 ^ 52) by reflexivity. nia.
Qed.

Lemma exact_rep_finite (s : bool) (v : Z) (f : float) :
  exact_rep s v f -> 0 < v < 2 ^ 2098 ->
  exists m e, f = S754_finite s m e /\ canonical m e /\ e <= 971 /\ val m e = v.
Proof.
  intros [r [E [HE [R V]]]] [Lo Hi].
  pose proof (rounds_not_inf s r E f HE R ltac:(lia)) as NI.
  destruct R as [Z0 | m e C L B W | m e C L B W].
  - subst r. unfold rval in V. lia.
  - exists m, e. repeat split; try assumption.
    rewrite <- V. now apply (rounds_value s).
  - exfalso. now apply (NI s).
Qed.

Lemma exact_rep_of_finite (s : bool) (m : positive) (e : Z) :
  canonical m e -> e <= 971 -> exact_rep s (val m e) (S754_finite s m e).
Proof.
  intros C B. exists (Zpos m), e. split; [apply canonical_inv in C; lia |].
  split; [now apply rounds_self | reflexivity].
Qed.

(** *** Integers below [2^53] are floats *)

Lemma int_ulp_divides (z : Z) :
  0 < z < 2 ^ 53 ->
  (z * 2 ^ 1074) mod 2 ^ (fexp64 (Zdigits2 (z * 2 ^ 1074) - 1074) + 1074) = 0.
Proof.
  intros [Lo Hi]. rewrite Zdigits2_mul_pow by lia.
  pose proof (Zdigits2_pos_val z Lo) as [Dlo Dhi].
  set (d := Zdigits2 z) in *.
  assert (D : d <= 53).
  { destruct (Z.le_gt_cases d 53); [assumption |].
    assert (2 ^ 53 <= 2 ^ (d - 1)) by (apply Z.pow_le_mono_r; lia). lia. }
  assert (D0 : 0 < d) by (subst d; destruct z; simpl; lia).
  replace (d + 1074 - 1074) with d by lia.
  set (E := fexp64 d). assert (HE : -1074 <= E <= 0) by (subst E; unfold fexp64; lia).
  replace 1074 with ((- E) + (E + 1074)) at 1 by lia.
  rewrite Z.pow_add_r, Z.mul_assoc by lia. apply Z.mod_mul.
  apply Z.pow_nonzero; lia.
Qed.

Lemma binary_round_int (s : bool) (p : positive) :
  Zpos p < 2 ^ 53 ->
  exact_rep s (Zpos p * 2 ^ 1074) (binary_round prec emax s p 0).
Proof.
  intro H. pose proof (binary_round_exact s p 0 ltac:(lia)) as X.
  cbn zeta in X. rewrite Z.add_0_l in X. apply X.
  pose proof (int_ulp_divides (Zpos p) ltac:(lia)) as Y.
  rewrite Zdigits2_mul_pow in Y by lia. simpl Zdigits2 in Y.
  replace (Zpos (digits2_pos p) + 1074 - 1074) with (Zpos (digits2_pos p) + 0) in Y by lia.
  exact Y.
Qed.


Lemma Z2F_exact (z : Z) :
  z <> 0 -> Z.abs z < 2 ^ 53 ->
  exact_rep (zsign z) (Z.abs z * 2 ^ 1074) (Z2F z).
Proof.
  intros Hz Hb. unfold Z2F, binary_normalize, zsign.
  destruct z as [| p | p]; [congruence | |]; cbn [Z.abs Z.ltb Z.compare];
    now apply binary_round_int.
Qed.

Lemma Z2F_finite_form (z : Z) :
  z <> 0 -> Z.abs z < 2 ^ 53 ->
  exists m e, Z2F z = S754_finite (zsign z) m e /\ canonical m e /\ e <= 971
              /\ val m e = Z.abs z * 2 ^ 1074.
Proof.
  intros Hz Hb. apply exact_rep_finite; [now apply Z2F_exact |].
  assert (0 < 2 ^ 1074) by (apply pow2_pos; lia).
  split; [lia |].
  replace 2098 with (1024 + 1074) by lia. rewrite Z.pow_add_r by lia.
  apply Z.mul_lt_mono_pos_r; [assumption |].
  assert (2 ^ 53 < 2 ^ 1024) by (apply Z.pow_lt_mono_r; lia). lia.
Qed.

(** *** Exact sums *)


Lemma cond_Zopp_mul (s : bool) (a b : Z) : cond_Zopp s a * b = cond_Zopp s (a * b).
Proof. destruct s; simpl; lia. Qed.

Lemma shl_align_val (m : positive) (e e' : Z) :
  -1074 <= e' -> e' <= e ->
  Zpos (fst (shl_align m e e')) * 2 ^ (e' + 1074) = val m e.
Proof.
  intros H1 H2. rewrite shl_align_le by assumption. cbn [fst].
  assert (0 < 2 ^ (e - e')) by (apply pow2_pos; lia).
  rewrite Z2Pos.id by lia. unfold val.
  replace (e + 1074) with ((e - e') + (e' + 1074)) by lia.
  rewrite (Z.pow_add_r 2 (e - e') (e' + 1074)) by lia. ring.
Qed.

Lemma fadd_exact (sa sb : bool) (ma mb : positive) (ea eb : Z) :
  canonical ma ea -> canonical mb eb ->
  let v := sval sa ma ea + sval sb mb eb in
  (v = 0 -> fadd (S754_finite sa ma ea) (S754_finite sb mb eb) = S754_zero false)
  /\ (v <> 0 ->
      Z.abs v mod 2 ^ (fexp64 (Zdigits2 (Z.abs v) - 1074) + 1074) = 0 ->
      exact_rep (zsign v) (Z.abs v)
        (fadd (S754_finite sa ma ea) (S754_finite sb mb eb))).
Proof.
  intros Ca Cb v. unfold fadd. cbn [SFadd].
  pose proof (canonical_inv _ _ Ca) as [Ha _].
  pose proof (canonical_inv _ _ Cb) as [Hb _].
  set (ez := Z.min ea eb).
  assert (Hez : -1074 <= ez) by (subst ez; lia).
  set (M := cond_Zopp sa (Zpos (fst (shl_align ma ea ez)))
            + cond_Zopp sb (Zpos (fst (shl_align mb eb ez)))).
  assert (P : 0 < 2 ^ (ez + 1074)) by (apply pow2_pos; lia).
  assert (HM : M * 2 ^ (ez + 1074) = v).
  { subst M v. unfold sval. rewrite Z.mul_add_distr_r, !cond_Zopp_mul.
    rewrite !shl_align_val by (subst ez; lia). reflexivity. }
  split.
  - intro Hv. assert (M = 0) by nia. rewrite H. reflexivity.
  - intros Hv Hmod. unfold binary_normalize.
    destruct M as [| p | p] eqn:EM; [lia | |].
    + assert (Hpos : 0 < v) by lia.
      replace (zsign v) with false by (unfold zsign; symmetry; apply Z.ltb_ge; lia).
      rewrite Z.abs_eq in * by lia. rewrite <- HM in *.
      apply binary_round_exact; [exact Hez |].
      rewrite Zdigits2_mul_pow in Hmod by lia. simpl Zdigits2 in Hmod.
      replace (Zpos (digits2_pos p) + (ez + 1074) - 1074)
        with (Zpos (digits2_pos p) + ez) in Hmod by lia.
      exact Hmod.
    + assert (Hneg : v < 0) by lia.
      replace (zsign v) with true by (unfold zsign; symmetry; apply Z.ltb_lt; lia).
      assert (Habs : Z.abs v = Zpos p * 2 ^ (ez + 1074)) by lia.
      rewrite Habs in *.
      apply binary_round_exact; [exact Hez |].
      rewrite Zdigits2_mul_pow in Hmod by lia. simpl Zdigits2 in Hmod.
      replace (Zpos (digits2_pos p) + (ez + 1074) - 1074)
        with (Zpos (digits2_pos p) + ez) in Hmod by lia.
      exact Hmod.
Qed.

Lemma sval_int (z : Z) (m : positive) (e : Z) :
  val m e = Z.abs z * 2 ^ 1074 -> sval (zsign z) m e = z * 2 ^ 1074.
Proof.
  intro H. unfold sval, zsign. rewrite H.
  destruct (Z.ltb_spec z 0); simpl; lia.
Qed.

Theorem fadd_int (a b : Z) :
  Z.abs a < 2 ^ 53 -> Z.abs b < 2 ^ 53 -> Z.abs (a + b) < 2 ^ 53 ->
  fadd (Z2F a) (Z2F b) = Z2F (a + b).
Proof.
  intros Ha Hb Hab.
  destruct (Z.eq_dec a 0) as [-> | Na]; destruct (Z.eq_dec b 0) as [-> | Nb].
  - reflexivity.
  - rewrite Z.add_0_l.
    destruct (Z2F_finite_form b Nb Hb) as [m [e [-> _]]]. reflexivity.
  - rewrite Z.add_0_r.
    destruct (Z2F_finite_form a Na Ha) as [m [e [-> _]]]. reflexivity.
  - destruct (Z2F_finite_form a Na Ha) as [ma [ea [Fa [Ca [_ Va]]]]].
    destruct (Z2F_finite_form b Nb Hb) as [mb [eb [Fb [Cb [_ Vb]]]]].
    rewrite Fa, Fb.
    destruct (fadd_exact (zsign a) (zsign b) ma mb ea eb Ca Cb) as [Hz Hnz].
    rewrite (sval_int a), (sval_int b) in Hz, Hnz by assumption.
    assert (P : 0 < 2 ^ 1074) by (apply pow2_pos; lia).
    replace (a * 2 ^ 1074 + b * 2 ^ 1074) with ((a + b) * 2 ^ 1074) in * by ring.
    destruct (Z.eq_dec (a + b) 0) as [Z0 | NZ].
    + rewrite Hz by (rewrite Z0; reflexivity). rewrite Z0. reflexivity.
    + assert (A : Z.abs ((a + b) * 2 ^ 1074) = Z.abs (a + b) * 2 ^ 1074)
        by (rewrite Z.abs_mul, (Z.abs_eq (2 ^ 1074)); lia).
      assert (S : zsign ((a + b) * 2 ^ 1074) = zsign (a + b)).
      { unfold zsign. destruct (Z.ltb_spec (a + b) 0), (Z.ltb_spec ((a + b) * 2 ^ 1074) 0);
          try reflexivity; nia. }
      rewrite A, S in Hnz.
      apply (exact_rep_unique (zsign (a + b)) (Z.abs (a + b) * 2 ^ 1074)).
      * apply Hnz; [nia |]. apply int_ulp_divides. lia.
      * now apply Z2F_exact.
Qed.

(** *** Integers within the binary64 range convert without overflow *)

Lemma Z2F_not_inf (z : Z) :
  Z.abs z < 2 ^ 1023 -> forall s, Z2F z <> S754_infinity s.
Proof.
  intros Hz s. unfold Z2F, binary_normalize.
  assert (G : forall sg p, Zpos p < 2 ^ 1023 ->
                          binary_round prec emax sg p 0 <> S754_infinity s).
  { clear. intros sg p Hp.
    destruct (binary_round_rounds sg p 0) as [r [R [Hle Hgt]]].
    rewrite Z.add_0_r in *.
    pose proof (digits2_bounds p) as [Dlo Dhi].
    set (d := Zpos (digits2_pos p)) in *.
    assert (D0 : 0 < d) by (subst d; lia).
    assert (D : d <= 1023).
    { destruct (Z.le_gt_cases d 1023); [assumption |].
      assert (2 ^ 1023 <= 2 ^ (d - 1)) by (apply Z.pow_le_mono_r; lia). lia. }
    set (E := fexp64 d) in *.
    assert (HE : -1074 <= E) by apply fexp64_ge.
    apply (rounds_not_inf sg r E _ HE R).
    assert (P : 0 < 2 ^ 1074) by (apply pow2_pos; lia).
    assert (B : Zpos p * 2 ^ 1074 < 2 ^ 1023 * 2 ^ 1074)
      by (apply Z.mul_lt_mono_pos_r; assumption).
    replace 2098 with (1024 + 1074) by lia. rewrite Z.pow_add_r by lia.
    change (2 ^ 1024) with (2 * 2 ^ 1023).
    unfold rval. destruct (Z.le_gt_cases E 0) as [H | H].
    - rewrite (Hle H). rewrite <- Z.mul_assoc, <- Z.pow_add_r by lia.
      replace (0 - E + (E + 1074)) with 1074 by lia. lia.
    - destruct (Hgt H) as [Hr _]. rewrite Z.sub_0_r in Hr.
      assert (PE : 0 < 2 ^ E) by (apply pow2_pos; lia).
      assert (EE : E = d - 53) by (subst E; unfold fexp64 in *; lia).
      assert (LE : 2 ^ E <= Zpos p).
      { assert (2 ^ E <= 2 ^ (d - 1)) by (apply Z.pow_le_mono_r; lia). lia. }
      rewrite Z.pow_add_r by lia.
      pose proof (Z.mul_div_le (Zpos p) (2 ^ E) PE) as Q.
      assert (r * 2 ^ E <= 2 * Zpos p) by (destruct Hr as [-> | ->]; nia).
      nia. }
  destruct z as [| p | p]; [discriminate | |]; apply G; exact Hz.
Qed.

(** *** Halving *)


Lemma canonical_normal_digits (m : positive) (e : Z) :
  canonical m e -> -1074 < e -> Zpos (digits2_pos m) = 53.
Proof. unfold canonical, fexp64. lia. Qed.

Lemma fdiv_two (s : bool) (m : positive) (e : Z) :
  canonical m e -> -1072 <= e -> e <= 972 ->
  fdiv (S754_finite s m e) F2 = S754_finite s m (e - 1).
Proof.
  intros C Lo Hi.
  pose proof (canonical_normal_digits m e C ltac:(lia)) as D.
  unfold fdiv, F2. cbn [SFdiv]. unfold SFdiv_core_binary.
  cbn [Zdigits2]. rewrite D. rewrite fexp_64.
  change (Zpos (digits2_pos 0x10000000000000)) with 53.
  replace (fexp64 (53 + e - (53 + -51))) with (e - 2) by (unfold fexp64; lia).
  replace (Z.min (e - 2) (e - -51)) with (e - 2) by lia.
  replace (e - -51 - (e - 2)) with 53 by lia.
  cbv iota beta.
  rewrite Z.shiftl_mul_pow2 by lia.
  assert (Q : Z.div_eucl (Zpos m * 2 ^ 53) (Zpos 0x10000000000000) = (Zpos m * 2, 0)).
  { pose proof (Z_div_mod (Zpos m * 2 ^ 53) (Zpos 0x10000000000000) eq_refl) as H.
    destruct (Z.div_eucl (Zpos m * 2 ^ 53) (Zpos 0x10000000000000)) as [q r].
    destruct H as [H1 H2].
    change (Zpos 0x10000000000000) with 4503599627370496 in *.
    change (2 ^ 53) with 9007199254740992 in *.
    f_equal; lia. }
  rewrite Q. change (new_location _ 0) with loc_Exact.
  rewrite xorb_false_r.
  assert (D2 : Zdigits2 (Zpos m * 2) = 54).
  { change (Zpos m * 2) with (Zpos m * 2 ^ 1).
    rewrite Zdigits2_mul_pow by lia. simpl Zdigits2. lia. }
  destruct (bra_rounds s (Zpos m * 2) (e - 2) ltac:(lia)) as [r [_ [Hex R]]].
  - rewrite D2. unfold fexp64. lia.
  - rewrite D2 in *.
    replace (fexp64 (54 + (e - 2))) with (e - 1) in * by (unfold fexp64; lia).
    replace (e - 1 - (e - 2)) with 1 in Hex by lia.
    change (2 ^ 1) with 2 in Hex.
    rewrite Z.mod_mul, Z.div_mul in Hex by lia.
    specialize (Hex eq_refl). subst r.
    apply (rounds_inj s (Zpos m) (e - 1) (Zpos m) (e - 1)); try lia; try assumption.
    apply rounds_self; [| lia]. unfold canonical. rewrite D. unfold fexp64. lia.
Qed.

(** ** Signs *)

Lemma bra_nonneg (m e : Z) (l : location) :
  0 <= m -> nonneg (binary_round_aux prec emax false m e l).
Proof.
  intro H. pose proof (bra_sign false m e l H) as S.
  destruct (binary_round_aux prec emax false m e l); simpl; tauto.
Qed.

Lemma fabs_nonneg (f : float) : nonneg (SFabs f).
Proof. destruct f; simpl; auto. Qed.

Lemma fmul_nonneg (x : float) (mc : positive) (ec : Z) :
  nonneg x -> nonneg (fmul x (S754_finite false mc ec)).
Proof.
  destruct x as [s | s | | s m e]; simpl; intro H; subst; auto.
  apply bra_nonneg. lia.
Qed.

Lemma div_core_nonneg (m1 m2 : positive) (e1 e2 : Z) :
  0 <= fst (fst (SFdiv_core_binary prec emax (Zpos m1) e1 (Zpos m2) e2)).
Proof.
  unfold SFdiv_core_binary.
  set (s := e1 - e2 - _).
  set (m' := match s with Zpos _ => Z.shiftl (Zpos m1) s | Z0 => Zpos m1 | Zneg _ => 0 end).
  assert (Hm : 0 <= m').
  { subst m'. destruct s; try lia. apply Z.shiftl_nonneg. lia. }
  pose proof (Z_div_mod m' (Zpos m2) eq_refl) as H.
  destruct (Z.div_eucl m' (Zpos m2)) as [q r]. cbn [fst]. nia.
Qed.

Lemma fdiv_nonneg (x : float) (mc : positive) (ec : Z) :
  nonneg x -> nonneg (fdiv x (S754_finite false mc ec)).
Proof.
  destruct x as [s | s | | s m e]; simpl; intro H; subst; auto.
  pose proof (div_core_nonneg m mc e ec) as Q.
  unfold fdiv. cbn [SFdiv].
  destruct (SFdiv_core_binary prec emax (Zpos m) e (Zpos mc) ec) as [[mz ez] lz].
  cbn [fst] in Q. cbn [xorb]. now apply bra_nonneg.
Qed.

Lemma fadd_nonneg (x y : float) : nonneg x -> nonneg y -> nonneg (fadd x y).
Proof.
  destruct x as [sx | sx | | sx mx ex]; destruct y as [sy | sy | | sy my ey];
    unfold fadd; cbn [SFadd nonneg]; intros Hx Hy; subst; cbn [nonneg]; auto.
  cbn [cond_Zopp]. unfold binary_normalize.
  destruct (shl_align mx ex (Z.min ex ey)) as [a ea].
  destruct (shl_align my ey (Z.min ex ey)) as [b eb]. cbn [fst Z.add].
  unfold binary_round. destruct (shl_align (a + b) _ _) as [mz ez].
  apply bra_nonneg. lia.
Qed.

Lemma nonneg_not_lt (f : float) :
  nonneg f -> SFltb f (S754_zero false) = false.
Proof. destruct f; simpl; intro H; subst; reflexivity. Qed.

Lemma nonneg_le (f : float) :
  nonneg f -> f <> S754_nan -> SFleb (S754_zero false) f = true.
Proof. destruct f as [s | s | | s m e]; simpl; intros H N; subst; try reflexivity; congruence. Qed.

Local Open Scope string_scope.
Local Open Scope list_scope.

(** * The program *)

(** ** Conversions and sums of integers *)

Lemma float_of_int_ok (z : Z) :
  Z.abs z < 2 ^ 1023 -> float_of_int z = Ok (Z2F z).
Proof.
  intro H. unfold float_of_int. pose proof (Z2F_not_inf z H) as N.
  destruct (Z2F z) as [s | s | | s m e]; try reflexivity.
  exfalso. now apply (N s).
Qed.

Lemma pow53_lt_pow1023 : 2 ^ 53 < 2 ^ 1023.
Proof. apply Z.pow_lt_mono_r; lia. Qed.

Lemma py_add_float_int (S t : Z) :
  Z.abs S < 2 ^ 53 -> Z.abs t < 2 ^ 53 -> Z.abs (S + t) < 2 ^ 53 ->
  py_add (VFloat (Z2F S)) (VInt t) = Ok (VFloat (Z2F (S + t))).
Proof.
  intros HS Ht HSt. unfold py_add. cbn [as_number arith].
  rewrite float_of_int_ok by (pose proof pow53_lt_pow1023; lia).
  cbn [bind]. now rewrite fadd_int.
Qed.

Lemma fabs_Z2F (z : Z) : Z.abs z < 2 ^ 53 -> fabs (Z2F z) = Z2F (Z.abs z).
Proof.
  intro H. destruct (Z.eq_dec z 0) as [-> | N]; [reflexivity |].
  destruct (Z2F_finite_form z N H) as [m [e [F [C [B V]]]]].
  rewrite F. cbn [fabs SFabs].
  apply (exact_rep_unique false (Z.abs z * 2 ^ 1074)).
  - rewrite <- V. now apply exact_rep_of_finite.
  - replace false with (zsign (Z.abs z)) by (unfold zsign; apply Z.ltb_ge; lia).
    rewrite <- (Z.abs_idemp z) at 2. apply Z2F_exact; lia.
Qed.

(** ** The loop on integer vertices *)

Lemma int_vertex_vertex (c : Z * Z) : int_vertex (vertex c) c.
Proof. exists [("x", VInt (fst c)); ("y", VInt (snd c))]. repeat split. Qed.

Lemma Forall2_int_vertex_map (pts : list (Z * Z)) :
  Forall2 int_vertex (map vertex pts) pts.
Proof. induction pts; constructor; auto using int_vertex_vertex. Qed.

Lemma Forall2_rev_lists {A B : Type} (R : A -> B -> Prop) (l : list A) (l' : list B) :
  Forall2 R l l' -> Forall2 R (rev l) (rev l').
Proof.
  induction 1 as [| a b l l' Hab H IH]; [constructor |].
  cbn [rev]. apply Forall2_app; [exact IH | repeat constructor; exact Hab].
Qed.

Lemma getitem_Forall2 {C : Type} (R : value -> C -> Prop) (points : list value)
  (pts : list C) (dflt : C) (i : nat) :
  Forall2 R points pts -> (i < List.length pts)%nat ->
  exists p, getitem points i = Ok p /\ R p (nth i pts dflt).
Proof.
  intro H. revert i. induction H as [| p c points pts Hp H IH]; intros i Hi.
  - cbn in Hi. lia.
  - destruct i as [| i].
    + exists p. split; [reflexivity | exact Hp].
    + cbn [List.length] in Hi. destruct (IH i ltac:(lia)) as [q [G Q]].
      exists q. split; [exact G | exact Q].
Qed.

Lemma getitem_int_vertex (points : list value) (pts : list (Z * Z)) (i : nat) :
  Forall2 int_vertex points pts -> (i < List.length pts)%nat ->
  exists p, getitem points i = Ok p /\ int_vertex p (nth i pts (0, 0)).
Proof. apply getitem_Forall2. Qed.

Lemma shoelace_step_int (points : list value) (pts : list (Z * Z))
  (s : value) (i : nat) :
  Forall2 int_vertex points pts -> (i < List.length pts)%nat ->
  shoelace_step points (List.length pts) s i
  = py_add s (VInt (cross_term pts i)).
Proof.
  intros H Hi. unfold shoelace_step.
  assert (Hj : ((i + 1) mod List.length pts < List.length pts)%nat)
    by (apply Nat.mod_upper_bound; lia).
  destruct (getitem_int_vertex points pts i H Hi) as [p [-> [dp [-> [X1 Y1]]]]].
  destruct (getitem_int_vertex points pts _ H Hj) as [q [-> [dq [-> [X2 Y2]]]]].
  cbn [bind subscript]. rewrite X1, Y1, X2, Y2. reflexivity.
Qed.

Lemma zsum_abs_nonneg (l : list Z) : 0 <= zsum (map Z.abs l).
Proof.
  induction l as [| a l IH]; cbn; [lia |]. fold (zsum (map Z.abs l)). lia.
Qed.

Lemma shoelace_loop_int (points : list value) (pts : list (Z * Z))
  (range : list nat) (S : Z) :
  Forall2 int_vertex points pts ->
  Forall (fun i => (i < List.length pts)%nat) range ->
  Z.abs S + zsum (map Z.abs (map (cross_term pts) range)) < 2 ^ 53 ->
  shoelace_loop points (List.length pts) (VFloat (Z2F S)) range
  = Ok (VFloat (Z2F (S + zsum (map (cross_term pts) range)))).
Proof.
  intros H Hr. revert S. induction Hr as [| i range Hi Hr IH]; intros S Hb.
  - cbn. now rewrite Z.add_0_r.
  - cbn [map zsum fold_right] in Hb |- *.
    fold (zsum (map Z.abs (map (cross_term pts) range))) in Hb.
    fold (zsum (map (cross_term pts) range)).
    pose proof (zsum_abs_nonneg (map (cross_term pts) range)).
    cbn [shoelace_loop]. rewrite (shoelace_step_int points pts) by assumption.
    rewrite py_add_float_int by lia. cbn [bind].
    rewrite IH by lia. do 3 f_equal. lia.
Qed.

Lemma seq_bounded (n : nat) : Forall (fun i => (i < n)%nat) (seq 0 n).
Proof. apply Forall_forall. intros i Hi. apply in_seq in Hi. lia. Qed.

Lemma zsum_abs (l : list Z) : Z.abs (zsum l) <= zsum (map Z.abs l).
Proof.
  induction l as [| a l IH]; cbn; [lia |].
  fold (zsum l). fold (zsum (map Z.abs l)). lia.
Qed.

Lemma shoelace_sum_bound (pts : list (Z * Z)) :
  Z.abs (shoelace_sum pts) <= cross_mass pts.
Proof. apply zsum_abs. Qed.

(** On integer vertices whose cross terms stay below [2^53] the float
    accumulation is the exact sum. *)
Lemma shoelace_area_int (points : list value) (pts : list (Z * Z)) :
  Forall2 int_vertex points pts -> cross_mass pts < 2 ^ 53 ->
  shoelace_area_px2 points
  = Ok (VFloat (if (List.length pts <? 3)%nat then F0
                else fdiv (Z2F (Z.abs (shoelace_sum pts))) F2)).
Proof.
  intros H Hb. unfold shoelace_area_px2.
  rewrite (Forall2_length H).
  destruct (Nat.ltb_spec (List.length pts) 3) as [Hn | Hn]; [reflexivity |].
  pose proof (shoelace_loop_int points pts (seq 0 (List.length pts)) 0 H
                (seq_bounded _)) as L.
  change (Z2F 0) with F0 in L. rewrite L by (cbn [Z.abs]; exact Hb).
  cbn [bind]. rewrite Z.add_0_l. fold (cross_terms pts). fold (shoelace_sum pts).
  unfold py_abs. cbn [as_number bind].
  pose proof (shoelace_sum_bound pts).
  rewrite fabs_Z2F by lia. reflexivity.
Qed.

(** ** The loop on float vertices *)

Lemma shoelace_step_float (points : list value) (pts : list (float * float))
  (s : float) (i : nat) :
  Forall2 float_vertex points pts -> (i < List.length pts)%nat ->
  shoelace_step points (List.length pts) (VFloat s) i
  = Ok (VFloat (fadd s (fcross_term pts i))).
Proof.
  intros H Hi. unfold shoelace_step.
  assert (Hj : ((i + 1) mod List.length pts < List.length pts)%nat)
    by (apply Nat.mod_upper_bound; lia).
  destruct (getitem_Forall2 float_vertex points pts (F0, F0) i H Hi)
    as [p [-> [dp [-> [X1 Y1]]]]].
  destruct (getitem_Forall2 float_vertex points pts (F0, F0) _ H Hj)
    as [q [-> [dq [-> [X2 Y2]]]]].
  cbn [bind subscript]. rewrite X1, Y1, X2, Y2. reflexivity.
Qed.

Lemma shoelace_loop_float (points : list value) (pts : list (float * float))
  (range : list nat) (s : float) :
  Forall2 float_vertex points pts ->
  Forall (fun i => (i < List.length pts)%nat) range ->
  shoelace_loop points (List.length pts) (VFloat s) range
  = Ok (VFloat (fold_left fadd (map (fcross_term pts) range) s)).
Proof.
  intros H Hr. revert s. induction Hr as [| i range Hi Hr IH]; intro s.
  - reflexivity.
  - cbn [shoelace_loop map fold_left].
    rewrite (shoelace_step_float points pts) by assumption. cbn [bind]. apply IH.
Qed.

Lemma shoelace_area_float (points : list value) (pts : list (float * float)) :
  Forall2 float_vertex points pts -> (3 <= List.length pts)%nat ->
  shoelace_area_px2 points
  = Ok (VFloat (fdiv (fabs (float_shoelace_sum pts)) F2)).
Proof.
  intros H Hn. unfold shoelace_area_px2. rewrite (Forall2_length H).
  destruct (Nat.ltb_spec (List.length pts) 3) as [Hlt | _]; [lia |].
  rewrite (shoelace_loop_float points pts _ F0 H (seq_bounded _)).
  reflexivity.
Qed.

(** ** The closed path, by structure *)

Lemma last_cons_cons {A : Type} (a b : A) (l : list A) (d : A) :
  last (a :: b :: l) d = last (b :: l) d.
Proof. reflexivity. Qed.

Lemma last_default {A : Type} (l : list A) (d d' : A) :
  l <> [] -> last l d = last l d'.
Proof.
  induction l as [| a [| b l] IH]; intro H; [congruence | reflexivity |].
  rewrite !last_cons_cons. apply IH. discriminate.
Qed.

Lemma last_app_nonempty {A : Type} (l1 l2 : list A) (d : A) :
  l2 <> [] -> last (l1 ++ l2) d = last l2 d.
Proof.
  intro H. induction l1 as [| a l1 IH]; [reflexivity |].
  cbn [app]. destruct (l1 ++ l2) eqn:E.
  - destruct l1; [cbn in E; congruence | discriminate].
  - rewrite last_cons_cons. exact IH.
Qed.

Lemma total_hd (g : Z * Z -> Z * Z -> Z) (l : list (Z * Z)) (d : Z * Z) :
  l <> [] -> total g l = path g l + g (last l d) (hd d l).
Proof.
  destruct l as [| p l]; [congruence |]. intros _. unfold total. cbn [hd].
  now rewrite (last_default (p :: l) p d) by discriminate.
Qed.

Lemma path_app (g : Z * Z -> Z * Z -> Z) (l1 l2 : list (Z * Z)) (d : Z * Z) :
  l1 <> [] -> l2 <> [] ->
  path g (l1 ++ l2) = path g l1 + g (last l1 d) (hd d l2) + path g l2.
Proof.
  intros H1 H2. induction l1 as [| a [| b l1] IH]; [congruence | |].
  - destruct l2 as [| q l2]; [congruence |]. cbn. lia.
  - change ((a :: b :: l1) ++ l2) with (a :: (b :: l1) ++ l2).
    change (path g (a :: (b :: l1) ++ l2))
      with (g a b + path g ((b :: l1) ++ l2)).
    rewrite IH by discriminate. rewrite last_cons_cons. cbn [path]. lia.
Qed.

Lemma total_rotate (g : Z * Z -> Z * Z -> Z) (l1 l2 : list (Z * Z)) :
  total g (l2 ++ l1) = total g (l1 ++ l2).
Proof.
  destruct l1 as [| a l1]; [now rewrite app_nil_r |].
  destruct l2 as [| b l2]; [now rewrite app_nil_r |].
  rewrite (total_hd g _ a), (total_hd g _ a) by discriminate.
  rewrite !(path_app g _ _ a) by discriminate.
  rewrite !last_app_nonempty by discriminate. cbn [hd app]. lia.
Qed.

Lemma path_rev (g : Z * Z -> Z * Z -> Z) (l : list (Z * Z)) :
  path g (rev l) = path (fun p q => g q p) l.
Proof.
  induction l as [| a [| b l] IH]; [reflexivity | reflexivity |].
  change (rev (a :: b :: l)) with (rev (b :: l) ++ [a]).
  rewrite (path_app g _ _ a).
  - rewrite IH. cbn [rev]. rewrite last_last. cbn [path hd]. lia.
  - cbn [rev]. destruct (rev l); discriminate.
  - discriminate.
Qed.

Lemma total_rev (g : Z * Z -> Z * Z -> Z) (l : list (Z * Z)) :
  total g (rev l) = total (fun p q => g q p) l.
Proof.
  destruct l as [| a l]; [reflexivity |].
  rewrite (total_hd g _ a) by (cbn [rev]; destruct (rev l); discriminate).
  rewrite path_rev. unfold total. f_equal.
  cbn [rev]. rewrite last_last.
  destruct l as [| b l] using rev_ind; [reflexivity |].
  rewrite rev_app_distr. cbn [rev app hd].
  change (a :: l ++ [b]) with ((a :: l) ++ [b]). now rewrite last_last.
Qed.

Lemma path_ext (g h : Z * Z -> Z * Z -> Z) (l : list (Z * Z)) :
  (forall p q, g p q = h p q) -> path g l = path h l.
Proof.
  intro H. induction l as [| a [| b l] IH]; [reflexivity | reflexivity |].
  cbn [path] in *. now rewrite H, IH.
Qed.

Lemma total_ext (g h : Z * Z -> Z * Z -> Z) (l : list (Z * Z)) :
  (forall p q, g p q = h p q) -> total g l = total h l.
Proof.
  intro H. destruct l as [| a l]; [reflexivity |]. unfold total.
  now rewrite (path_ext g h), H.
Qed.

Lemma path_opp (g : Z * Z -> Z * Z -> Z) (l : list (Z * Z)) :
  path (fun p q => - g p q) l = - path g l.
Proof.
  induction l as [| a [| b l] IH]; [reflexivity | reflexivity |].
  cbn [path] in *. rewrite IH. lia.
Qed.

Lemma total_opp (g : Z * Z -> Z * Z -> Z) (l : list (Z * Z)) :
  total (fun p q => - g p q) l = - total g l.
Proof.
  destruct l as [| a l]; [reflexivity |]. unfold total. rewrite path_opp. lia.
Qed.

(** ** The sum by index is the sum over the closed path *)

Lemma path_nth (g : Z * Z -> Z * Z -> Z) (l : list (Z * Z)) (d : Z * Z) :
  path g l
  = zsum (map (fun i => g (nth i l d) (nth (S i) l d))
            (seq 0 (List.length l - 1))).
Proof.
  induction l as [| a [| b l] IH]; [reflexivity | reflexivity |].
  replace (List.length (a :: b :: l) - 1)%nat with (S (List.length (b :: l) - 1))
    by (cbn [List.length]; lia).
  rewrite <- cons_seq, <- seq_shift. cbn [map]. rewrite map_map.
  change (path g (a :: b :: l)) with (g a b + path g (b :: l)).
  rewrite IH. reflexivity.
Qed.

Lemma zsum_app (l1 l2 : list Z) : zsum (l1 ++ l2) = zsum l1 + zsum l2.
Proof.
  induction l1 as [| a l1 IH]; cbn; [reflexivity |].
  fold (zsum (l1 ++ l2)). fold (zsum l1). lia.
Qed.

Lemma nth_last_index {A : Type} (l : list A) (d : A) :
  nth (List.length l - 1) l d = last l d.
Proof.
  induction l as [| a [| b l] IH]; [reflexivity | reflexivity |].
  rewrite last_cons_cons, <- IH.
  replace (List.length (a :: b :: l) - 1)%nat with (S (List.length (b :: l) - 1))
    by (cbn [List.length]; lia).
  reflexivity.
Qed.

Lemma zsum_terms (g : Z * Z -> Z * Z -> Z) (pts : list (Z * Z)) :
  zsum (map (fun i => g (nth i pts (0, 0))
                        (nth ((i + 1) mod List.length pts) pts (0, 0)))
          (seq 0 (List.length pts)))
  = total g pts.
Proof.
  destruct pts as [| a l] eqn:E; [reflexivity |]. rewrite <- E.
  assert (N : pts <> []) by (rewrite E; discriminate).
  assert (Hn : (List.length pts = S (List.length pts - 1))%nat)
    by (rewrite E; cbn; lia).
  assert (Hs : seq 0 (List.length pts)
               = seq 0 (List.length pts - 1) ++ [(List.length pts - 1)%nat]).
  { rewrite Hn at 1. now rewrite seq_S. }
  rewrite (total_hd g pts (0, 0) N), (path_nth g pts (0, 0)).
  rewrite Hs, map_app, zsum_app. cbn [map zsum fold_right].
  replace ((List.length pts - 1 + 1) mod List.length pts)%nat with 0%nat
    by (replace (List.length pts - 1 + 1)%nat with (List.length pts) by lia;
        symmetry; apply Nat.Div0.mod_same).
  rewrite nth_last_index. replace (nth 0 pts (0, 0)) with (hd (0, 0) pts)
    by (rewrite E; reflexivity).
  rewrite Z.add_0_r. f_equal. f_equal.
  apply map_ext_in. intros i Hi. apply in_seq in Hi.
  rewrite Nat.mod_small by lia. now rewrite Nat.add_1_r.
Qed.

Lemma shoelace_sum_total (pts : list (Z * Z)) : shoelace_sum pts = total cross pts.
Proof. unfold shoelace_sum, cross_terms, cross_term. apply zsum_terms. Qed.

Lemma cross_mass_total (pts : list (Z * Z)) :
  cross_mass pts = total (fun p q => Z.abs (cross p q)) pts.
Proof.
  unfold cross_mass, cross_terms, cross_term. rewrite map_map.
  apply (zsum_terms (fun p q => Z.abs (cross p q))).
Qed.

Lemma cross_swap (p q : Z * Z) : cross q p = - cross p q.
Proof. unfold cross. lia. Qed.

Lemma shoelace_sum_rotate (l1 l2 : list (Z * Z)) :
  shoelace_sum (l2 ++ l1) = shoelace_sum (l1 ++ l2).
Proof. rewrite !shoelace_sum_total. apply total_rotate. Qed.

Lemma cross_mass_rotate (l1 l2 : list (Z * Z)) :
  cross_mass (l2 ++ l1) = cross_mass (l1 ++ l2).
Proof. rewrite !cross_mass_total. apply total_rotate. Qed.

Lemma shoelace_sum_rev (l : list (Z * Z)) : shoelace_sum (rev l) = - shoelace_sum l.
Proof.
  rewrite !shoelace_sum_total, total_rev, <- total_opp.
  apply total_ext. intros p q. apply cross_swap.
Qed.

Lemma cross_mass_rev (l : list (Z * Z)) : cross_mass (rev l) = cross_mass l.
Proof.
  rewrite !cross_mass_total, total_rev.
  apply total_ext. intros p q. rewrite cross_swap. apply Z.abs_opp.
Qed.

(** ** Half of an integer, exactly *)

Lemma int_float_exponent (z : Z) (m : positive) (e : Z) :
  0 < z < 2 ^ 53 -> canonical m e -> val m e = z * 2 ^ 1074 ->
  -53 < e <= 0 /\ Zpos m = z * 2 ^ (- e).
Proof.
  intros [Lo Hi] C V. pose proof (canonical_inv m e C) as [He [Um Nm]].
  unfold val in V.
  assert (P : 0 < 2 ^ (e + 1074)) by (apply pow2_pos; lia).
  assert (P1074 : 0 < 2 ^ 1074) by (apply pow2_pos; lia).
  assert (E1 : -53 < e).
  { destruct (Z.lt_ge_cases (-53) e) as [| H]; [assumption | exfalso].
    assert (2 ^ (e + 1074) <= 2 ^ 1021) by (apply Z.pow_le_mono_r; lia).
    assert (2 ^ 53 * 2 ^ 1021 = 2 ^ 1074) by (rewrite <- Z.pow_add_r by lia; reflexivity).
    assert (0 < 2 ^ 1021) by (apply pow2_pos; lia). nia. }
  assert (E2 : e <= 0).
  { destruct (Z.le_gt_cases e 0) as [| H]; [assumption | exfalso].
    specialize (Nm ltac:(lia)).
    assert (2 ^ 1075 <= 2 ^ (e + 1074)) by (apply Z.pow_le_mono_r; lia).
    assert (2 ^ 1075 = 2 * 2 ^ 1074) by (rewrite <- Z.pow_succ_r by lia; reflexivity).
    change (2 ^ 53) with (2 * 2 ^ 52) in Hi. assert (0 < 2 ^ 52) by reflexivity.
    nia. }
  split; [lia |].
  replace 1074 with ((- e) + (e + 1074)) in V at 2 by lia.
  rewrite (Z.pow_add_r 2 (- e) (e + 1074)), Z.mul_assoc in V by lia.
  apply Z.mul_cancel_r in V; [exact V | lia].
Qed.

Lemma Qpow2_cancel (e : Z) : (inject_Z 2 ^ (- e) * 2 ^ (e - 1) == 1 # 2)%Q.
Proof.
  change (inject_Z 2) with 2%Q. rewrite <- Qpower_plus by easy.
  replace (- e + (e - 1)) with (-1) by lia. reflexivity.
Qed.

Lemma F2Q_half (z : Z) :
  0 <= z < 2 ^ 53 -> (F2Q (fdiv (Z2F z) F2) == z # 2)%Q.
Proof.
  intros [Lo Hi]. destruct (Z.eq_dec z 0) as [-> | N]; [reflexivity |].
  destruct (Z2F_finite_form z N ltac:(lia)) as [m [e [F [C [B V]]]]].
  replace (zsign z) with false in F by (unfold zsign; symmetry; apply Z.ltb_ge; lia).
  rewrite Z.abs_eq in V by lia.
  destruct (int_float_exponent z m e ltac:(lia) C V) as [He Hm].
  rewrite F, fdiv_two by (assumption || lia). cbn [F2Q].
  rewrite Hm, inject_Z_mult, Zpower_Qpower by lia.
  rewrite Qmult_1_l, <- Qmult_assoc, Qpow2_cancel.
  rewrite (Qmake_Qdiv z 2). reflexivity.
Qed.

(** ** The loop on numeric vertices *)

Lemma bind_ok {A B : Type} (r : result A) (k : A -> result B) (b : B) :
  bind r k = Ok b -> exists a, r = Ok a /\ k a = Ok b.
Proof. destruct r as [a | e]; cbn; [eauto | discriminate]. Qed.

Lemma num_below_cases (B : Z) (v : value) :
  num_below B v ->
  (exists f, as_number v = Some (NFloat f))
  \/ (exists z, as_number v = Some (NInt z) /\ Z.abs z < B).
Proof.
  unfold num_below. destruct (as_number v) as [[z | f] |]; intro H;
    [right | left | contradiction]; eauto.
Qed.

Lemma num_below_float (B : Z) (f : float) : num_below B (VFloat f).
Proof. exact I. Qed.

Lemma num_below_int (B z : Z) : Z.abs z < B -> num_below B (VInt z).
Proof. intro H. exact H. Qed.

(** An operation of the numeric tower on numbers in range returns, and its
    result is in the range the integer operation gives. *)
Lemma arith_ok (zop : Z -> Z -> Z) (fop : float -> float -> float)
  (B1 B2 B3 : Z) (a b : value) :
  num_below B1 a -> num_below B2 b ->
  B1 <= 2 ^ 1023 -> B2 <= 2 ^ 1023 ->
  (forall x y, Z.abs x < B1 -> Z.abs y < B2 -> Z.abs (zop x y) < B3) ->
  exists x y v,
    as_number a = Some x /\ as_number b = Some y
    /\ arith zop fop x y = Ok v /\ num_below B3 v.
Proof.
  intros Ha Hb H1 H2 Hz.
  destruct (num_below_cases _ _ Ha) as [[f Fa] | [x [Xa Bx]]];
    destruct (num_below_cases _ _ Hb) as [[g Fb] | [y [Yb By]]].
  - exists (NFloat f), (NFloat g), (VFloat (fop f g)). repeat split; auto.
  - exists (NFloat f), (NInt y), (VFloat (fop f (Z2F y))). repeat split; auto.
    cbn [arith]. now rewrite float_of_int_ok by lia.
  - exists (NInt x), (NFloat g), (VFloat (fop (Z2F x) g)). repeat split; auto.
    cbn [arith]. now rewrite float_of_int_ok by lia.
  - exists (NInt x), (NInt y), (VInt (zop x y)). repeat split; auto.
    apply num_below_int. now apply Hz.
Qed.

Lemma pow2_le (a b : Z) : 0 <= a <= b -> 2 ^ a <= 2 ^ b.
Proof. intro H. apply Z.pow_le_mono_r; lia. Qed.

Lemma py_mul_ok (a b : value) :
  coord_ok a -> coord_ok b ->
  exists v, py_mul a b = Ok v /\ num_below (2 ^ 1022) v.
Proof.
  intros Ha Hb.
  destruct (arith_ok Z.mul fmul (2 ^ 511) (2 ^ 511) (2 ^ 1022) a b Ha Hb)
    as [x [y [v [Xa [Yb [R V]]]]]]; try (apply pow2_le; lia).
  - intros x y Hx Hy. rewrite Z.abs_mul.
    change (2 ^ 1022) with (2 ^ 511 * 2 ^ 511).
    pose proof (Z.abs_nonneg x). pose proof (Z.abs_nonneg y). nia.
  - exists v. split; [| exact V]. unfold py_mul. now rewrite Xa, Yb.
Qed.

Lemma py_sub_ok (a b : value) :
  num_below (2 ^ 1022) a -> num_below (2 ^ 1022) b ->
  exists v, py_sub a b = Ok v /\ num_below (2 ^ 1023) v.
Proof.
  intros Ha Hb.
  destruct (arith_ok Z.sub fsub (2 ^ 1022) (2 ^ 1022) (2 ^ 1023) a b Ha Hb)
    as [x [y [v [Xa [Yb [R V]]]]]]; try (apply pow2_le; lia).
  - intros x y Hx Hy. change (2 ^ 1023) with (2 ^ 1022 + 2 ^ 1022). lia.
  - exists v. split; [| exact V]. unfold py_sub. now rewrite Xa, Yb.
Qed.

Lemma py_add_float_ok (f : float) (t : value) :
  num_below (2 ^ 1023) t -> exists f', py_add (VFloat f) t = Ok (VFloat f').
Proof.
  intro Ht. unfold py_add. cbn [as_number].
  destruct (num_below_cases _ _ Ht) as [[g ->] | [z [-> Bz]]]; cbn [arith].
  - eauto.
  - rewrite float_of_int_ok by assumption. cbn [bind]. eauto.
Qed.

Lemma getitem_Forall (P : value -> Prop) (l : list value) (i : nat) :
  Forall P l -> (i < List.length l)%nat -> exists p, getitem l i = Ok p /\ P p.
Proof.
  intros H Hi. unfold getitem.
  destruct (nth_error l i) as [p |] eqn:E.
  - exists p. split; [reflexivity |].
    rewrite Forall_forall in H. apply H. eapply nth_error_In; eauto.
  - apply nth_error_None in E. lia.
Qed.

Lemma shoelace_step_ok (points : list value) (f : float) (i : nat) :
  Forall vertex_ok points -> (i < List.length points)%nat ->
  exists f', shoelace_step points (List.length points) (VFloat f) i = Ok (VFloat f').
Proof.
  intros H Hi.
  assert (Hj : ((i + 1) mod List.length points < List.length points)%nat)
    by (apply Nat.mod_upper_bound; lia).
  destruct (getitem_Forall _ _ _ H Hi)
    as [p [Gp [dp [x1 [y1 [-> [X1 [Y1 [Cx1 Cy1]]]]]]]]].
  destruct (getitem_Forall _ _ _ H Hj)
    as [q [Gq [dq [x2 [y2 [-> [X2 [Y2 [Cx2 Cy2]]]]]]]]].
  unfold shoelace_step. rewrite Gp, Gq. cbn [bind subscript].
  rewrite X1, Y1, X2, Y2. cbn [bind].
  destruct (py_mul_ok x1 y2 Cx1 Cy2) as [a [-> Ba]].
  destruct (py_mul_ok y1 x2 Cy1 Cx2) as [b [-> Bb]]. cbn [bind].
  destruct (py_sub_ok a b Ba Bb) as [t [-> Bt]]. cbn [bind].
  now apply py_add_float_ok.
Qed.

Lemma shoelace_loop_ok (points : list value) (range : list nat) (f : float) :
  Forall vertex_ok points ->
  Forall (fun i => (i < List.length points)%nat) range ->
  exists f', shoelace_loop points (List.length points) (VFloat f) range
             = Ok (VFloat f').
Proof.
  intros H Hr. revert f. induction Hr as [| i range Hi Hr IH]; intro f.
  - cbn. eauto.
  - cbn [shoelace_loop].
    destruct (shoelace_step_ok points f i H Hi) as [f1 ->]. cbn [bind]. apply IH.
Qed.

(** The accumulator of the loop is a float throughout. *)
Lemma py_add_float_shape (f : float) (t v : value) :
  py_add (VFloat f) t = Ok v -> exists f', v = VFloat f'.
Proof.
  unfold py_add. cbn [as_number].
  destruct (as_number t) as [[z | g] |]; cbn [arith].
  - intro H. apply bind_ok in H. destruct H as [g [_ H]]. injection H as <-. eauto.
  - intro H. injection H as <-. eauto.
  - discriminate.
Qed.

Lemma shoelace_step_shape (points : list value) (n : nat) (f : float)
  (i : nat) (v : value) :
  shoelace_step points n (VFloat f) i = Ok v -> exists f', v = VFloat f'.
Proof.
  unfold shoelace_step. intro H.
  repeat (apply bind_ok in H; destruct H as [? [_ H]]).
  now apply py_add_float_shape in H.
Qed.

Lemma shoelace_loop_shape (points : list value) (n : nat) (range : list nat)
  (f : float) (v : value) :
  shoelace_loop points n (VFloat f) range = Ok v -> exists f', v = VFloat f'.
Proof.
  revert f. induction range as [| i range IH]; intros f H.
  - cbn in H. injection H as <-. eauto.
  - cbn [shoelace_loop] in H. apply bind_ok in H. destruct H as [s [Hs H]].
    apply shoelace_step_shape in Hs. destruct Hs as [f1 ->]. eapply IH; eauto.
Qed.

Lemma F0_nonneg : nonneg F0.
Proof. reflexivity. Qed.

(** Whatever the vertices, an area that is returned is a float whose sign
    bit is clear, or a NaN: [abs(s) / 2.0]. *)
Lemma shoelace_area_shape (points : list value) (v : value) :
  shoelace_area_px2 points = Ok v ->
  exists a, v = VFloat a /\ nonneg a
            /\ ((List.length points < 3)%nat -> a = F0).
Proof.
  unfold shoelace_area_px2.
  destruct (Nat.ltb_spec (List.length points) 3) as [Hn | Hn].
  - intro H. injection H as <-. exists F0. repeat split.
  - intro H. apply bind_ok in H. destruct H as [s [Hs H]].
    apply shoelace_loop_shape in Hs. destruct Hs as [f ->].
    cbn [py_abs as_number bind py_div_float is_zero F2] in H.
    injection H as <-. exists (fdiv (fabs f) F2). repeat split.
    + apply fdiv_nonneg. apply fabs_nonneg.
    + lia.
Qed.

Lemma shoelace_area_ok (points : list value) :
  (List.length points < 3)%nat \/ Forall vertex_ok points ->
  exists a, shoelace_area_px2 points = Ok (VFloat a).
Proof.
  intro H. unfold shoelace_area_px2.
  destruct (Nat.ltb_spec (List.length points) 3) as [Hn | Hn]; [eauto |].
  destruct H as [H | H]; [lia |].
  destruct (shoelace_loop_ok points (seq 0 (List.length points)) F0 H
              (seq_bounded _)) as [f ->].
  cbn [bind py_abs as_number py_div_float is_zero F2]. eauto.
Qed.

(** ** Rows *)

Lemma detection_area_shape (d : list (string * value)) (v : value) :
  detection_area d = Ok v -> exists a, v = VFloat a /\ nonneg a.
Proof.
  unfold detection_area. intro H.
  destruct (lookup "points" d) as [[| | | | | l |] |];
    try (injection H as <-; exists F0; split; reflexivity);
    apply shoelace_area_shape in H; destruct H as [a [-> [N _]]]; eauto.
Qed.

Lemma prediction_to_row_ok (d : list (string * value)) (a : float) :
  detection_area d = Ok (VFloat a) ->
  prediction_to_row (VDict d) = Ok (row_for d a).
Proof.
  unfold detection_area, prediction_to_row, py_get_default, row_for,
    detection_num_points.
  cbn [bind].
  destruct (lookup "points" d) as [[| | | | | l |] |]; intro H;
    try (injection H as <-; reflexivity);
    rewrite H; reflexivity.
Qed.

Lemma prediction_to_row_inv (p row : value) :
  prediction_to_row p = Ok row ->
  exists d a, p = VDict d /\ detection_area d = Ok (VFloat a) /\ nonneg a
              /\ row = row_for d a.
Proof.
  intro H. destruct p as [| | | | | | d]; try discriminate.
  exists d.
  assert (A : exists v, detection_area d = Ok v).
  { unfold prediction_to_row, py_get_default, detection_area in *.
    cbn [bind] in H.
    destruct (lookup "points" d) as [[| | | | | l |] |]; eauto;
      apply bind_ok in H; destruct H as [v [Hv _]]; eauto. }
  destruct A as [v Hv].
  destruct (detection_area_shape d v Hv) as [a [-> N]].
  exists a. rewrite (prediction_to_row_ok d a Hv) in H. injection H as <-.
  repeat split; assumption.
Qed.

Lemma detection_area_ok (d : list (string * value)) :
  points_ok d -> exists a, detection_area d = Ok (VFloat a).
Proof.
  unfold points_ok, detection_area.
  destruct (lookup "points" d) as [[| | | | | l |] |]; intro H;
    try (eexists; reflexivity).
  now apply shoelace_area_ok.
Qed.

(** ** Totals *)

Lemma rows_of_inv (preds rows : list value) :
  rows_of preds = Ok rows ->
  Forall2 (fun p r => exists d a, p = VDict d /\ nonneg a /\ r = row_for d a)
    preds rows.
Proof.
  revert rows. induction preds as [| p preds IH]; intros rows H.
  - injection H as <-. constructor.
  - cbn [rows_of] in H. apply bind_ok in H. destruct H as [r [Hr H]].
    apply bind_ok in H. destruct H as [rs [Hrs H]]. injection H as <-.
    constructor; [| now apply IH].
    destruct (prediction_to_row_inv p r Hr) as [d [a [-> [_ [N ->]]]]]. eauto.
Qed.

Lemma sum_from_floats (rows : list value) (k : string) (acc : float) :
  Forall (fun r => exists f, field r k = Some (VFloat f)) rows ->
  sum_from (VFloat acc) rows k
  = Ok (VFloat (fold_left fadd (float_column k rows) acc)).
Proof.
  intro H. revert acc. induction H as [| r rows [f Hf] H IH]; intro acc.
  - reflexivity.
  - cbn [sum_from float_column map fold_left]. rewrite Hf.
    destruct r as [| | | | | | rr]; try discriminate. cbn [field] in Hf.
    cbn [subscript]. rewrite Hf. cbn [bind py_add as_number arith].
    apply IH.
Qed.

Lemma sum_field_floats (rows : list value) (k : string) :
  Forall (fun r => exists f, field r k = Some (VFloat f)) rows ->
  sum_field rows k = Ok (float_total (float_column k rows)).
Proof.
  intro H. unfold sum_field. destruct H as [| r rows [f Hf] H]; [reflexivity |].
  cbn [sum_from float_column map float_total]. rewrite Hf.
  destruct r as [| | | | | | rr]; try discriminate. cbn [field] in Hf.
  cbn [subscript]. rewrite Hf.
  change (py_add (VInt 0) (VFloat f)) with (Ok (VFloat (fadd F0 f))).
  cbn [bind]. now apply sum_from_floats.
Qed.

Lemma row_for_fields (d : list (string * value)) (a : float) :
  Forall (fun k => exists f, field (row_for d a) k = Some (VFloat f)) derived.
Proof. repeat constructor; eexists; reflexivity. Qed.

Lemma fold_fadd_nonneg (fs : list float) (acc : float) :
  nonneg acc -> Forall nonneg fs -> nonneg (fold_left fadd fs acc).
Proof.
  intros Ha H. revert acc Ha. induction H as [| f fs Hf H IH]; intros acc Ha.
  - exact Ha.
  - cbn [fold_left]. apply IH. now apply fadd_nonneg.
Qed.

(** ** Masses *)

Lemma PX2_TO_KG_mantissa : 2 ^ 52 <= Zpos 0x1f75104d551d69 < 2 ^ 53.
Proof. split; [discriminate | reflexivity]. Qed.

Lemma base_cases (a : float) :
  nonneg a ->
  fmul a PX2_TO_KG = S754_nan
  \/ fmul a PX2_TO_KG = S754_zero false
  \/ fmul a PX2_TO_KG = S754_infinity false
  \/ exists m e, fmul a PX2_TO_KG = S754_finite false m e
                 /\ canonical m e /\ e <= 971.
Proof.
  destruct a as [s | s | | s m e]; cbn [nonneg]; intro H; subst; auto.
  destruct (fmul_rounds m 0x1f75104d551d69 e (-66) PX2_TO_KG_mantissa)
    as [_ [r [_ [_ R]]]].
  change (SFmul prec emax (S754_finite false m e) (S754_finite false _ (-66)))
    with (fmul (S754_finite false m e) PX2_TO_KG) in R.
  destruct R as [Z0 | m' e' C L B V | m' e' C L B V]; eauto 10.
Qed.

Lemma least_subnormal_mantissa (m : positive) (e : Z) :
  canonical m e -> S754_finite false m e <> least_subnormal -> Zpos m <> 1.
Proof.
  intros C N Hm. apply N. injection Hm as ->. unfold least_subnormal. f_equal.
  unfold canonical, fexp64 in C. cbn [digits2_pos] in C. lia.
Qed.

(** The three masses of a base mass: ordered unless the base is a NaN,
    strictly when nothing underflows or overflows. *)
Lemma masses_order (a : float) :
  nonneg a ->
  let base := fmul a PX2_TO_KG in
  let low := fmul base LOW_MULT in
  let moderate := fmul base MOD_MULT in
  let high := fmul base HIGH_MULT in
  (is_nan base = false -> fleb low moderate = true /\ fleb moderate high = true)
  /\ (is_zero base = true ->
      is_zero low = true /\ is_zero moderate = true /\ is_zero high = true)
  /\ (is_zero base = false -> base <> least_subnormal -> is_finite high = true ->
      fltb low moderate = true /\ fltb moderate high = true).
Proof.
  intros Ha base low moderate high.
  destruct (base_cases a Ha) as [E | [E | [E | [m [e [E [C B]]]]]]];
    subst low moderate high; fold base in E; rewrite E.
  - repeat split; discriminate.
  - repeat split; try reflexivity; discriminate.
  - repeat split; try reflexivity; discriminate.
  - destruct (multipliers_order m e C B) as [L [LM [MH S]]]. cbv zeta in L, LM, MH, S.
    rewrite L. split; [intros _; split; assumption |].
    split; [discriminate |].
    intros _ N F. apply S.
    + now apply (least_subnormal_mantissa m e).
    + intro I. rewrite I in F. discriminate.
Qed.

Lemma nonneg_never_negative (f : float) : nonneg f -> never_negative (VFloat f).
Proof.
  intro H. split; cbn [lt_zero ge_zero value_is_nan].
  - now apply nonneg_not_lt.
  - intro N. apply nonneg_le; [assumption |]. intro E. rewrite E in N. discriminate.
Qed.

Lemma mass_nonneg (a : float) (mc : positive) (ec : Z) :
  nonneg a -> nonneg (fmul (fmul a PX2_TO_KG) (S754_finite false mc ec)).
Proof. intro H. apply fmul_nonneg. now apply (fmul_nonneg a 0x1f75104d551d69 (-66)). Qed.

Lemma row_for_never_negative (d : list (string * value)) (a : float) :
  nonneg a ->
  Forall (fun k => exists v, field (row_for d a) k = Some v /\ never_negative v)
    derived.
Proof.
  intro H. repeat constructor; eexists; (split; [reflexivity |]);
    apply nonneg_never_negative; try assumption; now apply mass_nonneg.
Qed.

Lemma row_for_column_nonneg (k : string) (rows : list value) :
  In k derived ->
  Forall (fun r => exists d a, nonneg a /\ r = row_for d a) rows ->
  Forall nonneg (float_column k rows).
Proof.
  intros Hk H. induction H as [| r rows [d [a [N ->]]] H IH]; constructor; auto.
  cbn in Hk. destruct Hk as [<- | [<- | [<- | [<- | []]]]]; cbn;
    try assumption; now apply mass_nonneg.
Qed.

Lemma float_total_never_negative (fs : list float) :
  Forall nonneg fs -> never_negative (float_total fs).
Proof.
  intro H. destruct H as [| f fs Hf H]; [split; reflexivity |].
  cbn [float_total]. apply nonneg_never_negative. apply fold_fadd_nonneg; auto.
  apply fadd_nonneg; [reflexivity | assumption].
Qed.

Lemma rows_fields (rows : list value) (k : string) :
  In k derived ->
  Forall (fun r => exists d a, nonneg a /\ r = row_for d a) rows ->
  Forall (fun r => exists f, field r k = Some (VFloat f)) rows.
Proof.
  intros Hk H. induction H as [| r rows [d [a [N ->]]] H IH]; constructor; auto.
  cbn in Hk. destruct Hk as [<- | [<- | [<- | [<- | []]]]]; eexists; reflexivity.
Qed.

Lemma totals_row_spec (rows : list value) :
  Forall (fun r => exists d a, nonneg a /\ r = row_for d a) rows ->
  totals_row rows
  = Ok (totals_of (float_total (float_column "area_px2" rows))
          (float_total (float_column "mass_low_kg" rows))
          (float_total (float_column "mass_mod_kg" rows))
          (float_total (float_column "mass_high_kg" rows))).
Proof.
  intro H. unfold totals_row.
  rewrite !sum_field_floats by (apply rows_fields; [cbn; tauto | assumption]).
  reflexivity.
Qed.

Lemma rows_of_rows (preds rows : list value) :
  rows_of preds = Ok rows ->
  Forall (fun r => exists d a, nonneg a /\ r = row_for d a) rows.
Proof.
  intro H. apply rows_of_inv in H.
  induction H as [| p r preds rows [d [a [_ [N ->]]]] H IH]; constructor; eauto.
Qed.

Lemma rows_never_negative (rows : list value) :
  Forall (fun r => exists d a, nonneg a /\ r = row_for d a) rows ->
  Forall (fun r =>
            Forall (fun k => exists v, field r k = Some v /\ never_negative v)
              derived) rows.
Proof.
  intro H. induction H as [| r rows [d [a [N ->]]] H IH]; [constructor |].
  constructor; [now apply row_for_never_negative | exact IH].
Qed.

(** ** Sums of halves of integers are exact *)

Lemma half_zero : half 0 = F0.
Proof. reflexivity. Qed.

Lemma half_form (n : Z) :
  0 < n < 2 ^ 53 ->
  exists m e, half n = S754_finite false m e /\ canonical m e /\ e <= 971
              /\ val m e = n * 2 ^ 1073.
Proof.
  intros [Lo Hi].
  destruct (Z2F_finite_form n ltac:(lia) ltac:(lia)) as [m [e [F [C [B V]]]]].
  replace (zsign n) with false in F by (unfold zsign; symmetry; apply Z.ltb_ge; lia).
  rewrite Z.abs_eq in V by lia.
  destruct (int_float_exponent n m e ltac:(lia) C V) as [He Hm].
  exists m, (e - 1). unfold half. rewrite F, fdiv_two by (assumption || lia).
  split; [reflexivity |].
  pose proof (canonical_normal_digits m e C ltac:(lia)) as D.
  split; [unfold canonical, fexp64; lia |]. split; [lia |].
  unfold val in *. replace (e + 1074) with ((e - 1 + 1074) + 1) in V by lia.
  rewrite Z.pow_add_r in V by lia.
  change (2 ^ 1074) with (2 ^ 1073 * 2 ^ 1) in V. lia.
Qed.

Lemma half_ulp_divides (z : Z) :
  0 < z < 2 ^ 53 ->
  (z * 2 ^ 1073) mod 2 ^ (fexp64 (Zdigits2 (z * 2 ^ 1073) - 1074) + 1074) = 0.
Proof.
  intros [Lo Hi]. rewrite Zdigits2_mul_pow by lia.
  pose proof (Zdigits2_pos_val z Lo) as [Dlo Dhi].
  set (d := Zdigits2 z) in *.
  assert (D : d <= 53).
  { destruct (Z.le_gt_cases d 53); [assumption |].
    assert (2 ^ 53 <= 2 ^ (d - 1)) by (apply Z.pow_le_mono_r; lia). lia. }
  assert (D0 : 0 < d) by (subst d; destruct z; simpl; lia).
  replace (d + 1073 - 1074) with (d - 1) by lia.
  set (E := fexp64 (d - 1)).
  assert (HE : -1074 <= E <= -1) by (subst E; unfold fexp64; lia).
  replace 1073 with ((- E - 1) + (E + 1074)) at 1 by lia.
  rewrite Z.pow_add_r, Z.mul_assoc by lia. apply Z.mod_mul.
  apply Z.pow_nonzero; lia.
Qed.

Lemma fadd_half (a b : Z) :
  0 <= a -> 0 <= b -> a + b < 2 ^ 53 -> fadd (half a) (half b) = half (a + b).
Proof.
  intros Ha Hb Hab.
  destruct (Z.eq_dec a 0) as [-> | Na]; destruct (Z.eq_dec b 0) as [-> | Nb].
  - reflexivity.
  - rewrite Z.add_0_l, half_zero.
    destruct (half_form b ltac:(lia)) as [m [e [-> _]]]. reflexivity.
  - rewrite Z.add_0_r, half_zero.
    destruct (half_form a ltac:(lia)) as [m [e [-> _]]]. reflexivity.
  - destruct (half_form a ltac:(lia)) as [ma [ea [Fa [Ca [_ Va]]]]].
    destruct (half_form b ltac:(lia)) as [mb [eb [Fb [Cb [_ Vb]]]]].
    destruct (half_form (a + b) ltac:(lia)) as [mc [ec [Fc [Cc [Bc Vc]]]]].
    rewrite Fa, Fb, Fc.
    destruct (fadd_exact false false ma mb ea eb Ca Cb) as [_ Hnz].
    unfold sval in Hnz. cbn [cond_Zopp] in Hnz. rewrite Va, Vb in Hnz.
    assert (P : 0 < 2 ^ 1073) by (apply pow2_pos; lia).
    replace (a * 2 ^ 1073 + b * 2 ^ 1073) with ((a + b) * 2 ^ 1073) in Hnz by ring.
    assert (Pos : 0 < (a + b) * 2 ^ 1073) by nia.
    rewrite (Z.abs_eq ((a + b) * 2 ^ 1073)) in Hnz by lia.
    replace (zsign ((a + b) * 2 ^ 1073)) with false in Hnz
      by (unfold zsign; symmetry; apply Z.ltb_ge; lia).
    apply (exact_rep_unique false ((a + b) * 2 ^ 1073)).
    + apply Hnz; [lia |]. apply half_ulp_divides. lia.
    + rewrite <- Vc. now apply exact_rep_of_finite.
Qed.

Lemma zsum_nonneg (ns : list Z) : Forall (fun n => 0 <= n) ns -> 0 <= zsum ns.
Proof.
  induction 1 as [| n ns Hn H IH]; cbn; [lia |]. fold (zsum ns). lia.
Qed.

Lemma fold_fadd_half (ns : list Z) (acc : Z) :
  0 <= acc -> Forall (fun n => 0 <= n) ns -> acc + zsum ns < 2 ^ 53 ->
  fold_left fadd (map half ns) (half acc) = half (acc + zsum ns).
Proof.
  intros Ha H. revert acc Ha. induction H as [| n ns Hn H IH]; intros acc Ha B.
  - cbn. now rewrite Z.add_0_r.
  - cbn [map fold_left]. cbn [zsum fold_right] in B. fold (zsum ns) in B.
    pose proof (zsum_nonneg ns H).
    rewrite fadd_half by lia. rewrite IH by lia.
    f_equal. change (zsum (n :: ns)) with (n + zsum ns). lia.
Qed.

Lemma float_total_halves (ns : list Z) :
  ns <> [] -> Forall (fun n => 0 <= n) ns -> zsum ns < 2 ^ 53 ->
  float_total (map half ns) = VFloat (half (zsum ns)).
Proof.
  intros N H B. destruct ns as [| n ns]; [congruence |].
  cbn [map float_total]. f_equal.
  inversion H as [| n' ns' Hn Hns]; subst.
  cbn [zsum fold_right] in *. fold (zsum ns) in *.
  pose proof (zsum_nonneg ns Hns).
  change F0 with (half 0). rewrite fadd_half by lia.
  rewrite Z.add_0_l. exact (fold_fadd_half ns n Hn Hns B).
Qed.

Lemma area_column_halves (rows : list value) (ns : list Z) :
  Forall2 (fun r n => field r "area_px2" = Some (VFloat (half n)) /\ 0 <= n)
    rows ns ->
  float_column "area_px2" rows = map half ns /\ Forall (fun n => 0 <= n) ns.
Proof.
  induction 1 as [| r n rows ns [Hr Hn] H [IH1 IH2]]; [split; constructor |].
  cbn [float_column map]. rewrite Hr. split; [| now constructor].
  f_equal. exact IH1.
Qed.

(** * The specification, statement by statement *)

(** ** The extractor *)

(** C2.  A dictionary with a key "predictions" holding a list yields the
    elements of that list in order, whatever its other keys hold, and the
    five shapes of the specification yield what it lists. *)
Theorem iter_prediction_objects_shapes :
  (forall d l,
      lookup "predictions" d = Some (VList l) ->
      iter_prediction_objects (VDict d) = (l, None))
  /\ (forall p1 p2,
         iter_prediction_objects (VDict [("predictions", VList [p1; p2])])
         = ([p1; p2], None))
  /\ (forall p1 p2 p3,
         iter_prediction_objects
           (VList [ VDict [("predictions", VList [p1])];
                    VDict [("predictions", VList [p2; p3])] ])
         = ([p1; p2; p3], None))
  /\ (forall p1,
         iter_prediction_objects
           (VDict [("outputs", VList [VDict [("predictions", VList [p1])]])])
         = ([p1], None))
  /\ iter_prediction_objects (VDict []) = ([], None)
  /\ (forall p1,
         iter_prediction_objects
           (VDict [("foo", VDict [("predictions", VList [p1])])])
         = ([p1], None)).
Proof.
  repeat split; intros; try reflexivity.
  simpl. rewrite H. reflexivity.
Qed.

Lemma iter_prediction_objects_shapes_witness :
  iter_prediction_objects
    (VDict [ ("image", VStr "a.jpg");
             ("outputs", VList [VDict [("predictions", VList [VInt 7])]]);
             ("predictions", VList [VInt 1; VInt 2]) ])
  = ([VInt 1; VInt 2], None).
Proof.
  apply (proj1 iter_prediction_objects_shapes). reflexivity.
Defined.

(** C4.  An element of "outputs" whose "predictions" is not iterable ends
    the generator with a [TypeError]: the first rule checks that
    "predictions" is a list, the second one does not. *)
Theorem iter_prediction_objects_outputs_raises :
  iter_prediction_objects
    (VDict [("outputs", VList [VDict [("predictions", VInt 5)]])])
  = ([], Some TypeError)
  /\ iter_prediction_objects (VDict [("predictions", VInt 5)]) = ([], None).
Proof. split; reflexivity. Qed.

(** ** The area formula *)

(** C1, as stated, fails: a triangle with an integer coordinate beyond the
    binary64 range has numeric entries, and [shoelace_area_px2] raises
    [OverflowError] on it instead of returning the formula. *)
Lemma shoelace_area_huge_int_raises :
  shoelace_area_px2 [vertex (10 ^ 400, 0); vertex (0, 1); vertex (0, 0)]
  = Raise OverflowError.
Proof. vm_compute. reflexivity. Qed.

(** C1, amended.  A list of fewer than three points has area [0.0].  On
    three or more vertices with integer coordinates whose cross terms sum,
    in magnitude, to less than [2^53], the area is exactly
    [|sum_i (x_i * y_(i+1) - y_i * x_(i+1))| / 2], indices modulo [n].  On
    three or more vertices with float coordinates it is the same formula
    in binary64, the sum taken from [0.0] in the order of the indices.  On
    three or more vertices whose coordinates are floats, or integers below
    [2^511] in magnitude, the loop returns a float [s] and the area is
    [abs(s) / 2.0]. *)
Theorem shoelace_area_px2_formula :
  (forall points,
      (List.length points < 3)%nat ->
      shoelace_area_px2 points = Ok (VFloat F0))
  /\ (forall points pts,
         Forall2 int_vertex points pts ->
         (3 <= List.length pts)%nat ->
         cross_mass pts < 2 ^ 53 ->
         exists a,
           shoelace_area_px2 points = Ok (VFloat a)
           /\ a = fdiv (Z2F (Z.abs (shoelace_sum pts))) F2
           /\ (F2Q a == Z.abs (shoelace_sum pts) # 2)%Q)
  /\ (forall points pts,
         Forall2 float_vertex points pts ->
         (3 <= List.length pts)%nat ->
         shoelace_area_px2 points
         = Ok (VFloat (fdiv (fabs (float_shoelace_sum pts)) F2)))
  /\ (forall points,
         (3 <= List.length points)%nat ->
         Forall vertex_ok points ->
         exists s,
           shoelace_loop points (List.length points) (VFloat F0)
             (seq 0 (List.length points)) = Ok (VFloat s)
           /\ shoelace_area_px2 points = Ok (VFloat (fdiv (fabs s) F2))).
Proof.
  split; [| split; [| split]].
  - intros points H. unfold shoelace_area_px2.
    destruct (Nat.ltb_spec (List.length points) 3); [reflexivity | lia].
  - intros points pts H Hn Hb.
    exists (fdiv (Z2F (Z.abs (shoelace_sum pts))) F2).
    rewrite (shoelace_area_int points pts H Hb).
    destruct (Nat.ltb_spec (List.length pts) 3); [lia |].
    repeat split. apply F2Q_half.
    pose proof (shoelace_sum_bound pts). lia.
  - intros points pts H Hn. now apply shoelace_area_float.
  - intros points Hn H.
    destruct (shoelace_loop_ok points (seq 0 (List.length points)) F0 H
                (seq_bounded _)) as [s Hs].
    exists s. split; [exact Hs |]. unfold shoelace_area_px2.
    destruct (Nat.ltb_spec (List.length points) 3); [lia |].
    rewrite Hs. reflexivity.
Qed.

Lemma shoelace_area_px2_formula_witness :
  exists a,
    shoelace_area_px2 (map vertex example_polygon) = Ok (VFloat a)
    /\ a = fdiv (Z2F (Z.abs (shoelace_sum example_polygon))) F2
    /\ (F2Q a == Z.abs (shoelace_sum example_polygon) # 2)%Q.
Proof.
  apply (proj1 (proj2 shoelace_area_px2_formula)).
  - apply Forall2_int_vertex_map.
  - simpl. lia.
  - vm_compute. reflexivity.
Defined.

(** C8, as stated, fails: the sum is accumulated in binary64.  The
    triangle (1.1, 2.2), (3.3, 4.4), (5.5, 1.6) has area 5.499999999999999,
    and 5.5 when the list starts at its second vertex; with integers, the
    triangle (1, 0), (-1, 2^53), (0, -1) has area 4503599627370496.0, and
    4503599627370497.0 when the list starts at its second vertex. *)
Lemma shoelace_area_rotation_rounds :
  shoelace_area_px2
    [ point (VFloat (decimal 33 1)) (VFloat (decimal 44 1));
      point (VFloat (decimal 55 1)) (VFloat (decimal 16 1));
      point (VFloat (decimal 11 1)) (VFloat (decimal 22 1)) ]
  <> shoelace_area_px2
       [ point (VFloat (decimal 11 1)) (VFloat (decimal 22 1));
         point (VFloat (decimal 33 1)) (VFloat (decimal 44 1));
         point (VFloat (decimal 55 1)) (VFloat (decimal 16 1)) ]
  /\ shoelace_area_px2 (map vertex [(-1, 2 ^ 53); (0, -1); (1, 0)])
     <> shoelace_area_px2 (map vertex [(1, 0); (-1, 2 ^ 53); (0, -1)]).
Proof. split; vm_compute; discriminate. Qed.

(** C8, amended.  On vertices with integer coordinates whose cross terms
    sum, in magnitude, to less than [2^53], the area of the reversed list
    and of every cyclic rotation is the area of the list; the unit square
    has area [1.0] from every starting vertex in both directions. *)
Theorem shoelace_area_px2_invariance :
  (forall points pts,
      Forall2 int_vertex points pts ->
      cross_mass pts < 2 ^ 53 ->
      shoelace_area_px2 (rev points) = shoelace_area_px2 points
      /\ (forall l1 l2,
             points = l1 ++ l2 ->
             shoelace_area_px2 (l2 ++ l1) = shoelace_area_px2 points))
  /\ Forall (fun l => shoelace_area_px2 (map vertex l) = Ok (VFloat (Z2F 1)))
       unit_square_listings.
Proof.
  split.
  - intros points pts H Hb. split.
    + rewrite (shoelace_area_int (rev points) (rev pts))
        by (try apply Forall2_rev_lists; try rewrite cross_mass_rev; assumption).
      rewrite (shoelace_area_int points pts H Hb).
      now rewrite length_rev, shoelace_sum_rev, Z.abs_opp.
    + intros l1 l2 ->. apply Forall2_app_inv_l in H.
      destruct H as [p1 [p2 [H1 [H2 ->]]]].
      rewrite (shoelace_area_int (l2 ++ l1) (p2 ++ p1))
        by (try apply Forall2_app; try rewrite cross_mass_rotate; assumption).
      rewrite (shoelace_area_int (l1 ++ l2) (p1 ++ p2))
        by (try apply Forall2_app; assumption).
      rewrite shoelace_sum_rotate. rewrite !length_app.
      now rewrite Nat.add_comm.
  - repeat constructor.
Qed.

Lemma shoelace_area_px2_invariance_witness :
  shoelace_area_px2 (rev (map vertex [(0, 0); (4, 0); (4, 3)]))
  = shoelace_area_px2 (map vertex [(0, 0); (4, 0); (4, 3)])
  /\ shoelace_area_px2 (map vertex [(4, 0); (4, 3)] ++ map vertex [(0, 0)])
     = shoelace_area_px2 (map vertex [(0, 0); (4, 0); (4, 3)]).
Proof.
  destruct (proj1 shoelace_area_px2_invariance
              (map vertex [(0, 0); (4, 0); (4, 3)]) [(0, 0); (4, 0); (4, 3)])
    as [R T].
  - apply Forall2_int_vertex_map.
  - vm_compute. reflexivity.
  - split; [exact R |]. apply (T (map vertex [(0, 0)]) (map vertex [(4, 0); (4, 3)])).
    reflexivity.
Defined.

(** ** Rows *)

(** C3, as stated, fails: vertices that are not mappings make
    [prediction_to_row] raise [TypeError]. *)
Lemma prediction_to_row_bad_vertices_raise :
  prediction_to_row (VDict [("points", VList [VInt 1; VInt 2; VInt 3])])
  = Raise TypeError.
Proof. reflexivity. Qed.

(** C3, amended.  [prediction_to_row] returns a row for every detection
    mapping whose "points" is missing, is not a list, is a list of fewer
    than three entries of any kind, or is a list of mappings with "x" and
    "y" entries that are floats or integers below [2^511] in magnitude; a
    missing or non-list "points" gives area [0.0] and no points. *)
Theorem prediction_to_row_total (d : list (string * value)) :
  points_ok d ->
  exists a,
    prediction_to_row (VDict d) = Ok (row_for d a)
    /\ ((forall l, lookup "points" d <> Some (VList l)) ->
        a = F0 /\ detection_num_points d = 0).
Proof.
  intro H. destruct (detection_area_ok d H) as [a Ha].
  exists a. split; [now apply prediction_to_row_ok |].
  intro N. unfold detection_area, detection_num_points in *.
  destruct (lookup "points" d) as [[| | | | | l |] |];
    try (injection Ha as <-; split; reflexivity).
  now destruct (N l).
Qed.

Lemma prediction_to_row_total_witness :
  exists a,
    prediction_to_row (VDict example_fields) = Ok (row_for example_fields a)
    /\ ((forall l, lookup "points" example_fields <> Some (VList l)) ->
        a = F0 /\ detection_num_points example_fields = 0).
Proof.
  apply (prediction_to_row_total example_fields).
  right. repeat (constructor; [do 3 eexists; repeat split; vm_compute; reflexivity |]).
  constructor.
Defined.

(** C7.  Each pass-through column of a row holds the value of the
    detection's key, whatever it is; a key the detection does not have
    gives [None], which is not a zero. *)
Theorem prediction_to_row_passthrough (d : list (string * value)) (row : value) :
  prediction_to_row (VDict d) = Ok row ->
  Forall (fun ks =>
            (forall v, lookup (snd ks) d = Some v -> field row (fst ks) = Some v)
            /\ (lookup (snd ks) d = None -> field row (fst ks) = Some VNone))
    passthrough
  /\ VNone <> VInt 0 /\ VNone <> VFloat F0.
Proof.
  intro H. apply prediction_to_row_inv in H.
  destruct H as [d' [a [E [_ [_ ->]]]]]. injection E as <-.
  split; [| split; discriminate].
  repeat constructor; cbn [fst snd field row_for lookup String.eqb Ascii.eqb Bool.eqb];
    unfold dict_get; try (intros v ->; reflexivity); try (intros ->; reflexivity).
Qed.

Lemma prediction_to_row_passthrough_witness :
  Forall (fun ks =>
            (forall v, lookup (snd ks) example_fields = Some v ->
                       field (row_for example_fields (Z2F 100)) (fst ks) = Some v)
            /\ (lookup (snd ks) example_fields = None ->
                field (row_for example_fields (Z2F 100)) (fst ks) = Some VNone))
    passthrough
  /\ VNone <> VInt 0 /\ VNone <> VFloat F0.
Proof.
  apply (prediction_to_row_passthrough example_fields).
  vm_compute. reflexivity.
Defined.

(** C6, as stated, fails: coordinates of 2.0 ** 600 make the cross
    products overflow, the area is a NaN, so are the three masses, and
    [low <= moderate] is false. *)
Lemma masses_of_nan_unordered :
  exists r low moderate,
    build_rows overflow_document = Ok [r]
    /\ field r "mass_low_kg" = Some (VFloat low)
    /\ field r "mass_mod_kg" = Some (VFloat moderate)
    /\ fleb low moderate = false.
Proof. do 3 eexists. vm_compute. repeat split. Qed.

(** C6, amended.  The three masses of a row are [base * 1.0],
    [base * 1.5] and [base * 2.0] for [base = area * PX2_TO_KG], rounded
    as binary64 products.  They are ordered low <= moderate <= high unless
    the base is a NaN, all zero when the base is zero, and strictly
    ordered when the base is not zero, is not the least subnormal, and the
    high mass is finite. *)
Theorem prediction_to_row_masses (d : list (string * value)) (row : value) :
  prediction_to_row (VDict d) = Ok row ->
  exists area base low moderate high,
    field row "area_px2" = Some (VFloat area)
    /\ base = fmul area PX2_TO_KG
    /\ field row "mass_low_kg" = Some (VFloat low) /\ low = fmul base LOW_MULT
    /\ field row "mass_mod_kg" = Some (VFloat moderate)
    /\ moderate = fmul base MOD_MULT
    /\ field row "mass_high_kg" = Some (VFloat high) /\ high = fmul base HIGH_MULT
    /\ (is_nan base = false ->
        fleb low moderate = true /\ fleb moderate high = true)
    /\ (is_zero base = true ->
        is_zero low = true /\ is_zero moderate = true /\ is_zero high = true)
    /\ (is_zero base = false -> base <> least_subnormal -> is_finite high = true ->
        fltb low moderate = true /\ fltb moderate high = true).
Proof.
  intro H. apply prediction_to_row_inv in H.
  destruct H as [d' [a [E [_ [N ->]]]]]. injection E as <-.
  exists a, (fmul a PX2_TO_KG), (fmul (fmul a PX2_TO_KG) LOW_MULT),
    (fmul (fmul a PX2_TO_KG) MOD_MULT), (fmul (fmul a PX2_TO_KG) HIGH_MULT).
  pose proof (masses_order a N) as M. cbv zeta in M.
  repeat (split; [reflexivity |]). exact M.
Qed.

Lemma prediction_to_row_masses_witness :
  exists area base low moderate high,
    field (row_for example_fields (Z2F 100)) "area_px2" = Some (VFloat area)
    /\ base = fmul area PX2_TO_KG
    /\ field (row_for example_fields (Z2F 100)) "mass_low_kg" = Some (VFloat low)
    /\ low = fmul base LOW_MULT
    /\ field (row_for example_fields (Z2F 100)) "mass_mod_kg"
       = Some (VFloat moderate)
    /\ moderate = fmul base MOD_MULT
    /\ field (row_for example_fields (Z2F 100)) "mass_high_kg"
       = Some (VFloat high)
    /\ high = fmul base HIGH_MULT
    /\ (is_nan base = false ->
        fleb low moderate = true /\ fleb moderate high = true)
    /\ (is_zero base = true ->
        is_zero low = true /\ is_zero moderate = true /\ is_zero high = true)
    /\ (is_zero base = false -> base <> least_subnormal -> is_finite high = true ->
        fltb low moderate = true /\ fltb moderate high = true).
Proof.
  apply (prediction_to_row_masses example_fields). vm_compute. reflexivity.
Defined.

(** ** The report *)

(** C5, as stated, fails: the low masses of three detections of the
    example are [0.012] each, and their total is [0.036000000000000004],
    which is not their arithmetic sum (no float is). *)
Lemma totals_row_of_three_rounds :
  exists t,
    json_predictions_to_csv three_examples true
    = Ok [ row_for example_fields (Z2F 100); row_for example_fields (Z2F 100);
           row_for example_fields (Z2F 100); t ]
    /\ field (row_for example_fields (Z2F 100)) "mass_low_kg"
       = Some (VFloat low_example)
    /\ field t "mass_low_kg" = Some (VFloat low_total_of_three)
    /\ ~ (F2Q low_total_of_three
          == F2Q low_example + F2Q low_example + F2Q low_example)%Q.
Proof.
  eexists. split; [vm_compute; reflexivity |].
  split; [vm_compute; reflexivity |]. split; [vm_compute; reflexivity |].
  unfold Qeq. vm_compute. discriminate.
Qed.

(** C5.  For the rows of a run, every derived entry is a float and each
    of the four totals is Python's [sum] of its column: the integer [0]
    when there is no row, otherwise the float accumulated from [0] left to
    right in the order of the rows, each addition rounded to binary64.
    Where the additions are exact the total is the arithmetic sum: when
    the areas are the halves of integers [n_i >= 0] that sum to less than
    [2^53], the total area is exactly half their sum. *)
Theorem totals_row_sums (preds rows : list value) :
  rows_of preds = Ok rows ->
  Forall (fun r =>
            Forall (fun k => exists f, field r k = Some (VFloat f)) derived) rows
  /\ totals_row rows
     = Ok (totals_of (float_total (float_column "area_px2" rows))
             (float_total (float_column "mass_low_kg" rows))
             (float_total (float_column "mass_mod_kg" rows))
             (float_total (float_column "mass_high_kg" rows)))
  /\ totals_row [] = Ok (totals_of (VInt 0) (VInt 0) (VInt 0) (VInt 0))
  /\ (forall ns,
         Forall2 (fun r n =>
                    field r "area_px2" = Some (VFloat (half n)) /\ 0 <= n)
           rows ns ->
         rows <> [] -> zsum ns < 2 ^ 53 ->
         float_total (float_column "area_px2" rows) = VFloat (half (zsum ns))
         /\ (F2Q (half (zsum ns)) == zsum ns # 2)%Q).
Proof.
  intro H. apply rows_of_rows in H. split; [| split; [| split]].
  - induction H as [| r rows [d [a [_ ->]]] H IH]; constructor; auto.
    apply row_for_fields.
  - now apply totals_row_spec.
  - reflexivity.
  - intros ns A N B. destruct (area_column_halves rows ns A) as [E P].
    rewrite E. split.
    + apply float_total_halves; try assumption.
      intros ->. inversion A. congruence.
    + apply F2Q_half. pose proof (zsum_nonneg ns P). lia.
Qed.

Lemma totals_row_sums_witness :
  totals_row [row_for example_fields (Z2F 100); row_for [] F0]
  = Ok (totals_of
          (float_total
             (float_column "area_px2"
                [row_for example_fields (Z2F 100); row_for [] F0]))
          (float_total
             (float_column "mass_low_kg"
                [row_for example_fields (Z2F 100); row_for [] F0]))
          (float_total
             (float_column "mass_mod_kg"
                [row_for example_fields (Z2F 100); row_for [] F0]))
          (float_total
             (float_column "mass_high_kg"
                [row_for example_fields (Z2F 100); row_for [] F0])))
  /\ float_total
       (float_column "area_px2" [row_for example_fields (Z2F 100); row_for [] F0])
     = VFloat (half (zsum [200; 0]))
  /\ (F2Q (half (zsum [200%Z; 0%Z])) == zsum [200%Z; 0%Z] # 2)%Q.
Proof.
  destruct (totals_row_sums [example_detection; VDict []]
              [row_for example_fields (Z2F 100); row_for [] F0])
    as [_ [T [_ X]]]; [vm_compute; reflexivity |].
  split; [exact T |].
  apply (X [200; 0]).
  - constructor; [split; [vm_compute; reflexivity | lia] |].
    constructor; [split; [vm_compute; reflexivity | lia] | constructor].
  - discriminate.
  - vm_compute. reflexivity.
Defined.

(** C9, as stated, fails: the moderate mass of the example is
    [0.012 * 1.5] rounded, which is 0.018000000000000002 and not 0.018. *)
Lemma end_to_end_moderate_mass_rounds :
  exists r,
    build_rows example_document = Ok [r]
    /\ field r "mass_mod_kg" <> Some (VFloat (decimal 18 3)).
Proof.
  eexists. split; [vm_compute; reflexivity | vm_compute; discriminate].
Qed.

(** C9, amended.  The example document gives exactly one row, with area
    100.0, low mass 0.012, moderate mass 0.018000000000000002 (the float
    next above 0.018) and high mass 0.024. *)
Theorem end_to_end_example :
  exists r,
    build_rows example_document = Ok [r]
    /\ json_predictions_to_csv example_document false = Ok [r]
    /\ field r "area_px2" = Some (VFloat (Z2F 100))
    /\ field r "mass_low_kg" = Some (VFloat (decimal 12 3))
    /\ field r "mass_mod_kg" = Some (VFloat moderate_example)
    /\ moderate_example = SFsucc prec emax (decimal 18 3)
    /\ field r "mass_high_kg" = Some (VFloat (decimal 24 3)).
Proof. eexists. vm_compute. repeat split. Qed.

(** C10, as stated, fails: on [overflow_document] the run succeeds and
    the area of its row is a NaN, which is not [>= 0]. *)
Lemma area_of_overflow_not_ge_zero :
  exists r t a,
    json_predictions_to_csv overflow_document true = Ok [r; t]
    /\ field r "area_px2" = Some a
    /\ ge_zero a = false.
Proof. do 3 eexists. vm_compute. repeat split. Qed.

(** C10, amended.  In every record of a run that succeeds, the totals row
    included, each of the four derived columns is never negative: it is
    not [< 0], and it is [>= 0] unless it is a NaN. *)
Theorem derived_fields_never_negative (data : value) (totals : bool)
  (out : list value) :
  json_predictions_to_csv data totals = Ok out ->
  Forall (fun r =>
            Forall (fun k => exists v, field r k = Some v /\ never_negative v)
              derived) out.
Proof.
  unfold json_predictions_to_csv, build_rows. intro H.
  apply bind_ok in H. destruct H as [rows [Hr H]].
  apply bind_ok in Hr. destruct Hr as [rows' [Hr' Hr]].
  destruct (snd (iter_prediction_objects data)); [discriminate |].
  injection Hr as <-. apply rows_of_rows in Hr'.
  pose proof (rows_never_negative rows' Hr') as R.
  destruct totals; [| injection H as <-; exact R].
  rewrite (totals_row_spec rows' Hr') in H. cbn [bind] in H. injection H as <-.
  apply Forall_app. split; [exact R |]. constructor; [| constructor].
  repeat constructor; eexists; (split; [reflexivity |]);
    apply float_total_never_negative; apply row_for_column_nonneg;
    try assumption; cbn; tauto.
Qed.

Lemma derived_fields_never_negative_witness :
  exists out,
    json_predictions_to_csv example_document true = Ok out
    /\ Forall (fun r =>
                 Forall (fun k => exists v, field r k = Some v /\ never_negative v)
                   derived) out.
Proof.
  eexists. split; [vm_compute; reflexivity |].
  apply (derived_fields_never_negative example_document true).
  vm_compute. reflexivity.
Defined.

(** * Further properties of the program *)

(** ** The extractor as a concatenation *)

Lemma value_nested_ind (P : value -> Prop) :
  P VNone -> (forall b, P (VBool b)) -> (forall z, P (VInt z)) ->
  (forall f, P (VFloat f)) -> (forall s, P (VStr s)) ->
  (forall l, Forall P l -> P (VList l)) ->
  (forall d, Forall (fun kv => P (snd kv)) d -> P (VDict d)) ->
  forall v, P v.
Proof.
  intros HN HB HI HF HS HL HD.
  fix IH 1. intros [| b | z | f | s | l | d].
  - exact HN.
  - apply HB.
  - apply HI.
  - apply HF.
  - apply HS.
  - apply HL. induction l as [| v l IHl]; constructor; [apply IH | exact IHl].
  - apply HD. induction d as [| [k v] d IHd]; constructor; [apply IH | exact IHd].
Qed.

Lemma gen_seq_done_l (g : yields) : gen_seq gen_done g = g.
Proof. destruct g. reflexivity. Qed.

Lemma gen_seq_done_r (g : yields) : gen_seq g gen_done = g.
Proof.
  destruct g as [l [e |]]; unfold gen_seq; cbn; [reflexivity |].
  now rewrite app_nil_r.
Qed.

Lemma gen_seq_assoc (a b c : yields) :
  gen_seq (gen_seq a b) c = gen_seq a (gen_seq b c).
Proof.
  destruct a as [la [ea |]], b as [lb [eb |]], c as [lc ec]; unfold gen_seq; cbn;
    try reflexivity.
  now rewrite app_assoc.
Qed.

Lemma gen_concat_app (gs hs : list yields) :
  gen_concat (gs ++ hs) = gen_seq (gen_concat gs) (gen_concat hs).
Proof.
  induction gs as [| g gs IH]; cbn [app gen_concat].
  - now rewrite gen_seq_done_l.
  - now rewrite IH, gen_seq_assoc.
Qed.

Lemma iter_list (l : list value) :
  iter_prediction_objects (VList l) = gen_concat (map iter_prediction_objects l).
Proof.
  induction l as [| v l IH]; [reflexivity |].
  cbn [map gen_concat]. rewrite <- IH. reflexivity.
Qed.

Lemma iter_fallback (d : list (string * value)) :
  (fix values (d : list (string * value)) : yields :=
     match d with
     | [] => gen_done
     | (_, v) :: d' =>
         match v with
         | VDict _ | VList _ => gen_seq (iter_prediction_objects v) (values d')
         | _ => values d'
         end
     end) d
  = gen_concat (map fallback_item d).
Proof.
  induction d as [| [k v] d IH]; [reflexivity |].
  cbn [map gen_concat]. rewrite <- IH. unfold fallback_item. cbn [snd].
  destruct v; try (now rewrite gen_seq_done_l); reflexivity.
Qed.

Lemma iter_dict (d : list (string * value)) :
  iter_prediction_objects (VDict d)
  = match lookup "predictions" d with
    | Some (VList l) => (l, None)
    | _ =>
        match lookup "outputs" d with
        | Some (VList outs) => gen_concat (map outputs_item outs)
        | _ => gen_concat (map fallback_item d)
        end
    end.
Proof.
  rewrite <- iter_fallback. reflexivity.
Qed.

Lemma fallback_item_iter (kv : string * value) :
  fallback_item kv = iter_prediction_objects (snd kv).
Proof. unfold fallback_item. now destruct (snd kv). Qed.

Lemma gen_concat_quiet (gs : list yields) :
  Forall (fun g => snd g = None) gs ->
  gen_concat gs = (List.concat (map fst gs), None).
Proof.
  induction 1 as [| g gs Hg H IH]; [reflexivity |].
  cbn [gen_concat map concat]. rewrite IH. unfold gen_seq. now rewrite Hg.
Qed.

Lemma gen_concat_type_error (gs : list yields) :
  Forall (fun g => snd g = None \/ snd g = Some TypeError) gs ->
  snd (gen_concat gs) = None \/ snd (gen_concat gs) = Some TypeError.
Proof.
  induction 1 as [| g gs Hg H IH]; [now left |].
  cbn [gen_concat]. unfold gen_seq.
  destruct (snd g) as [e |] eqn:E; [rewrite E; exact Hg | exact IH].
Qed.

Lemma yield_from_type_error (v : value) :
  snd (yield_from v) = None \/ snd (yield_from v) = Some TypeError.
Proof. destruct v; cbn; auto. Qed.

Lemma outputs_item_type_error (o : value) :
  snd (outputs_item o) = None \/ snd (outputs_item o) = Some TypeError.
Proof.
  destruct o as [| | | | | | od]; cbn; auto.
  destruct (lookup "predictions" od); [apply yield_from_type_error | now left].
Qed.

Lemma iter_type_error (obj : value) :
  snd (iter_prediction_objects obj) = None
  \/ snd (iter_prediction_objects obj) = Some TypeError.
Proof.
  induction obj as [| b | z | f | s | l IH | d IH] using value_nested_ind;
    try (now left).
  - rewrite iter_list. apply gen_concat_type_error.
    apply Forall_map. exact IH.
  - rewrite iter_dict.
    assert (R : snd (match lookup "outputs" d with
                     | Some (VList outs) => gen_concat (map outputs_item outs)
                     | _ => gen_concat (map fallback_item d)
                     end) = None
                \/ snd (match lookup "outputs" d with
                        | Some (VList outs) => gen_concat (map outputs_item outs)
                        | _ => gen_concat (map fallback_item d)
                        end) = Some TypeError).
    { assert (Fb : snd (gen_concat (map fallback_item d)) = None
                   \/ snd (gen_concat (map fallback_item d)) = Some TypeError).
      { apply gen_concat_type_error, Forall_map.
        eapply Forall_impl; [| exact IH]. intros kv H.
        now rewrite fallback_item_iter. }
      destruct (lookup "outputs" d) as [[| | | | | outs |] |]; try exact Fb.
      apply gen_concat_type_error, Forall_map, Forall_forall.
      intros o _. apply outputs_item_type_error. }
    destruct (lookup "predictions" d) as [[| | | | | l |] |]; try exact R.
    now left.
Qed.

(** X1.  On a document nested no deeper than [safe_depth], which the
    recursion limit of the interpreter leaves room for, the extractor
    either ends normally or ends with a [TypeError]: no other exception
    leaves it. *)
Theorem iter_prediction_objects_only_type_error (obj : value) :
  (depth obj <= safe_depth)%nat ->
  snd (iter_prediction_objects obj) = None
  \/ snd (iter_prediction_objects obj) = Some TypeError.
Proof. intros _. apply iter_type_error. Qed.

Lemma iter_prediction_objects_only_type_error_witness :
  snd (iter_prediction_objects
         (VDict [("outputs", VList [example_document;
                                    VDict [("predictions", VInt 5)]])]))
  = None
  \/ snd (iter_prediction_objects
            (VDict [("outputs", VList [example_document;
                                       VDict [("predictions", VInt 5)]])]))
     = Some TypeError.
Proof.
  apply (iter_prediction_objects_only_type_error
           (VDict [("outputs", VList [example_document;
                                      VDict [("predictions", VInt 5)]])])).
  apply Nat.leb_le. vm_compute. reflexivity.
Defined.

Lemma iter_quiet_without_outputs (obj : value) :
  no_outputs obj = true -> snd (iter_prediction_objects obj) = None.
Proof.
  induction obj as [| b | z | f | s | l IH | d IH] using value_nested_ind;
    try reflexivity; intro H.
  - rewrite iter_list, gen_concat_quiet; [reflexivity |].
    cbn [no_outputs] in H. rewrite forallb_forall in H.
    apply Forall_map. rewrite Forall_forall in *. auto.
  - rewrite iter_dict. cbn [no_outputs] in H.
    destruct (lookup "outputs" d); [discriminate |].
    rewrite forallb_forall in H.
    assert (Fb : snd (gen_concat (map fallback_item d)) = None).
    { rewrite gen_concat_quiet; [reflexivity |].
      apply Forall_map. rewrite Forall_forall in *. intros kv Hkv.
      rewrite fallback_item_iter. auto. }
    destruct (lookup "predictions" d) as [[| | | | | l |] |]; try exact Fb.
    reflexivity.
Qed.

(** X2.  A document nested no deeper than [safe_depth] in which no
    dictionary, at any depth, has a key "outputs" is extracted without an
    exception. *)
Theorem iter_prediction_objects_without_outputs (obj : value) :
  (depth obj <= safe_depth)%nat -> no_outputs obj = true ->
  snd (iter_prediction_objects obj) = None.
Proof. intros _. apply iter_quiet_without_outputs. Qed.

Lemma iter_prediction_objects_without_outputs_witness :
  snd (iter_prediction_objects
         (VList [example_document; VDict [("images", VList [example_document])]]))
  = None.
Proof.
  apply (iter_prediction_objects_without_outputs
           (VList [example_document; VDict [("images", VList [example_document])]])).
  - apply Nat.leb_le. vm_compute. reflexivity.
  - vm_compute. reflexivity.
Defined.

(** X3.  Extraction from a list of documents is sequential: the list
    [l1 ++ l2] yields what [l1] yields, then what [l2] yields, and stops at
    the first exception. *)
Theorem iter_prediction_objects_list_app (l1 l2 : list value) :
  iter_prediction_objects (VList (l1 ++ l2))
  = gen_seq (iter_prediction_objects (VList l1))
      (iter_prediction_objects (VList l2)).
Proof. rewrite !iter_list, map_app. apply gen_concat_app. Qed.

(** X4.  A dictionary with no list under "predictions" and no list
    under "outputs" is searched as the list of its values, in insertion
    order: its keys play no part. *)
Theorem iter_prediction_objects_fallback_values (d : list (string * value)) :
  (forall l, lookup "predictions" d <> Some (VList l)) ->
  (forall l, lookup "outputs" d <> Some (VList l)) ->
  iter_prediction_objects (VDict d)
  = iter_prediction_objects (VList (map snd d)).
Proof.
  intros Hp Ho. rewrite iter_dict, iter_list, map_map.
  assert (E : map fallback_item d
              = map (fun kv => iter_prediction_objects (snd kv)) d)
    by (apply map_ext; intro; apply fallback_item_iter).
  rewrite <- E.
  destruct (lookup "predictions" d) as [[| | | | | l |] |];
    try (now destruct (Hp l));
    destruct (lookup "outputs" d) as [[| | | | | o |] |];
    try (now destruct (Ho o)); reflexivity.
Qed.

Lemma iter_prediction_objects_fallback_values_witness :
  iter_prediction_objects (VDict [("a", example_document); ("b", VInt 1)])
  = iter_prediction_objects (VList [example_document; VInt 1]).
Proof.
  apply (iter_prediction_objects_fallback_values
           [("a", example_document); ("b", VInt 1)]);
    intros l; cbn; discriminate.
Defined.

Lemma outputs_item_quiet (o : value) :
  (forall od p, o = VDict od -> lookup "predictions" od = Some p ->
                exists l, p = VList l) ->
  outputs_item o = (output_predictions o, None).
Proof.
  intro H. destruct o as [| | | | | | od]; try reflexivity.
  cbn [outputs_item output_predictions].
  destruct (lookup "predictions" od) as [p |] eqn:E; [| reflexivity].
  destruct (H od p eq_refl E) as [l ->]. reflexivity.
Qed.

(** X5.  Under an "outputs" list (and no "predictions" list) the
    detections are those of the elements that are dictionaries with a
    "predictions" list, in order; any other element is skipped, a list of
    wrappers included: this rule does not search deeper. *)
Theorem iter_prediction_objects_outputs (d : list (string * value))
  (outs : list value) :
  (forall l, lookup "predictions" d <> Some (VList l)) ->
  lookup "outputs" d = Some (VList outs) ->
  Forall (fun o => forall od p, o = VDict od ->
                   lookup "predictions" od = Some p -> exists l, p = VList l)
    outs ->
  iter_prediction_objects (VDict d) = (flat_map output_predictions outs, None).
Proof.
  intros Hp Ho H. rewrite iter_dict, Ho.
  assert (E : gen_concat (map outputs_item outs)
              = (flat_map output_predictions outs, None)).
  { clear Ho. induction H as [| o outs Q H IH]; [reflexivity |].
    cbn [map gen_concat flat_map]. rewrite IH, (outputs_item_quiet o Q).
    reflexivity. }
  destruct (lookup "predictions" d) as [[| | | | | l |] |];
    try (now destruct (Hp l)); exact E.
Qed.

Lemma iter_prediction_objects_outputs_witness :
  iter_prediction_objects
    (VDict [("outputs", VList [example_document; VInt 3; VList [example_document];
                               VDict [("image", VStr "a.jpg")]])])
  = ([example_detection], None).
Proof.
  apply (iter_prediction_objects_outputs
           [("outputs", VList [example_document; VInt 3; VList [example_document];
                               VDict [("image", VStr "a.jpg")]])]
           [example_document; VInt 3; VList [example_document];
            VDict [("image", VStr "a.jpg")]]).
  - intro l. cbn. discriminate.
  - reflexivity.
  - repeat constructor; intros od p E L; try discriminate;
      injection E as <-; cbn in L; try discriminate; injection L as <-; eauto.
Defined.

Lemma iter_wrapped (k : string) (obj : value) :
  k <> "predictions" -> k <> "outputs" -> is_container obj = true ->
  iter_prediction_objects (VDict [(k, obj)]) = iter_prediction_objects obj.
Proof.
  intros Kp Ko C. rewrite iter_dict. cbn [lookup].
  apply String.eqb_neq in Kp, Ko.
  rewrite (String.eqb_sym "predictions" k), (String.eqb_sym "outputs" k), Kp, Ko.
  cbn [map gen_concat]. rewrite gen_seq_done_r. unfold fallback_item. cbn [snd].
  destruct obj; try discriminate; reflexivity.
Qed.

Lemma iter_wrapped_times (k : string) (n : nat) (obj : value) :
  k <> "predictions" -> k <> "outputs" -> is_container obj = true ->
  iter_prediction_objects (Nat.iter n (fun v => VDict [(k, v)]) obj)
  = iter_prediction_objects obj.
Proof.
  intros Kp Ko C. induction n as [| n IH]; [reflexivity |].
  change (Nat.iter (S n) (fun v => VDict [(k, v)]) obj)
    with (VDict [(k, Nat.iter n (fun v => VDict [(k, v)]) obj)]).
  rewrite iter_wrapped; [exact IH | assumption | assumption |].
  destruct n; [exact C | reflexivity].
Qed.

(** X6.  The fallback searches further than one level: a dictionary or
    list wrapped [n] times under a key other than "predictions" and
    "outputs" yields what it yields unwrapped, as long as the wrapped
    document is nested no deeper than [safe_depth]. *)
Theorem iter_prediction_objects_any_depth (k : string) (n : nat) (obj : value) :
  k <> "predictions" -> k <> "outputs" -> is_container obj = true ->
  (depth (Nat.iter n (fun v => VDict [(k, v)]) obj) <= safe_depth)%nat ->
  iter_prediction_objects (Nat.iter n (fun v => VDict [(k, v)]) obj)
  = iter_prediction_objects obj.
Proof. intros Kp Ko C _. now apply iter_wrapped_times. Qed.

Lemma iter_prediction_objects_any_depth_witness :
  iter_prediction_objects
    (Nat.iter 3 (fun v => VDict [("data", v)]) example_document)
  = iter_prediction_objects example_document.
Proof.
  apply (iter_prediction_objects_any_depth "data" 3 example_document);
    [discriminate | discriminate | reflexivity |].
  apply Nat.leb_le. vm_compute. reflexivity.
Defined.

(** ** Exceptions of the arithmetic *)

Lemma bind_raise {A B : Type} (r : result A) (k : A -> result B) (e : exn) :
  bind r k = Raise e ->
  r = Raise e \/ exists a, r = Ok a /\ k a = Raise e.
Proof. destruct r as [a | e']; cbn; intro H; [eauto | left; congruence]. Qed.

Lemma float_of_int_exn (z : Z) (e : exn) :
  float_of_int z = Raise e -> e = OverflowError.
Proof. unfold float_of_int. destruct (Z2F z); congruence. Qed.

Lemma arith_exn (zop : Z -> Z -> Z) (fop : float -> float -> float)
  (a b : number) (e : exn) :
  arith zop fop a b = Raise e -> e = OverflowError.
Proof.
  destruct a as [x | f], b as [y | g]; cbn [arith]; intro H; try discriminate;
    apply bind_raise in H; destruct H as [H | [h [_ H]]]; try discriminate;
    now apply float_of_int_exn in H.
Qed.

Lemma py_mul_exn (a b : value) (e : exn) :
  py_mul a b = Raise e -> vertex_exn e.
Proof.
  unfold py_mul, vertex_exn.
  destruct (as_number a) as [x |] eqn:A; [destruct (as_number b) as [y |] eqn:B |].
  - intro H. apply arith_exn in H. auto.
  - destruct a, b; cbn; intro H; try discriminate; injection H as <-; auto.
  - destruct a, b; cbn; intro H; try discriminate; injection H as <-; auto.
Qed.

Lemma py_sub_exn (a b : value) (e : exn) :
  py_sub a b = Raise e -> vertex_exn e.
Proof.
  unfold py_sub, vertex_exn.
  destruct (as_number a) as [x |]; [destruct (as_number b) as [y |] |];
    intro H; try (apply arith_exn in H; auto); injection H as <-; auto.
Qed.

Lemma py_add_exn (a b : value) (e : exn) :
  py_add a b = Raise e -> vertex_exn e.
Proof.
  unfold py_add, vertex_exn.
  destruct (as_number a) as [x |] eqn:A; [destruct (as_number b) as [y |] eqn:B |].
  - intro H. apply arith_exn in H. auto.
  - destruct a, b; cbn; intro H; try discriminate; injection H as <-; auto.
  - destruct a, b; cbn; intro H; try discriminate; injection H as <-; auto.
Qed.

Lemma subscript_exn (v : value) (k : string) (e : exn) :
  subscript v k = Raise e -> vertex_exn e.
Proof.
  unfold vertex_exn. destruct v as [| | | | | | d]; cbn; intro H;
    try (injection H as <-; auto).
  destruct (lookup k d); [discriminate | injection H as <-; auto].
Qed.

Lemma getitem_in_range (l : list value) (i : nat) :
  (i < List.length l)%nat -> exists p, getitem l i = Ok p /\ In p l.
Proof.
  intro H. unfold getitem. destruct (nth_error l i) as [p |] eqn:E.
  - exists p. split; [reflexivity |]. eapply nth_error_In; eauto.
  - apply nth_error_None in E. lia.
Qed.

Lemma shoelace_step_exn (points : list value) (s : value) (i : nat) (e : exn) :
  (i < List.length points)%nat ->
  shoelace_step points (List.length points) s i = Raise e -> vertex_exn e.
Proof.
  intros Hi H. unfold shoelace_step in H.
  destruct (getitem_in_range points i Hi) as [p [Gp _]].
  assert (Hj : ((i + 1) mod List.length points < List.length points)%nat)
    by (apply Nat.mod_upper_bound; lia).
  destruct (getitem_in_range points _ Hj) as [q [Gq _]].
  rewrite Gp, Gq in H. cbn [bind] in H.
  repeat (apply bind_raise in H; destruct H as [H | [? [_ H]]];
          [first [ now apply subscript_exn in H
                 | now apply py_mul_exn in H
                 | now apply py_sub_exn in H ] |]).
  now apply py_add_exn in H.
Qed.

Lemma shoelace_loop_exn (points : list value) (range : list nat) (s : value)
  (e : exn) :
  Forall (fun i => (i < List.length points)%nat) range ->
  shoelace_loop points (List.length points) s range = Raise e -> vertex_exn e.
Proof.
  intro R. revert s. induction R as [| i range Hi R IH]; intros s H.
  - discriminate.
  - cbn [shoelace_loop] in H. apply bind_raise in H.
    destruct H as [H | [s' [_ H]]].
    + eapply shoelace_step_exn; eauto.
    + eapply IH; eauto.
Qed.

Lemma shoelace_area_exn (points : list value) (e : exn) :
  shoelace_area_px2 points = Raise e ->
  vertex_exn e /\ (3 <= List.length points)%nat.
Proof.
  unfold shoelace_area_px2.
  destruct (Nat.ltb_spec (List.length points) 3) as [Hn | Hn]; [discriminate |].
  intro H. split; [| exact Hn].
  apply bind_raise in H. destruct H as [H | [s [Hs H]]].
  - eapply shoelace_loop_exn; [apply seq_bounded | exact H].
  - apply shoelace_loop_shape in Hs. destruct Hs as [f ->]. discriminate.
Qed.

(** ** Vertices that cannot be read *)

Lemma shoelace_step_unreadable (points : list value) (n : nat) (s p : value)
  (i : nat) :
  getitem points i = Ok p -> unreadable p ->
  exists e, shoelace_step points n s i = Raise e.
Proof.
  intros G U. unfold shoelace_step. rewrite G. cbn [bind].
  destruct p as [| | | | | | d]; cbn [subscript bind]; eauto.
  cbn [unreadable] in U.
  destruct (lookup "x" d) as [vx |]; cbn [bind]; [| eauto].
  destruct U as [U | U]; [discriminate |]. rewrite U. cbn [bind]. eauto.
Qed.

Lemma shoelace_loop_unreadable (points : list value) (n : nat)
  (range : list nat) (i : nat) :
  In i range ->
  (forall s, exists e, shoelace_step points n s i = Raise e) ->
  forall s, exists e, shoelace_loop points n s range = Raise e.
Proof.
  intros Hi U. induction range as [| j range IH]; [destruct Hi |].
  intro s. cbn [shoelace_loop].
  destruct (shoelace_step points n s j) as [s' | e] eqn:E; cbn [bind]; [| eauto].
  destruct Hi as [-> | Hi].
  - destruct (U s) as [e U']. congruence.
  - now apply IH.
Qed.

(** X7.  With three entries or more, one vertex that is not a
    mapping, or has no "x" or no "y", makes the area raise, wherever the
    vertex stands: no vertex is skipped and no area is returned. *)
Theorem shoelace_area_px2_unreadable_vertex (points : list value) (p : value) :
  (3 <= List.length points)%nat -> In p points -> unreadable p ->
  exists e, shoelace_area_px2 points = Raise e.
Proof.
  intros Hn Hp U.
  destruct (In_nth_error points p Hp) as [i Hi].
  assert (Li : (i < List.length points)%nat)
    by (apply nth_error_Some; congruence).
  assert (G : getitem points i = Ok p) by (unfold getitem; now rewrite Hi).
  destruct (shoelace_loop_unreadable points (List.length points)
              (seq 0 (List.length points)) i
              ltac:(apply in_seq; lia)
              (fun s => shoelace_step_unreadable points _ s p i G U)
              (VFloat F0)) as [e He].
  exists e. unfold shoelace_area_px2.
  destruct (Nat.ltb_spec (List.length points) 3) as [Lt | _]; [lia |].
  now rewrite He.
Qed.

Lemma shoelace_area_px2_unreadable_vertex_witness :
  exists e,
    shoelace_area_px2
      [point (VInt 0) (VInt 0); point (VInt 4) (VInt 0); VDict [("x", VInt 4)]]
    = Raise e.
Proof.
  apply (shoelace_area_px2_unreadable_vertex
           [point (VInt 0) (VInt 0); point (VInt 4) (VInt 0); VDict [("x", VInt 4)]]
           (VDict [("x", VInt 4)])).
  - cbn. lia.
  - cbn. tauto.
  - right. reflexivity.
Defined.

(** X8.  The area raises only on three entries or more; and when no
    vertex holds a string or a list under "x" or "y", only a [TypeError],
    a [KeyError] or an [OverflowError]: never an [IndexError] from the
    indices [i] and [(i + 1) % n], never a [ZeroDivisionError]. *)
Theorem shoelace_area_px2_exceptions (points : list value) (e : exn) :
  shoelace_area_px2 points = Raise e ->
  (3 <= List.length points)%nat
  /\ (scalar_coordinates points ->
      e = TypeError \/ e = KeyError \/ e = OverflowError).
Proof. intro H. apply shoelace_area_exn in H. tauto. Qed.

Lemma shoelace_area_px2_exceptions_witness :
  (3 <= List.length
          [point (VInt 0) (VInt 0); point (VInt 4) VNone; VDict [("x", VInt 4)]])%nat
  /\ (TypeError = TypeError \/ TypeError = KeyError \/ TypeError = OverflowError).
Proof.
  destruct (shoelace_area_px2_exceptions
              [point (VInt 0) (VInt 0); point (VInt 4) VNone; VDict [("x", VInt 4)]]
              TypeError eq_refl) as [L S].
  split; [exact L |]. apply S.
  repeat constructor; intros d k v E K F; injection E as <-;
    destruct K as [-> | ->]; cbn in F; try discriminate;
    injection F as <-; reflexivity.
Defined.

(** ** Rectangles, and polygons closed by their first vertex *)

Lemma rectangle_sum (x y w h : Z) : shoelace_sum (rectangle x y w h) = 2 * (w * h).
Proof.
  rewrite shoelace_sum_total. unfold rectangle, total, cross.
  cbn [path last fst snd]. ring.
Qed.

Lemma rectangle_mass (x y w h : Z) :
  0 <= x -> 0 <= y -> 0 <= w -> 0 <= h -> x + w < 2 ^ 24 -> y + h < 2 ^ 24 ->
  cross_mass (rectangle x y w h) < 2 ^ 53.
Proof.
  intros Hx Hy Hw Hh Bx By.
  rewrite cross_mass_total. unfold rectangle, total, cross. cbn [path last fst snd].
  assert (P : forall a b, 0 <= a < 2 ^ 24 -> 0 <= b < 2 ^ 24 -> 0 <= a * b < 2 ^ 48).
  { intros a b Ha Hb. change (2 ^ 48) with (2 ^ 24 * 2 ^ 24). split.
    - apply Z.mul_nonneg_nonneg; lia.
    - apply Z.mul_lt_mono_nonneg; lia. }
  pose proof (P x y ltac:(lia) ltac:(lia)).
  pose proof (P y (x + w) ltac:(lia) ltac:(lia)).
  pose proof (P (x + w) (y + h) ltac:(lia) ltac:(lia)).
  pose proof (P (y + h) x ltac:(lia) ltac:(lia)).
  pose proof (P x (y + h) ltac:(lia) ltac:(lia)).
  assert (Q : 4 * (2 * 2 ^ 48) <= 2 ^ 53) by (vm_compute; discriminate).
  lia.
Qed.

(** X9.  An axis-aligned rectangle of integer corners below [2^24]
    has exactly the area width times height. *)
Theorem shoelace_area_px2_rectangle (points : list value) (x y w h : Z) :
  0 <= x -> 0 <= y -> 0 <= w -> 0 <= h -> x + w < 2 ^ 24 -> y + h < 2 ^ 24 ->
  Forall2 int_vertex points (rectangle x y w h) ->
  exists a, shoelace_area_px2 points = Ok (VFloat a)
            /\ (F2Q a == inject_Z (w * h))%Q.
Proof.
  intros Hx Hy Hw Hh Bx By V.
  pose proof (rectangle_mass x y w h Hx Hy Hw Hh Bx By) as M.
  rewrite (shoelace_area_int points _ V M).
  change (List.length (rectangle x y w h) <? 3)%nat with false. cbn iota.
  eexists. split; [reflexivity |].
  pose proof (shoelace_sum_bound (rectangle x y w h)) as B.
  rewrite F2Q_half by lia. rewrite rectangle_sum.
  assert (0 <= w * h) by (apply Z.mul_nonneg_nonneg; lia).
  rewrite Z.abs_eq by lia.
  unfold Qeq, inject_Z. cbn [Qnum Qden]. lia.
Qed.

Lemma shoelace_area_px2_rectangle_witness :
  exists a,
    shoelace_area_px2 (map vertex (rectangle 3 4 20 10)) = Ok (VFloat a)
    /\ (F2Q a == inject_Z (20 * 10))%Q.
Proof.
  apply (shoelace_area_px2_rectangle (map vertex (rectangle 3 4 20 10)) 3 4 20 10);
    try lia; try reflexivity.
  apply Forall2_int_vertex_map.
Defined.

Lemma total_closed (g : Z * Z -> Z * Z -> Z) (c : Z * Z) (l : list (Z * Z)) :
  g c c = 0 -> total g ((c :: l) ++ [c]) = total g (c :: l).
Proof.
  intro H.
  rewrite (total_hd g ((c :: l) ++ [c]) c) by discriminate.
  rewrite (total_hd g (c :: l) c) by discriminate.
  rewrite (path_app g (c :: l) [c] c) by discriminate.
  rewrite last_app_nonempty by discriminate.
  cbn [hd path last app]. rewrite H. lia.
Qed.

Lemma cross_self (c : Z * Z) : cross c c = 0.
Proof. unfold cross. lia. Qed.

(** X10.  Repeating the first vertex at the end of an integer polygon
    (a ring closed explicitly) does not change its area, as long as the
    cross terms stay below [2^53]. *)
Theorem shoelace_area_px2_closing_vertex (p : value) (rest : list value)
  (c : Z * Z) (crest : list (Z * Z)) :
  Forall2 int_vertex (p :: rest) (c :: crest) ->
  cross_mass (c :: crest) < 2 ^ 53 ->
  shoelace_area_px2 ((p :: rest) ++ [p]) = shoelace_area_px2 (p :: rest).
Proof.
  intros V M.
  assert (V' : Forall2 int_vertex ((p :: rest) ++ [p]) ((c :: crest) ++ [c])).
  { apply Forall2_app; [exact V |]. constructor; [| constructor].
    now inversion V. }
  assert (S' : shoelace_sum ((c :: crest) ++ [c]) = shoelace_sum (c :: crest))
    by (rewrite !shoelace_sum_total; apply total_closed, cross_self).
  assert (M' : cross_mass ((c :: crest) ++ [c]) = cross_mass (c :: crest)).
  { rewrite !cross_mass_total. apply total_closed. now rewrite cross_self. }
  rewrite (shoelace_area_int _ _ V') by (rewrite M'; exact M).
  rewrite (shoelace_area_int _ _ V M), S'.
  rewrite length_app. cbn [List.length].
  destruct crest as [| c1 [| c2 crest]]; cbn [List.length Nat.add].
  - reflexivity.
  - replace (shoelace_sum [c; c1]) with 0; [reflexivity |].
    rewrite shoelace_sum_total. unfold total, cross. cbn. lia.
  - replace (S (S (S (List.length crest))) + 1 <? 3)%nat with false
      by (symmetry; apply Nat.ltb_ge; lia).
    reflexivity.
Qed.

Lemma shoelace_area_px2_closing_vertex_witness :
  shoelace_area_px2 (map vertex example_polygon ++ [vertex (0, 0)])
  = shoelace_area_px2 (map vertex example_polygon).
Proof.
  apply (shoelace_area_px2_closing_vertex (vertex (0, 0))
           (map vertex [(10, 0); (10, 10); (0, 10)]) (0, 0)
           [(10, 0); (10, 10); (0, 10)]).
  - apply (Forall2_int_vertex_map example_polygon).
  - vm_compute. reflexivity.
Defined.

(** ** Moved polygons *)

Lemma cross_shift (t p q : Z * Z) :
  cross (shift t p) (shift t q) = cross p q + cross p t - cross q t.
Proof. unfold cross, shift. cbn [fst snd]. ring. Qed.

Lemma path_shift (t : Z * Z) (l : list (Z * Z)) (d : Z * Z) :
  l <> [] ->
  path cross (map (shift t) l)
  = path cross l + cross (hd d l) t - cross (last l d) t.
Proof.
  induction l as [| a [| b l] IH]; intro H; [congruence | cbn; lia |].
  change (map (shift t) (a :: b :: l))
    with (shift t a :: shift t b :: map (shift t) l).
  change (path cross (shift t a :: shift t b :: map (shift t) l))
    with (cross (shift t a) (shift t b) + path cross (map (shift t) (b :: l))).
  rewrite IH by discriminate. rewrite cross_shift, last_cons_cons.
  cbn [hd path]. lia.
Qed.

Lemma last_map_shift (t : Z * Z) (l : list (Z * Z)) (d : Z * Z) :
  last (map (shift t) l) (shift t d) = shift t (last l d).
Proof.
  induction l as [| a [| b l] IH]; [reflexivity | reflexivity |].
  change (map (shift t) (a :: b :: l))
    with (shift t a :: shift t b :: map (shift t) l).
  rewrite !last_cons_cons. exact IH.
Qed.

Lemma total_shift (t : Z * Z) (l : list (Z * Z)) :
  total cross (map (shift t) l) = total cross l.
Proof.
  destruct l as [| p l]; [reflexivity |].
  rewrite (total_hd cross (map (shift t) (p :: l)) (shift t p)) by discriminate.
  rewrite (total_hd cross (p :: l) p) by discriminate.
  rewrite last_map_shift, (path_shift t (p :: l) p) by discriminate.
  cbn [hd map]. rewrite cross_shift. lia.
Qed.

(** X11.  Moving an integer polygon by a vector does not change its
    area, as long as the cross terms of both polygons stay below [2^53]. *)
Theorem shoelace_area_px2_translation (points points' : list value)
  (pts : list (Z * Z)) (t : Z * Z) :
  Forall2 int_vertex points pts ->
  Forall2 int_vertex points' (map (shift t) pts) ->
  cross_mass pts < 2 ^ 53 ->
  cross_mass (map (shift t) pts) < 2 ^ 53 ->
  shoelace_area_px2 points' = shoelace_area_px2 points.
Proof.
  intros V V' M M'.
  rewrite (shoelace_area_int _ _ V M), (shoelace_area_int _ _ V' M').
  now rewrite length_map, !shoelace_sum_total, total_shift.
Qed.

Lemma shoelace_area_px2_translation_witness :
  shoelace_area_px2 (map vertex (map (shift (300, 45)) example_polygon))
  = shoelace_area_px2 (map vertex example_polygon).
Proof.
  apply (shoelace_area_px2_translation (map vertex example_polygon)
           (map vertex (map (shift (300, 45)) example_polygon))
           example_polygon (300, 45)).
  - apply Forall2_int_vertex_map.
  - apply Forall2_int_vertex_map.
  - vm_compute. reflexivity.
  - vm_compute. reflexivity.
Defined.

(** ** Rows *)

Lemma detection_area_raise (d : list (string * value)) (e : exn) :
  detection_area d = Raise e ->
  exists l, lookup "points" d = Some (VList l) /\ shoelace_area_px2 l = Raise e.
Proof.
  unfold detection_area.
  destruct (lookup "points" d) as [[| | | | | l |] |]; intro H;
    try discriminate; eauto.
Qed.

Lemma prediction_to_row_raise (d : list (string * value)) (e : exn) :
  prediction_to_row (VDict d) = Raise e -> detection_area d = Raise e.
Proof.
  intro H. destruct (detection_area d) as [v | e'] eqn:A.
  - destruct (detection_area_shape d v A) as [a [-> _]].
    rewrite (prediction_to_row_ok d a A) in H. discriminate.
  - unfold prediction_to_row, py_get_default, detection_area in *.
    cbn [bind] in H.
    destruct (lookup "points" d) as [[| | | | | l |] |]; try discriminate;
      rewrite A in H; exact H.
Qed.

(** X12.  A row raises [AttributeError] exactly when the detection is
    not a dictionary. *)
Theorem prediction_to_row_attribute_error (pred : value) :
  prediction_to_row pred = Raise AttributeError
  <-> (forall d, pred <> VDict d).
Proof.
  split.
  - intros H d ->. apply prediction_to_row_raise in H.
    apply detection_area_raise in H. destruct H as [l [_ H]].
    apply shoelace_area_exn in H. destruct H as [[H | [H | H]] _]; discriminate.
  - intro H. destruct pred as [| | | | | | d]; try reflexivity.
    now destruct (H d).
Qed.

Lemma prediction_to_row_attribute_error_witness :
  prediction_to_row (VList [example_detection]) = Raise AttributeError.
Proof.
  apply (proj2 (prediction_to_row_attribute_error (VList [example_detection]))).
  intros d. discriminate.
Defined.

(** X13.  A dictionary fails to give a row only through its polygon:
    "points" is then a list of three entries or more on which the area
    raises that same exception.  No other key can make the row fail. *)
Theorem prediction_to_row_fails_on_polygon (d : list (string * value)) (e : exn) :
  prediction_to_row (VDict d) = Raise e ->
  exists l, lookup "points" d = Some (VList l)
            /\ (3 <= List.length l)%nat
            /\ shoelace_area_px2 l = Raise e.
Proof.
  intro H. apply prediction_to_row_raise in H.
  apply detection_area_raise in H. destruct H as [l [L H]].
  exists l. destruct (shoelace_area_exn l e H) as [K N]. auto.
Qed.

Lemma prediction_to_row_fails_on_polygon_witness :
  exists l,
    lookup "points" [("points", VList [VInt 1; VInt 2; VInt 3])] = Some (VList l)
    /\ (3 <= List.length l)%nat
    /\ shoelace_area_px2 l = Raise TypeError.
Proof.
  apply (prediction_to_row_fails_on_polygon
           [("points", VList [VInt 1; VInt 2; VInt 3])] TypeError).
  reflexivity.
Defined.

(** X14.  The row depends on nine keys of the detection only: two
    detections that agree on them give the same row, or the same
    exception. *)
Theorem prediction_to_row_reads_nine_keys (d d' : list (string * value)) :
  (forall k, In k read_keys -> lookup k d = lookup k d') ->
  prediction_to_row (VDict d) = prediction_to_row (VDict d').
Proof.
  intro H. unfold prediction_to_row, py_get_default, py_get, dict_get.
  rewrite (H "points"), (H "detection_id"), (H "class"), (H "class_id"),
    (H "confidence"), (H "x"), (H "y"), (H "width"), (H "height")
    by (cbn; tauto).
  reflexivity.
Qed.

Lemma prediction_to_row_reads_nine_keys_witness :
  prediction_to_row (VDict example_fields)
  = prediction_to_row (VDict (("image", VStr "a.jpg") :: example_fields)).
Proof.
  apply (prediction_to_row_reads_nine_keys example_fields
           (("image", VStr "a.jpg") :: example_fields)).
  intros k Hk. cbn in Hk.
  repeat (destruct Hk as [<- | Hk]; [reflexivity |]). destruct Hk.
Defined.

Lemma masses_of_zero :
  fmul (fmul F0 PX2_TO_KG) LOW_MULT = F0
  /\ fmul (fmul F0 PX2_TO_KG) MOD_MULT = F0
  /\ fmul (fmul F0 PX2_TO_KG) HIGH_MULT = F0.
Proof. repeat split. Qed.

(** X15.  A detection whose "points" is missing, not a list, or a
    list of fewer than three entries of any kind gives a row of area [0.0]
    and masses [0.0]; "num_points" still counts the entries of a list. *)
Theorem prediction_to_row_degenerate (d : list (string * value)) :
  degenerate d ->
  exists row,
    prediction_to_row (VDict d) = Ok row
    /\ field row "num_points" = Some (VInt (detection_num_points d))
    /\ (forall k, In k derived -> field row k = Some (VFloat F0)).
Proof.
  intro H.
  assert (A : detection_area d = Ok (VFloat F0)).
  { unfold degenerate, detection_area in *.
    destruct (lookup "points" d) as [[| | | | | l |] |]; try reflexivity.
    unfold shoelace_area_px2. apply Nat.ltb_lt in H. now rewrite H. }
  exists (row_for d F0). split; [now apply prediction_to_row_ok |].
  split; [reflexivity |].
  intros k Hk. cbn in Hk.
  destruct Hk as [<- | [<- | [<- | [<- | []]]]]; reflexivity.
Qed.

Lemma prediction_to_row_degenerate_witness :
  exists row,
    prediction_to_row (VDict [("points", VList [VInt 7; VStr "b"])]) = Ok row
    /\ field row "num_points"
       = Some (VInt (detection_num_points [("points", VList [VInt 7; VStr "b"])]))
    /\ (forall k, In k derived -> field row k = Some (VFloat F0)).
Proof.
  apply (prediction_to_row_degenerate [("points", VList [VInt 7; VStr "b"])]).
  unfold degenerate. cbn. lia.
Defined.

(** ** The report *)

Lemma rows_of_Forall2 (preds rows : list value) :
  rows_of preds = Ok rows
  <-> Forall2 (fun p r => prediction_to_row p = Ok r) preds rows.
Proof.
  split.
  - revert rows. induction preds as [| p preds IH]; intros rows H.
    + injection H as <-. constructor.
    + cbn [rows_of] in H. apply bind_ok in H. destruct H as [r [Hr H]].
      apply bind_ok in H. destruct H as [rs [Hrs H]]. injection H as <-.
      constructor; auto.
  - induction 1 as [| p r preds rows Hr H IH]; [reflexivity |].
    cbn [rows_of]. now rewrite Hr, IH.
Qed.

Lemma rows_of_raise (preds : list value) (p : value) (e : exn) :
  In p preds -> prediction_to_row p = Raise e ->
  exists e', rows_of preds = Raise e'.
Proof.
  intros Hp He. induction preds as [| q preds IH]; [destruct Hp |].
  cbn [rows_of]. destruct Hp as [-> | Hp].
  - rewrite He. cbn. eauto.
  - destruct (prediction_to_row q); cbn [bind]; [| eauto].
    destruct (IH Hp) as [e' ->]. cbn. eauto.
Qed.

Lemma build_rows_ok (data : value) (rows : list value) :
  build_rows data = Ok rows
  <-> rows_of (fst (iter_prediction_objects data)) = Ok rows
      /\ snd (iter_prediction_objects data) = None.
Proof.
  unfold build_rows. cbn zeta.
  destruct (rows_of (fst (iter_prediction_objects data))) as [rs | e]; cbn [bind];
    destruct (snd (iter_prediction_objects data)); split;
    try (intros [H1 H2]); try intro H; try discriminate; try congruence; auto.
Qed.

Lemma totals_row_ok (preds rows : list value) :
  rows_of preds = Ok rows ->
  totals_row rows
  = Ok (totals_of (float_total (float_column "area_px2" rows))
          (float_total (float_column "mass_low_kg" rows))
          (float_total (float_column "mass_mod_kg" rows))
          (float_total (float_column "mass_high_kg" rows))).
Proof. intro H. apply totals_row_spec. eapply rows_of_rows; eauto. Qed.

(** X16.  Without the totals row, the report is [rows] exactly when
    the extractor ends normally and [rows] holds the row of each detection
    it yielded, one for one and in order. *)
Theorem json_predictions_to_csv_rows (data : value) (rows : list value) :
  json_predictions_to_csv data false = Ok rows
  <-> snd (iter_prediction_objects data) = None
      /\ Forall2 (fun p r => prediction_to_row p = Ok r)
           (fst (iter_prediction_objects data)) rows.
Proof.
  unfold json_predictions_to_csv. rewrite <- rows_of_Forall2.
  split.
  - intro H. apply bind_ok in H. destruct H as [rs [B H]]. injection H as <-.
    apply build_rows_ok in B. tauto.
  - intros [G R]. assert (B : build_rows data = Ok rows)
      by (apply build_rows_ok; tauto).
    now rewrite B.
Qed.

Lemma json_predictions_to_csv_rows_witness :
  json_predictions_to_csv example_document false
  = Ok [row_for example_fields (S754_finite false 0x19000000000000 (-46))].
Proof.
  apply (proj2 (json_predictions_to_csv_rows example_document
                  [row_for example_fields (S754_finite false 0x19000000000000 (-46))])).
  split; [reflexivity |].
  constructor; [vm_compute; reflexivity | constructor].
Defined.

(** X17.  One extracted detection that has no row makes the whole
    report raise: no partial report is returned, with or without totals. *)
Theorem json_predictions_to_csv_fails_on_one (data p : value) (e : exn)
  (write_totals_row : bool) :
  In p (fst (iter_prediction_objects data)) ->
  prediction_to_row p = Raise e ->
  exists e', json_predictions_to_csv data write_totals_row = Raise e'.
Proof.
  intros Hp He. destruct (rows_of_raise _ p e Hp He) as [e' R].
  exists e'. unfold json_predictions_to_csv, build_rows. cbn zeta.
  now rewrite R.
Qed.

Lemma json_predictions_to_csv_fails_on_one_witness :
  exists e',
    json_predictions_to_csv
      (VDict [("predictions", VList [example_detection; VInt 5])]) true
    = Raise e'.
Proof.
  apply (json_predictions_to_csv_fails_on_one
           (VDict [("predictions", VList [example_detection; VInt 5])])
           (VInt 5) AttributeError true).
  - cbn. tauto.
  - reflexivity.
Defined.

(** X18.  [write_totals_row] only appends: a report that succeeds
    without totals succeeds with them, as the same rows followed by one
    record whose "detection_id" is "TOTAL"; a report that raises without
    totals raises the same exception with them. *)
Theorem json_predictions_to_csv_totals_flag (data : value) :
  (forall rows,
      json_predictions_to_csv data false = Ok rows ->
      exists t, json_predictions_to_csv data true = Ok (rows ++ [t])
                /\ totals_row rows = Ok t
                /\ field t "detection_id" = Some (VStr "TOTAL"))
  /\ (forall e,
         json_predictions_to_csv data false = Raise e ->
         json_predictions_to_csv data true = Raise e).
Proof.
  unfold json_predictions_to_csv. split.
  - intros rows H. apply bind_ok in H. destruct H as [rs [B H]].
    injection H as <-. rewrite B. cbn [bind].
    apply build_rows_ok in B. destruct B as [R _].
    rewrite (totals_row_ok _ _ R). cbn [bind]. eexists. repeat split.
  - intros e H. destruct (build_rows data) as [rs | e']; [discriminate |].
    exact H.
Qed.

Lemma json_predictions_to_csv_totals_flag_witness :
  exists t,
    json_predictions_to_csv example_document true
    = Ok ([row_for example_fields (S754_finite false 0x19000000000000 (-46))] ++ [t])
    /\ totals_row [row_for example_fields (S754_finite false 0x19000000000000 (-46))]
       = Ok t
    /\ field t "detection_id" = Some (VStr "TOTAL").
Proof.
  apply (proj1 (json_predictions_to_csv_totals_flag example_document)).
  vm_compute. reflexivity.
Defined.

(** X19.  Every record of a report, the totals row included, has
    exactly the columns of [fieldnames], in the order of the header. *)
Theorem json_predictions_to_csv_header (data : value) (write_totals_row : bool)
  (records : list value) :
  json_predictions_to_csv data write_totals_row = Ok records ->
  Forall (fun r => keys r = fieldnames) records.
Proof.
  unfold json_predictions_to_csv. intro H.
  apply bind_ok in H. destruct H as [rows [B H]].
  apply build_rows_ok in B. destruct B as [R _].
  assert (K : Forall (fun r => keys r = fieldnames) rows).
  { apply rows_of_rows in R. eapply Forall_impl; [| exact R].
    intros r [d [a [_ ->]]]. reflexivity. }
  destruct write_totals_row.
  - rewrite (totals_row_ok _ _ R) in H. cbn [bind] in H. injection H as <-.
    apply Forall_app. split; [exact K |]. repeat constructor.
  - injection H as <-. exact K.
Qed.

Lemma json_predictions_to_csv_header_witness :
  Forall (fun r => keys r = fieldnames)
    [ row_for example_fields (S754_finite false 0x19000000000000 (-46));
      totals_of (VFloat (S754_finite false 0x19000000000000 (-46)))
        (VFloat (fmul (fmul (S754_finite false 0x19000000000000 (-46)) PX2_TO_KG) LOW_MULT))
        (VFloat (fmul (fmul (S754_finite false 0x19000000000000 (-46)) PX2_TO_KG) MOD_MULT))
        (VFloat (fmul (fmul (S754_finite false 0x19000000000000 (-46)) PX2_TO_KG) HIGH_MULT)) ].
Proof.
  apply (json_predictions_to_csv_header example_document true).
  vm_compute. reflexivity.
Defined.

Lemma rows_of_app (l1 l2 r1 r2 : list value) :
  rows_of l1 = Ok r1 -> rows_of l2 = Ok r2 -> rows_of (l1 ++ l2) = Ok (r1 ++ r2).
Proof.
  rewrite !rows_of_Forall2. apply Forall2_app.
Qed.

(** X20.  The report of a list of documents, without totals, is the
    concatenation of the reports of its parts. *)
Theorem json_predictions_to_csv_merge (l1 l2 rows1 rows2 : list value) :
  json_predictions_to_csv (VList l1) false = Ok rows1 ->
  json_predictions_to_csv (VList l2) false = Ok rows2 ->
  json_predictions_to_csv (VList (l1 ++ l2)) false = Ok (rows1 ++ rows2).
Proof.
  unfold json_predictions_to_csv. intros H1 H2.
  apply bind_ok in H1. destruct H1 as [r1 [B1 H1]]. injection H1 as <-.
  apply bind_ok in H2. destruct H2 as [r2 [B2 H2]]. injection H2 as <-.
  apply build_rows_ok in B1, B2. destruct B1 as [R1 G1], B2 as [R2 G2].
  assert (B : build_rows (VList (l1 ++ l2)) = Ok (r1 ++ r2)).
  { apply build_rows_ok.
    rewrite !iter_list, map_app, gen_concat_app, <- !iter_list.
    unfold gen_seq. rewrite G1. cbn [fst snd]. split; [| exact G2].
    now apply rows_of_app. }
  now rewrite B.
Qed.

Lemma json_predictions_to_csv_merge_witness :
  json_predictions_to_csv (VList ([example_document] ++ [VInt 1; example_document]))
    false
  = Ok ([row_for example_fields (S754_finite false 0x19000000000000 (-46))]
          ++ [row_for example_fields (S754_finite false 0x19000000000000 (-46))]).
Proof.
  apply (json_predictions_to_csv_merge [example_document]
           [VInt 1; example_document]);
    vm_compute; reflexivity.
Defined.

Lemma fold_fadd_nan (fs : list float) : fold_left fadd fs S754_nan = S754_nan.
Proof. induction fs as [| f fs IH]; [reflexivity | exact IH]. Qed.

Lemma fadd_nan_r (f : float) : fadd f S754_nan = S754_nan.
Proof. now destruct f. Qed.

Lemma fold_fadd_poisoned (fs : list float) (acc : float) :
  In S754_nan fs -> fold_left fadd fs acc = S754_nan.
Proof.
  revert acc. induction fs as [| f fs IH]; intros acc H; [destruct H |].
  cbn [fold_left]. destruct H as [-> | H].
  - rewrite fadd_nan_r. apply fold_fadd_nan.
  - now apply IH.
Qed.

Lemma float_total_poisoned (fs : list float) :
  In S754_nan fs -> float_total fs = VFloat S754_nan.
Proof.
  destruct fs as [| f fs]; intro H; [destruct H |].
  cbn [float_total]. f_equal. destruct H as [-> | H].
  - rewrite fadd_nan_r. apply fold_fadd_nan.
  - now apply fold_fadd_poisoned.
Qed.

Lemma totals_of_field (k : string) (area low moderate high : value) :
  In k derived ->
  field (totals_of area low moderate high) k
  = Some (if String.eqb k "area_px2" then area
          else if String.eqb k "mass_low_kg" then low
          else if String.eqb k "mass_mod_kg" then moderate
          else high).
Proof.
  intro Hk. cbn in Hk.
  destruct Hk as [<- | [<- | [<- | [<- | []]]]]; reflexivity.
Qed.

Lemma totals_field (preds rows : list value) (k : string) :
  rows_of preds = Ok rows -> In k derived ->
  exists t, totals_row rows = Ok t
            /\ field t k = Some (float_total (float_column k rows)).
Proof.
  intros R Hk. rewrite (totals_row_ok _ _ R). eexists. split; [reflexivity |].
  cbn in Hk. destruct Hk as [<- | [<- | [<- | [<- | []]]]]; reflexivity.
Qed.

(** X21.  A NaN in a derived column of one row makes the total of
    that column a NaN. *)
Theorem totals_row_nan_spreads (preds rows : list value) (r : value)
  (k : string) :
  rows_of preds = Ok rows -> In r rows -> In k derived ->
  field r k = Some (VFloat S754_nan) ->
  exists t, totals_row rows = Ok t /\ field t k = Some (VFloat S754_nan).
Proof.
  intros R Hr Hk N. destruct (totals_field preds rows k R Hk) as [t [T F]].
  exists t. split; [exact T |]. rewrite F. f_equal.
  apply float_total_poisoned. unfold float_column.
  apply in_map_iff. exists r. split; [now rewrite N | exact Hr].
Qed.

Lemma totals_row_nan_spreads_witness :
  exists t,
    totals_row [ row_for example_fields (S754_finite false 0x19000000000000 (-46));
                 row_for overflow_fields S754_nan ]
    = Ok t
    /\ field t "mass_mod_kg" = Some (VFloat S754_nan).
Proof.
  apply (totals_row_nan_spreads [example_detection; VDict overflow_fields]
           [ row_for example_fields (S754_finite false 0x19000000000000 (-46));
             row_for overflow_fields S754_nan ]
           (row_for overflow_fields S754_nan) "mass_mod_kg").
  - vm_compute. reflexivity.
  - right. left. reflexivity.
  - cbn. tauto.
  - vm_compute. reflexivity.
Defined.

Lemma fadd_F0_nonneg (f : float) : nonneg f -> fadd F0 f = f.
Proof. destruct f as [s | s | | s m e]; cbn; intro H; subst; reflexivity. Qed.

(** X22.  The totals of a single row are the four derived values of
    that row, bit for bit. *)
Theorem totals_row_of_one (pred row : value) :
  prediction_to_row pred = Ok row ->
  exists t, totals_row [row] = Ok t
            /\ (forall k, In k derived -> field t k = field row k).
Proof.
  intro H.
  assert (R : rows_of [pred] = Ok [row]) by (cbn [rows_of]; now rewrite H).
  rewrite (totals_row_ok _ _ R). eexists. split; [reflexivity |].
  apply prediction_to_row_inv in H. destruct H as [d [a [_ [_ [N ->]]]]].
  intros k Hk. cbn in Hk.
  destruct Hk as [<- | [<- | [<- | [<- | []]]]];
    cbn [float_column map field float_total fold_left row_for totals_of lookup
           String.eqb Ascii.eqb Bool.eqb];
    rewrite fadd_F0_nonneg; try reflexivity; try assumption;
    now apply mass_nonneg.
Qed.

Lemma totals_row_of_one_witness :
  exists t,
    totals_row [row_for example_fields (S754_finite false 0x19000000000000 (-46))]
    = Ok t
    /\ (forall k, In k derived ->
        field t k
        = field (row_for example_fields (S754_finite false 0x19000000000000 (-46))) k).
Proof.
  apply (totals_row_of_one example_detection).
  vm_compute. reflexivity.
Defined.

(** X23.  The totals of no row are the integer [0], the start value
    of [sum]; the totals of one row or more are floats. *)
Theorem totals_row_number_kinds (preds rows : list value) (k : string) :
  rows_of preds = Ok rows -> In k derived ->
  exists t, totals_row rows = Ok t
            /\ (match rows with
                | [] => field t k = Some (VInt 0)
                | _ :: _ => exists f, field t k = Some (VFloat f)
                end).
Proof.
  intros R Hk. destruct (totals_field preds rows k R Hk) as [t [T F]].
  exists t. split; [exact T |]. rewrite F.
  destruct rows; cbn [float_column map float_total]; eauto.
Qed.

Lemma totals_row_number_kinds_witness :
  exists t, totals_row [] = Ok t /\ field t "area_px2" = Some (VInt 0).
Proof.
  apply (totals_row_number_kinds [] [] "area_px2"); [reflexivity | cbn; tauto].
Defined.

(** ** pred.py *)

Lemma enumerate_snd {A : Type} (l : list A) (n : nat) :
  map snd (combine (seq n (List.length l)) l) = l.
Proof.
  revert n. induction l as [| a l IH]; intro n; [reflexivity |].
  cbn [List.length seq combine map snd]. now rewrite IH.
Qed.

Lemma enumerate_In {A : Type} (l : list A) (n i : nat) (x : A) :
  nth_error l i = Some x -> In ((n + i)%nat, x) (combine (seq n (List.length l)) l).
Proof.
  revert n i. induction l as [| a l IH]; intros n i H; [now destruct i |].
  cbn [List.length seq combine]. destruct i as [| i].
  - injection H as <-. left. f_equal. lia.
  - right. replace (n + S i)%nat with (S n + i)%nat by lia. now apply IH.
Qed.

Lemma enumerate_length {A : Type} (l : list A) :
  List.length (enumerate l) = List.length l.
Proof. unfold enumerate. rewrite length_combine, length_seq. lia. Qed.

Lemma infer_one_spec {failure : Type} (predict : string -> value + failure)
  (total : nat) (st : list value * list (line failure)) (ifname : nat * string) :
  infer_one predict total st ifname
  = (fst st ++ recorded predict (snd ifname),
     snd st ++ [report predict total ifname]).
Proof.
  unfold infer_one, recorded, report.
  destruct (predict (img_path (snd ifname))) as [r | e];
    [| now rewrite app_nil_r].
  destruct (subscript r "predictions") as [p | e]; [| now rewrite app_nil_r].
  destruct (py_len p); reflexivity.
Qed.

Lemma fold_infer {failure : Type} (predict : string -> value + failure)
  (total : nat) (l : list (nat * string)) (st : list value * list (line failure)) :
  fold_left (infer_one predict total) l st
  = (fst st ++ flat_map (recorded predict) (map snd l),
     snd st ++ map (report predict total) l).
Proof.
  revert st. induction l as [| x l IH]; intro st.
  - cbn. rewrite !app_nil_r. now destruct st.
  - cbn [fold_left map flat_map]. rewrite IH, infer_one_spec. cbn [fst snd].
    now rewrite <- !app_assoc.
Qed.

Lemma run_inference_spec {failure : Type} (predict : string -> value + failure)
  (listing : list string) :
  run_inference predict listing
  = (flat_map (recorded predict) (filter is_image listing),
     Running (List.length (filter is_image listing))
       :: map (report predict (List.length (filter is_image listing)))
            (enumerate (filter is_image listing)) ++ [Saved]).
Proof.
  unfold run_inference. cbn zeta. rewrite fold_infer. cbn [fst snd app].
  unfold enumerate at 1. now rewrite enumerate_snd.
Qed.

Lemma recorded_entry {failure : Type} (predict : string -> value + failure)
  (fname : string) (v : value) :
  In v (recorded predict fname) ->
  exists result p,
    predict (img_path fname) = inl result
    /\ subscript result "predictions" = Ok p
    /\ v = entry fname p.
Proof.
  unfold recorded. destruct (predict (img_path fname)) as [r | e]; [| intros []].
  destruct (subscript r "predictions") as [p | e] eqn:S; [| intros []].
  intros [<- | []]. exists r, p. auto.
Qed.

(** X24.  The document pred.py saves holds, in the order of the
    listing, one entry for each image file whose inference answered with a
    "predictions" key, and nothing else: a failure drops its image only, and
    every entry is [{"image": name, "predictions": answer["predictions"]}]. *)
Theorem run_inference_entries {failure : Type}
  (predict : string -> value + failure) (listing : list string) :
  fst (run_inference predict listing)
  = flat_map (recorded predict) (filter is_image listing)
  /\ (List.length (fst (run_inference predict listing))
      <= List.length listing)%nat
  /\ (forall v, In v (fst (run_inference predict listing)) ->
      exists fname result p,
        In fname listing /\ is_image fname = true
        /\ predict (img_path fname) = inl result
        /\ subscript result "predictions" = Ok p
        /\ v = entry fname p).
Proof.
  rewrite run_inference_spec. cbn [fst]. split; [reflexivity |]. split.
  - induction listing as [| f listing IH]; [cbn; lia |].
    cbn [filter]. destruct (is_image f); [| cbn [List.length]; lia].
    cbn [flat_map]. rewrite length_app. cbn [List.length].
    assert (List.length (recorded predict f) <= 1)%nat; [| lia].
    unfold recorded. destruct (predict (img_path f)) as [r | e]; [| cbn; lia].
    destruct (subscript r "predictions"); cbn; lia.
  - intros v Hv. apply in_flat_map in Hv. destruct Hv as [f [Hf Hv]].
    apply filter_In in Hf. destruct Hf as [Hin Him].
    destruct (recorded_entry predict f v Hv) as [r [p [P [S E]]]].
    exists f, r, p. auto.
Qed.

Lemma report_image {failure : Type} (predict : string -> value + failure)
  (total : nat) (ifname : nat * string) :
  line_image (report predict total ifname)
  = Some (fst ifname + 1, total, snd ifname)%nat.
Proof.
  unfold report. destruct (predict (img_path (snd ifname))) as [r | e];
    [| reflexivity].
  destruct (subscript r "predictions") as [p | e]; [| reflexivity].
  destruct (py_len p); reflexivity.
Qed.

(** X25.  pred.py prints one line for each image file, in order,
    numbered from 1 out of the number of image files, whether inference
    succeeded or not, between the announcement and the closing line. *)
Theorem run_inference_lines {failure : Type}
  (predict : string -> value + failure) (listing : list string) :
  map line_image (snd (run_inference predict listing))
  = None
      :: map (fun ifname =>
                Some (fst ifname + 1, List.length (filter is_image listing),
                      snd ifname)%nat)
           (enumerate (filter is_image listing))
      ++ [None].
Proof.
  rewrite run_inference_spec. cbn [snd map]. f_equal.
  rewrite map_app, map_map. cbn [map line_image]. f_equal.
  apply map_ext. intro x. apply report_image.
Qed.

(** X26.  An image whose "predictions" has no length is printed as an
    error and is saved all the same: the entry is appended before [len] is
    taken. *)
Theorem run_inference_error_yet_saved {failure : Type}
  (predict : string -> value + failure) (listing : list string)
  (fname : string) (result p : value) (e : exn) :
  In fname listing -> is_image fname = true ->
  predict (img_path fname) = inl result ->
  subscript result "predictions" = Ok p ->
  py_len p = Raise e ->
  In (entry fname p) (fst (run_inference predict listing))
  /\ exists i total,
       In (Failed i total fname (inr e)) (snd (run_inference predict listing)).
Proof.
  intros Hin Him P S L. rewrite run_inference_spec. cbn [fst snd]. split.
  - apply in_flat_map. exists fname. split; [now apply filter_In |].
    unfold recorded. rewrite P, S. now left.
  - assert (F : In fname (filter is_image listing)) by now apply filter_In.
    destruct (In_nth_error _ _ F) as [i Hi].
    exists (i + 1)%nat, (List.length (filter is_image listing)).
    right. apply in_or_app. left. apply in_map_iff. exists (i, fname). split.
    + unfold report. cbn [fst snd]. now rewrite P, S, L.
    + apply (enumerate_In _ 0 i fname Hi).
Qed.

Lemma run_inference_error_yet_saved_witness :
  In (entry "b.png" (VInt 0))
    (fst (run_inference example_service ["a.jpg"; "notes.txt"; "b.png"]))
  /\ exists i total,
       In (Failed i total "b.png" (inr TypeError))
         (snd (run_inference example_service ["a.jpg"; "notes.txt"; "b.png"])).
Proof.
  apply (run_inference_error_yet_saved example_service
           ["a.jpg"; "notes.txt"; "b.png"] "b.png"
           (VDict [("predictions", VInt 0)]) (VInt 0) TypeError).
  - cbn. tauto.
  - reflexivity.
  - reflexivity.
  - reflexivity.
  - reflexivity.
Defined.

Lemma iter_entry (fname : string) (l : list value) :
  iter_prediction_objects (entry fname (VList l)) = (l, None).
Proof. reflexivity. Qed.

(** X27.  When every answer holds a list under "predictions", the
    extractor of MassEstimate.py, on the document pred.py saves, yields the
    detections of the image files in the order of the listing, without an
    exception. *)
Theorem iter_prediction_objects_of_run {failure : Type}
  (predict : string -> value + failure) (listing : list string) :
  (forall fname result p,
      In fname listing -> is_image fname = true ->
      predict (img_path fname) = inl result ->
      subscript result "predictions" = Ok p -> exists l, p = VList l) ->
  iter_prediction_objects (VList (fst (run_inference predict listing)))
  = (flat_map (detections predict) (filter is_image listing), None).
Proof.
  intro H. rewrite run_inference_spec. cbn [fst]. rewrite iter_list.
  induction listing as [| f listing IH]; [reflexivity |].
  assert (IH' : gen_concat
                  (map iter_prediction_objects
                     (flat_map (recorded predict) (filter is_image listing)))
                = (flat_map (detections predict) (filter is_image listing), None)).
  { apply IH. intros fname r p Hin. apply H. now right. }
  cbn [filter]. destruct (is_image f) eqn:Him; [| exact IH'].
  cbn [flat_map]. rewrite map_app, gen_concat_app, IH'.
  unfold recorded, detections.
  destruct (predict (img_path f)) as [r | e] eqn:P; [| reflexivity].
  destruct (subscript r "predictions") as [p | e] eqn:S; [| reflexivity].
  destruct (H f r p (or_introl eq_refl) Him P S) as [l ->].
  cbn [map gen_concat]. rewrite iter_entry, gen_seq_done_r. reflexivity.
Qed.

Lemma iter_prediction_objects_of_run_witness :
  iter_prediction_objects
    (VList (fst (run_inference example_service ["a.jpg"; "notes.txt"; "c.jpeg"])))
  = (flat_map (detections example_service)
       (filter is_image ["a.jpg"; "notes.txt"; "c.jpeg"]), None).
Proof.
  apply (iter_prediction_objects_of_run example_service
           ["a.jpg"; "notes.txt"; "c.jpeg"]).
  intros fname result p Hin Him P S. cbn in Hin.
  destruct Hin as [<- | [<- | [<- | []]]].
  - vm_compute in P. injection P as <-. vm_compute in S. injection S as <-. eauto.
  - discriminate.
  - discriminate.
Defined.
